(** * pytorch-tutorials: the autograd and transformer notebooks

    A shallow embedding of the code cells of
    [01_learning_pytorch/02_autograd_tutorial.ipynb] and
    [04_text/04_transformer_tutorial.ipynb].

    Python integers are [Z]; Python floats are IEEE binary64 and the
    elements of float tensors IEEE binary32, both through the executable
    specification [SpecFloat] of the Standard Library; Python exceptions
    are values of [exn] carried by [result].  A tensor is its shape and
    its elements in row-major order: a value of [tensor] stands for a
    tensor that is laid out that way, as [batchify] returns it; strides
    and devices are not part of the model, so [contiguous] and [to] keep
    a tensor as it is.  Sizes are Python integers, [Z]; torch holds a
    size in 64 bits and refuses an argument from [2^63] on with a
    TypeError, which is outside the model: a statement about a call with
    a size that the caller chooses keeps to [torch.is_size].

    The functions and cells of the transformer notebook are written in a
    state and error monad [M] over a [World]: the state of the framework,
    a store of the model objects, the variables of the top level, and a
    record of the errors that calls raised and of the notebook functions
    that were entered.  What the notebook takes from torch beyond integer
    tensors and the mask (modules, losses, autograd, optimizer, float
    tensors of activations) is an interface, [framework].  The cells of
    the autograd notebook, up to the vector-Jacobian product, run on a
    small model of reverse-mode differentiation over binary32. *)

From Stdlib Require Import ZArith Lia Bool.
From Stdlib Require Import Floats.SpecFloat.
From stdpp Require Import base tactics option list strings functions.

#[local] Open Scope string_scope.
#[local] Open Scope Z_scope.

(* ===================================================================== *)
(** * Python values: exceptions, floats, integer operators *)
(* ===================================================================== *)

Inductive exn : Type :=
  | ZeroDivisionError
  | IndexError
  | ValueError
  | AttributeError
  | TypeError
  | OverflowError
  | RuntimeError (msg : string)
  | LibraryError (code : Z).

Inductive result (A : Type) : Type :=
  | Ok (a : A)
  | Raise (e : exn).
Arguments Ok {A} a.
Arguments Raise {A} e.

Definition rbind {A B : Type} (r : result A) (k : A -> result B) : result B :=
  match r with
  | Ok a => k a
  | Raise e => Raise e
  end.

Declare Scope result_scope.
Delimit Scope result_scope with result.
Notation "'let?' x ':=' r 'in' k" := (rbind r (fun x => k))
  (at level 10, x name, r at level 100, k at level 200) : result_scope.
#[local] Open Scope result_scope.

Definition float := spec_float.

Module F32.
Definition prec : Z := 24.
Definition emax : Z := 128.
Definition of_Z (z : Z) : float := binary_normalize prec emax z 0 false.
Definition zero : float := S754_zero false.
Definition one : float := of_Z 1.
Definition add : float -> float -> float := SFadd prec emax.
Definition mul : float -> float -> float := SFmul prec emax.
Definition div : float -> float -> float := SFdiv prec emax.
Definition eqb : float -> float -> bool := SFeqb.
(** Conversion of a Python float to the element type of a float tensor. *)
Definition of_float (x : float) : float :=
  match x with
  | S754_finite s m e => binary_round prec emax s m e
  | _ => x
  end.
End F32.

Module F64.
Definition prec : Z := 53.
Definition emax : Z := 1024.
Definition of_Z (z : Z) : float := binary_normalize prec emax z 0 false.
Definition zero : float := S754_zero false.
Definition inf : float := S754_infinity false.
Definition neg_inf : float := S754_infinity true.
Definition add : float -> float -> float := SFadd prec emax.
Definition mul : float -> float -> float := SFmul prec emax.
Definition ltb : float -> float -> bool := SFltb.
Definition is_zero (x : float) : bool :=
  match x with S754_zero _ => true | _ => false end.
(** [x / y] on Python floats: a zero divisor raises. *)
Definition div (x y : float) : result float :=
  if is_zero y then Raise ZeroDivisionError else Ok (SFdiv prec emax x y).
End F64.

(** [a // b] and [a % b] on Python integers: floor division, as [Z.div]. *)
Definition py_floordiv (a b : Z) : result Z :=
  if b =? 0 then Raise ZeroDivisionError else Ok (a / b).

Definition py_mod (a b : Z) : result Z :=
  if b =? 0 then Raise ZeroDivisionError else Ok (a mod b).

(** [range(start, stop, step)] for a positive step. *)
Definition py_range (start stop step : Z) : list Z :=
  (fun k => start + Z.of_nat k * step) <$>
    seq 0 (Z.to_nat ((stop - start + step - 1) / step)).

(* ===================================================================== *)
(** * Tensors: shape and row-major elements *)
(* ===================================================================== *)

Record tensor (A : Type) : Type := Tensor { shape : list Z; data : list A }.
Arguments Tensor {A} shape data.
Arguments shape {A} t.
Arguments data {A} t.

Definition numel_of (sh : list Z) : Z := foldr Z.mul 1 sh.

(** [t[i, j]] of a 2-D tensor, [None] out of range. *)
Definition entry {A : Type} (t : tensor A) (i j : Z) : option A :=
  match shape t with
  | [r; c] =>
      if bool_decide (0 <= i < r /\ 0 <= j < c)
      then data t !! Z.to_nat (i * c + j) else None
  | _ => None
  end.

Module torch.
Section ops.
Context {A : Type}.

(** [t.size(d)] *)
Definition size (t : tensor A) (d : Z) : result Z :=
  let nd := Z.of_nat (length (shape t)) in
  if bool_decide (- nd <= d < nd)
  then match shape t !! Z.to_nat (if d <? 0 then d + nd else d) with
       | Some n => Ok n
       | None => Raise IndexError
       end
  else Raise IndexError.

(** [len(t)]: the first dimension. *)
Definition len (t : tensor A) : result Z :=
  match shape t with
  | n :: _ => Ok n
  | [] => Raise TypeError
  end.

(** [t.narrow(0, start, length)]: a negative [start] counts from the
    end. *)
Definition narrow0 (t : tensor A) (start length : Z) : result (tensor A) :=
  match shape t with
  | n :: rest =>
      if bool_decide (start = n \/ - n <= start < n)
      then
        let start := if start <? 0 then start + n else start in
        if bool_decide (0 <= length /\ start + length <= n)
        then let row := numel_of rest in
             Ok (Tensor (length :: rest)
                   (take (Z.to_nat (length * row))
                      (drop (Z.to_nat (start * row)) (data t))))
        else Raise (RuntimeError "narrow: start + length exceeds dimension size")
      else Raise IndexError
  | [] => Raise (RuntimeError "narrow() cannot be applied to a 0-dim tensor")
  end.

(** The shape that [view(sizes)] gives a tensor of [numel] elements; at
    most one size may be [-1], which is then inferred. *)
Definition infer_size (sizes : list Z) (numel : Z) : result (list Z) :=
  if bool_decide (Exists (fun d => d < -1) sizes)
  then Raise (RuntimeError "invalid shape dimension")
  else
    let known := filter (fun d => d <> -1) sizes in
    let infer := length (filter (fun d => d = -1) sizes) in
    let newsize := numel_of known in
    match infer with
    | O => if numel =? newsize then Ok sizes
           else Raise (RuntimeError "shape is invalid for input size")
    | S O =>
        if (numel =? newsize) || ((0 <? newsize) && (numel mod newsize =? 0))
        then if newsize =? 0
             then Raise (RuntimeError "the unspecified dimension size -1 can be any value and is ambiguous")
             else Ok ((fun d => if d =? -1 then numel / newsize else d) <$> sizes)
        else Raise (RuntimeError "shape is invalid for input size")
    | _ => Raise (RuntimeError "only one dimension can be inferred")
    end.

(** [t.view(sizes)] *)
Definition view (t : tensor A) (sizes : list Z) : result (tensor A) :=
  let? sh := infer_size sizes (numel_of (shape t)) in
  Ok (Tensor sh (data t)).

(** Element [k] of the row-major data of the transpose of an [r]-by-[c]
    matrix. *)
Definition transpose_data (r c : Z) (d : list A) : list A :=
  k ← seq 0 (Z.to_nat (r * c));
  option_list (d !! Z.to_nat ((Z.of_nat k mod r) * c + Z.of_nat k / r)).

(** [t.t()]: a 2-D tensor transposed, a 0-D or 1-D tensor as it is. *)
Definition t (x : tensor A) : result (tensor A) :=
  match shape x with
  | [] | [_] => Ok x
  | [r; c] => Ok (Tensor [c; r] (transpose_data r c (data x)))
  | _ => Raise (RuntimeError "t() expects a tensor with <= 2 dimensions")
  end.

(** [t.transpose(0, 1)] *)
Definition transpose01 (x : tensor A) : result (tensor A) :=
  match shape x with
  | [r; c] => Ok (Tensor [c; r] (transpose_data r c (data x)))
  | [] | [_] => Raise IndexError
  | _ => Raise (RuntimeError "transpose(0, 1): only matrices are modelled")
  end.

(** [t.contiguous()] and [t.to(device)] keep shape and elements. *)
Definition contiguous (x : tensor A) : tensor A := x.
Definition to (x : tensor A) : tensor A := x.

(** [t[start:stop]]: a slice along the first dimension, with Python's
    treatment of negative and out-of-range bounds. *)
Definition clamp_index (n i : Z) : Z :=
  let i' := if i <? 0 then i + n else i in Z.max 0 (Z.min n i').

Definition slice0 (x : tensor A) (start stop : Z) : result (tensor A) :=
  match shape x with
  | n :: rest =>
      let a := clamp_index n start in
      let b := Z.max a (clamp_index n stop) in
      let row := numel_of rest in
      Ok (Tensor ((b - a) :: rest)
            (take (Z.to_nat ((b - a) * row))
               (drop (Z.to_nat (a * row)) (data x))))
  | [] => Raise IndexError
  end.
End ops.

(** What torch takes as a size: an integer of 64 bits that is not
    negative. *)
Definition is_size (n : Z) : Prop := 0 <= n < 2 ^ 63.

(** [torch.ones(r, c)], for sizes [r] and [c]. *)
Definition ones (r c : Z) : result (tensor float) :=
  if bool_decide (0 <= r /\ 0 <= c)
  then Ok (Tensor [r; c] (replicate (Z.to_nat (r * c)) F32.one))
  else Raise (RuntimeError "Trying to create tensor with negative dimension").

(** [torch.triu(t)]: the elements below the main diagonal become zero. *)
Definition triu (x : tensor float) : result (tensor float) :=
  match shape x with
  | [r; c] =>
      Ok (Tensor [r; c]
            (imap (fun k v =>
                     if Z.of_nat k `div` c <=? Z.of_nat k `mod` c
                     then v else F32.zero) (data x)))
  | [] | [_] => Raise (RuntimeError "triu: input tensor must have at least 2 dimensions")
  | _ => Raise (RuntimeError "triu: only matrices are modelled")
  end.

(** [t == v] for a float tensor and an integer [v]. *)
Definition eq_scalar (x : tensor float) (v : Z) : tensor bool :=
  Tensor (shape x) ((fun a => F32.eqb a (F32.of_Z v)) <$> data x).

(** [t == v] for a boolean tensor and an integer [v]. *)
Definition eq_bool_scalar (x : tensor bool) (v : Z) : tensor bool :=
  Tensor (shape x) ((fun b : bool => (if b then 1 else 0) =? v) <$> data x).

(** [t.float()] for a boolean tensor. *)
Definition float_of_bool (x : tensor bool) : tensor float :=
  Tensor (shape x) ((fun b : bool => if b then F32.one else F32.zero) <$> data x).

(** [t.masked_fill(mask, value)] for a mask of the shape of [t]. *)
Definition masked_fill (x : tensor float) (mask : tensor bool) (value : float)
  : result (tensor float) :=
  if bool_decide (shape mask = shape x)
  then Ok (Tensor (shape x)
             (zip_with (fun a (b : bool) => if b then F32.of_float value else a)
                (data x) (data mask)))
  else Raise (RuntimeError "masked_fill: only a mask of the same shape is modelled").
End torch.

(** [l[i]] on a Python list. *)
Definition py_index {A : Type} (l : list A) (i : Z) : result A :=
  let n := Z.of_nat (length l) in
  match l !! Z.to_nat (if i <? 0 then i + n else i) with
  | Some a => if bool_decide (- n <= i < n) then Ok a else Raise IndexError
  | None => Raise IndexError
  end.


(* ===================================================================== *)
(** * torchtext: datasets and the numericalisation of the field TEXT *)
(* ===================================================================== *)

Record Example (token : Type) : Type := { text : list token }.
Arguments text {token} e.

Record Dataset (token : Type) : Type := { examples : list (Example token) }.
Arguments examples {token} d.

(** [torch.tensor(arr)] for a list of lists of integers. *)
Definition tensor_of_rows (arr : list (list Z)) : result (tensor Z) :=
  match arr with
  | [] => Ok (Tensor [0] [])
  | row :: _ =>
      if forallb (fun r => (length r =? length row)%nat) arr
      then Ok (Tensor [Z.of_nat (length arr); Z.of_nat (length row)] (concat arr))
      else Raise ValueError
  end.

(** [TEXT.numericalize(arr)] for the sequential field [TEXT], which is not
    batch-first: the tensor of the indices of the tokens, transposed.
    [TEXT.vocab.stoi] is a dictionary with a default, so the lookup
    [stoi] is total. *)
Definition numericalize {token : Type} (stoi : token -> Z) (arr : list (list token))
  : result (tensor Z) :=
  let arr := (fun ex : list token => stoi <$> ex) <$> arr in
  let? var := tensor_of_rows arr in
  let? var := torch.t var in
  Ok (torch.contiguous var).

Definition bptt : Z := 35.

(* ===================================================================== *)
(** * The framework behind the notebook *)
(* ===================================================================== *)

(** Values handed to [print]. *)
Inductive pyval : Type :=
  | PInt (z : Z)
  | PFloat (x : float)
  | PStr (s : string).

(** What the transformer notebook uses of torch, torchtext and the Python
    runtime beyond integer tensors.  [L] is the state behind the calls:
    the parameters and gradients of the library modules, the optimizer and
    the scheduler, the random generator, the gradient mode, the clock and
    the standard output.  [stoi] is [TEXT.vocab.stoi].  [nn_module] are
    the objects the library constructs, [Act] the float tensors that flow
    through them.  A call that reads or writes [L] takes and returns it;
    every call may raise. *)
Record framework : Type := {
  token : Type;
  stoi : token -> Z;
  L : Type;
  nn_module : Type;
  Act : Type;
  vocab_len : L -> Z;
  (* constructors of library modules *)
  nn_Dropout : float -> L -> result nn_module * L;
  nn_TransformerEncoderLayer : Z -> Z -> Z -> float -> L -> result nn_module * L;
  nn_TransformerEncoder : nn_module -> Z -> L -> result nn_module * L;
  nn_Embedding : Z -> Z -> L -> result nn_module * L;
  nn_Linear : Z -> Z -> L -> result nn_module * L;
  (* calls of library modules *)
  module_call : nn_module -> Act -> L -> result Act * L;
  embedding_call : nn_module -> tensor Z -> L -> result Act * L;
  encoder_call : nn_module -> Act -> option (tensor float) -> L -> result Act * L;
  criterion_call : nn_module -> Act -> tensor Z -> L -> result Act * L;
  module_train : nn_module -> bool -> L -> result unit * L;
  (* in-place initialisation of a parameter of a module *)
  uniform_ : nn_module -> string -> float -> float -> L -> result unit * L;
  zero_ : nn_module -> string -> L -> result unit * L;
  (* autograd, optimizer, scheduler *)
  backward : Act -> L -> result unit * L;
  clip_grad_norm_ : list nn_module -> float -> L -> result Act * L;
  optimizer_zero_grad : nn_module -> L -> result unit * L;
  optimizer_step : nn_module -> L -> result unit * L;
  scheduler_step : nn_module -> L -> result unit * L;
  scheduler_get_lr : nn_module -> L -> result (list float) * L;
  is_grad_enabled : L -> bool;
  set_grad_enabled : bool -> L -> L;
  (* operations on float tensors; the flag of [arange] is
     [dtype=torch.float] *)
  zeros : Z -> Z -> result Act;
  arange : bool -> Z -> Z -> Z -> result Act;
  to_float : Act -> result Act;
  unsqueeze : Act -> Z -> result Act;
  transpose : Act -> Z -> Z -> result Act;
  mul_scalar : Act -> float -> result Act;
  mul : Act -> Act -> result Act;
  add : Act -> Act -> result Act;
  exp : Act -> result Act;
  sin : Act -> result Act;
  cos : Act -> result Act;
  set_columns : Act -> Z -> Z -> Act -> result Act;
  rows_upto : Act -> Z -> result Act;
  act_size : Act -> Z -> result Z;
  act_view : Act -> list Z -> result Act;
  item : Act -> result float;
  (* the Python runtime *)
  math_log : float -> result float;
  math_exp : float -> result float;
  time_time : L -> result float * L;
  print : list pyval -> L -> result unit * L;
}.

(** [math.sqrt(x)] *)
Definition math_sqrt (x : float) : result float :=
  if SFltb x F64.zero then Raise ValueError
  else Ok (SFsqrt F64.prec F64.emax x).

(** A decimal literal [a / b] of Python, rounded to the nearest float. *)
Definition float_literal (a b : Z) : float :=
  SFdiv F64.prec F64.emax (F64.of_Z a) (F64.of_Z b).

Abbreviation loc := nat.

(** What happens while notebook code runs, as far as errors and calls
    between the notebook's own functions go. *)
Inductive event : Type :=
  | Raised (callee : string) (e : exn)
  | Enter (fn : string).

Section Notebook.
Context (fw : framework).

(** ** Objects of the two classes of the notebook *)

Record PositionalEncoding : Type := {
  pe_training : bool;
  pe_dropout : nn_module fw;
  pe : Act fw;
}.

Record TransformerModel : Type := {
  training : bool;
  model_type : string;
  src_mask : option (tensor float);
  pos_encoder : PositionalEncoding;
  transformer_encoder : nn_module fw;
  encoder : nn_module fw;
  ninp : Z;
  decoder : nn_module fw;
}.

Definition with_src_mask (mask : option (tensor float)) (m : TransformerModel)
  : TransformerModel :=
  {| training := training m; model_type := model_type m; src_mask := mask;
     pos_encoder := pos_encoder m; transformer_encoder := transformer_encoder m;
     encoder := encoder m; ninp := ninp m; decoder := decoder m |}.

Definition with_training (mode : bool) (m : TransformerModel) : TransformerModel :=
  {| training := mode; model_type := model_type m; src_mask := src_mask m;
     pos_encoder := {| pe_training := mode;
                       pe_dropout := pe_dropout (pos_encoder m);
                       pe := pe (pos_encoder m) |};
     transformer_encoder := transformer_encoder m;
     encoder := encoder m; ninp := ninp m; decoder := decoder m |}.

(** ** The variables of the notebook's top level *)

Record Globals : Type := {
  train_data : tensor Z;
  val_data : tensor Z;
  test_data : tensor Z;
  model : loc;
  criterion : nn_module fw;
  optimizer : nn_module fw;
  scheduler : nn_module fw;
  epoch : Z;
  best_val_loss : float;
  best_model : option loc;
}.

Definition with_epoch (e : Z) (g : Globals) : Globals :=
  {| train_data := train_data g; val_data := val_data g; test_data := test_data g;
     model := model g; criterion := criterion g; optimizer := optimizer g;
     scheduler := scheduler g; epoch := e;
     best_val_loss := best_val_loss g; best_model := best_model g |}.

Definition with_best (v : float) (b : option loc) (g : Globals) : Globals :=
  {| train_data := train_data g; val_data := val_data g; test_data := test_data g;
     model := model g; criterion := criterion g; optimizer := optimizer g;
     scheduler := scheduler g; epoch := epoch g;
     best_val_loss := v; best_model := b |}.

(** ** The state a cell runs in

    The objects of class [TransformerModel] live in a store; variables
    and arguments hold their locations, so that two names of one object
    see each other's writes.  The store is total: a location that no
    constructor has returned yet holds some object that nothing refers
    to. *)
Record World : Type := {
  lib : L fw;
  heap : loc -> TransformerModel;
  next_loc : loc;
  globals : Globals;
  trace : list event;
}.

Definition M (A : Type) : Type := World -> result A * World.

#[global] Instance M_ret : MRet M := fun A a w => (Ok a, w).
#[global] Instance M_bind : MBind M := fun A B k m w =>
  match m w with
  | (Ok a, w') => k a w'
  | (Raise e, w') => (Raise e, w')
  end.

Definition log (ev : event) (w : World) : World :=
  {| lib := lib w; heap := heap w; next_loc := next_loc w;
     globals := globals w; trace := trace w ++ [ev] |}.

(** A call into the library or the runtime that reads and writes [L]. *)
Definition call {A : Type} (callee : string) (op : L fw -> result A * L fw) : M A :=
  fun w =>
    let '(r, l) := op (lib w) in
    let w' := {| lib := l; heap := heap w; next_loc := next_loc w;
                 globals := globals w; trace := trace w |} in
    match r with
    | Ok a => (Ok a, w')
    | Raise e => (Raise e, log (Raised callee e) w')
    end.

(** A call that only computes. *)
Definition lift {A : Type} (callee : string) (r : result A) : M A :=
  fun w =>
    match r with
    | Ok a => (Ok a, w)
    | Raise e => (Raise e, log (Raised callee e) w)
    end.

(** Entering a function or method that the notebook defines. *)
Definition enter {A : Type} (fn : string) (body : M A) : M A :=
  fun w => body (log (Enter fn) w).

Definition get_lib {A : Type} (f : L fw -> A) : M A := fun w => (Ok (f (lib w)), w).
Definition put_lib (f : L fw -> L fw) : M unit :=
  fun w => (Ok tt, {| lib := f (lib w); heap := heap w; next_loc := next_loc w;
                      globals := globals w; trace := trace w |}).
Definition get_global {A : Type} (f : Globals -> A) : M A :=
  fun w => (Ok (f (globals w)), w).
Definition put_global (f : Globals -> Globals) : M unit :=
  fun w => (Ok tt, {| lib := lib w; heap := heap w; next_loc := next_loc w;
                      globals := f (globals w); trace := trace w |}).
Definition get_obj (self : loc) : M TransformerModel :=
  fun w => (Ok (heap w self), w).
Definition put_obj (self : loc) (f : TransformerModel -> TransformerModel) : M unit :=
  fun w => (Ok tt, {| lib := lib w; heap := alter f self (heap w);
                      next_loc := next_loc w;
                      globals := globals w; trace := trace w |}).
Definition new_obj (m : TransformerModel) : M loc :=
  fun w => (Ok (next_loc w),
            {| lib := lib w; heap := <[next_loc w := m]> (heap w);
               next_loc := S (next_loc w);
               globals := globals w; trace := trace w |}).

(** [for x in xs: acc = body(acc, x)] *)
Fixpoint for_each {X S : Type} (xs : list X) (acc : S) (body : S -> X -> M S) : M S :=
  match xs with
  | [] => mret acc
  | x :: rest => acc' ← body acc x; for_each rest acc' body
  end.

(** [with torch.no_grad(): body]: the gradient mode is switched off for
    the body and restored behind it, also when the body raises. *)
Definition with_no_grad {A : Type} (body : M A) : M A :=
  fun w =>
    let prev := is_grad_enabled fw (lib w) in
    match (put_lib (set_grad_enabled fw false) ;; body) w with
    | (r, w') => (r, snd (put_lib (set_grad_enabled fw prev) w'))
    end.

(** ** The functions of the data cells *)

Definition batchify (data : Dataset (token fw)) (bsz : Z) : M (tensor Z) :=
  enter "batchify" (
    ex ← lift "list.__getitem__" (py_index (examples data) 0);
    data ← lift "TEXT.numericalize" (numericalize (stoi fw) [text ex]);
    n ← lift "Tensor.size" (torch.size data 0);
    nbatch ← lift "int.__floordiv__" (py_floordiv n bsz);
    data ← lift "Tensor.narrow" (torch.narrow0 data 0 (nbatch * bsz));
    data ← lift "Tensor.view" (torch.view data [bsz; -1]);
    data ← lift "Tensor.t" (torch.t data);
    mret (torch.to (torch.contiguous data))).

Definition get_batch (source : tensor Z) (i : Z) : M (tensor Z * tensor Z) :=
  enter "get_batch" (
    n ← lift "len" (torch.len source);
    let seq_len := Z.min bptt (n - 1 - i) in
    data ← lift "Tensor.__getitem__" (torch.slice0 source i (i + seq_len));
    shifted ← lift "Tensor.__getitem__" (torch.slice0 source (i + 1) (i + 1 + seq_len));
    target ← lift "Tensor.view" (torch.view shifted [-1]);
    mret (data, target)).

(** ** [class PositionalEncoding(nn.Module)] *)

Definition PositionalEncoding_init (d_model : Z) (dropout : float) (max_len : Z)
  : M PositionalEncoding :=
  enter "PositionalEncoding.__init__" (
    drop ← call "nn.Dropout" (nn_Dropout fw dropout);
    pe0 ← lift "torch.zeros" (zeros fw max_len d_model);
    position ← lift "torch.arange" (arange fw true 0 max_len 1);
    position ← lift "Tensor.unsqueeze" (unsqueeze fw position 1);
    evens ← lift "torch.arange" (arange fw false 0 d_model 2);
    evens ← lift "Tensor.float" (to_float fw evens);
    lg ← lift "math.log" (math_log fw (F64.of_Z 10000));
    factor ← lift "float.__truediv__" (F64.div (SFopp lg) (F64.of_Z d_model));
    scaled ← lift "Tensor.__mul__" (mul_scalar fw evens factor);
    div_term ← lift "torch.exp" (exp fw scaled);
    angles ← lift "Tensor.__mul__" (mul fw position div_term);
    s ← lift "torch.sin" (sin fw angles);
    pe1 ← lift "Tensor.__setitem__" (set_columns fw pe0 0 2 s);
    angles ← lift "Tensor.__mul__" (mul fw position div_term);
    c ← lift "torch.cos" (cos fw angles);
    pe2 ← lift "Tensor.__setitem__" (set_columns fw pe1 1 2 c);
    pe3 ← lift "Tensor.unsqueeze" (unsqueeze fw pe2 0);
    pe4 ← lift "Tensor.transpose" (transpose fw pe3 0 1);
    mret {| pe_training := true; pe_dropout := drop; pe := pe4 |}).

Definition PositionalEncoding_forward (self : PositionalEncoding) (x : Act fw)
  : M (Act fw) :=
  enter "PositionalEncoding.forward" (
    n ← lift "Tensor.size" (act_size fw x 0);
    rows ← lift "Tensor.__getitem__" (rows_upto fw (pe self) n);
    x ← lift "Tensor.__add__" (add fw x rows);
    call "nn.Dropout.__call__" (module_call fw (pe_dropout self) x)).

(** ** [class TransformerModel(nn.Module)] *)

(** The method does not read [self].  The second assignment of the
    source reads the boolean [mask] of the first one in both of its
    [masked_fill] conditions. *)
Definition _generate_square_subsequent_mask (self : loc) (sz : Z) : M (tensor float) :=
  enter "TransformerModel._generate_square_subsequent_mask" (
    o ← lift "torch.ones" (torch.ones sz sz);
    u ← lift "torch.triu" (torch.triu o);
    mask ← lift "Tensor.transpose" (torch.transpose01 (torch.eq_scalar u 1));
    filled ← lift "Tensor.masked_fill"
               (torch.masked_fill (torch.float_of_bool mask)
                  (torch.eq_bool_scalar mask 0) F64.neg_inf);
    lift "Tensor.masked_fill"
      (torch.masked_fill filled (torch.eq_bool_scalar mask 1) F64.zero)).

Definition TransformerModel_init_weights (self : loc) : M unit :=
  enter "TransformerModel.init_weights" (
    let initrange := float_literal 1 10 in
    m ← get_obj self;
    call "Tensor.uniform_" (uniform_ fw (encoder m) "weight" (SFopp initrange) initrange);;
    m ← get_obj self;
    call "Tensor.zero_" (zero_ fw (decoder m) "bias");;
    m ← get_obj self;
    call "Tensor.uniform_" (uniform_ fw (decoder m) "weight" (SFopp initrange) initrange)).

(** The fields are assigned in the order of the source; the object is
    entered into the store once they are all there, before
    [init_weights] reads them. *)
Definition TransformerModel_init (ntoken ninp nhead nhid nlayers : Z) (dropout : float)
  : M loc :=
  enter "TransformerModel.__init__" (
    pos ← PositionalEncoding_init ninp dropout 5000;
    encoder_layers ← call "nn.TransformerEncoderLayer"
                       (nn_TransformerEncoderLayer fw ninp nhead nhid dropout);
    tenc ← call "nn.TransformerEncoder" (nn_TransformerEncoder fw encoder_layers nlayers);
    emb ← call "nn.Embedding" (nn_Embedding fw ntoken ninp);
    dec ← call "nn.Linear" (nn_Linear fw ninp ntoken);
    self ← new_obj {| training := true; model_type := "Transformer";
                      src_mask := None; pos_encoder := pos;
                      transformer_encoder := tenc; encoder := emb;
                      ninp := ninp; decoder := dec |};
    TransformerModel_init_weights self;;
    mret self).

Definition TransformerModel_forward (self : loc) (src : tensor Z) : M (Act fw) :=
  enter "TransformerModel.forward" (
    m ← get_obj self;
    stale ← match src_mask m with
            | None => mret true
            | Some cached =>
                a ← lift "Tensor.size" (torch.size cached 0);
                b ← lift "Tensor.size" (torch.size src 0);
                mret (negb (a =? b))
            end;
    (if stale : bool then
       n ← lift "Tensor.size" (torch.size src 0);
       mask ← _generate_square_subsequent_mask self n;
       put_obj self (with_src_mask (Some (torch.to mask)))
     else mret tt);;
    m ← get_obj self;
    emb ← call "nn.Embedding.__call__" (embedding_call fw (encoder m) src);
    scale ← lift "math.sqrt" (math_sqrt (F64.of_Z (ninp m)));
    src' ← lift "Tensor.__mul__" (mul_scalar fw emb scale);
    m ← get_obj self;
    src' ← PositionalEncoding_forward (pos_encoder m) src';
    m ← get_obj self;
    output ← call "nn.TransformerEncoder.__call__"
               (encoder_call fw (transformer_encoder m) src' (src_mask m));
    m ← get_obj self;
    call "nn.Linear.__call__" (module_call fw (decoder m) output)).

(** [nn.Module.train(self, mode)], inherited by [TransformerModel]: the
    flag of the object and of its children, in the order in which
    [__init__] assigned them. *)
Definition Module_train (self : loc) (mode : bool) : M unit :=
  put_obj self (with_training mode);;
  m ← get_obj self;
  call "nn.Module.train" (module_train fw (pe_dropout (pos_encoder m)) mode);;
  call "nn.Module.train" (module_train fw (transformer_encoder m) mode);;
  call "nn.Module.train" (module_train fw (encoder m) mode);;
  call "nn.Module.train" (module_train fw (decoder m) mode).

(** [model.parameters()]: the library modules that hold them. *)
Definition parameters (m : TransformerModel) : list (nn_module fw) :=
  [pe_dropout (pos_encoder m); transformer_encoder m; encoder m; decoder m].

(** ** The training cells *)

Definition log_interval : Z := 200.

Definition train : M unit :=
  enter "train" (
    mdl ← get_global model;
    Module_train mdl true;;
    start_time ← call "time.time" (time_time fw);
    ntokens ← get_lib (vocab_len fw);
    td ← get_global train_data;
    n ← lift "Tensor.size" (torch.size td 0);
    for_each (zip (Z.of_nat <$> seq 0 (length (py_range 0 (n - 1) bptt)))
                  (py_range 0 (n - 1) bptt))
      (F64.zero, start_time)
      (fun '(total_loss, start_time) '(batch, i) =>
         td ← get_global train_data;
         '(data, targets) ← get_batch td i;
         opt ← get_global optimizer;
         call "optimizer.zero_grad" (optimizer_zero_grad fw opt);;
         mdl ← get_global model;
         output ← TransformerModel_forward mdl data;
         crit ← get_global criterion;
         flat ← lift "Tensor.view" (act_view fw output [-1; ntokens]);
         loss ← call "nn.CrossEntropyLoss.__call__" (criterion_call fw crit flat targets);
         call "Tensor.backward" (backward fw loss);;
         mdl ← get_global model;
         m ← get_obj mdl;
         call "clip_grad_norm_" (clip_grad_norm_ fw (parameters m) (float_literal 1 2));;
         opt ← get_global optimizer;
         call "optimizer.step" (optimizer_step fw opt);;
         l ← lift "Tensor.item" (item fw loss);
         let total_loss := F64.add total_loss l in
         r ← lift "int.__mod__" (py_mod batch log_interval);
         if (r =? 0) && (0 <? batch) then
           cur_loss ← lift "float.__truediv__" (F64.div total_loss (F64.of_Z log_interval));
           now ← call "time.time" (time_time fw);
           let elapsed := SFsub F64.prec F64.emax now start_time in
           ep ← get_global epoch;
           td ← get_global train_data;
           len_td ← lift "len" (torch.len td);
           nbatches ← lift "int.__floordiv__" (py_floordiv len_td bptt);
           sch ← get_global scheduler;
           lrs ← call "scheduler.get_lr" (scheduler_get_lr fw sch);
           lr ← lift "list.__getitem__" (py_index lrs 0);
           ms ← lift "float.__truediv__"
                  (F64.div (F64.mul elapsed (F64.of_Z 1000)) (F64.of_Z log_interval));
           ppl ← lift "math.exp" (math_exp fw cur_loss);
           call "print" (print fw [PStr "| epoch"; PInt ep; PInt batch; PInt nbatches;
                                   PFloat lr; PFloat ms; PFloat cur_loss; PFloat ppl]);;
           start_time ← call "time.time" (time_time fw);
           mret (F64.zero, start_time)
         else mret (total_loss, start_time));;
    mret tt).

Definition evaluate (eval_model : loc) (data_source : tensor Z) : M float :=
  enter "evaluate" (
    Module_train eval_model false;;
    ntokens ← get_lib (vocab_len fw);
    total_loss ← with_no_grad (
      n ← lift "Tensor.size" (torch.size data_source 0);
      for_each (py_range 0 (n - 1) bptt) F64.zero
        (fun total_loss i =>
           '(data, targets) ← get_batch data_source i;
           output ← TransformerModel_forward eval_model data;
           output_flat ← lift "Tensor.view" (act_view fw output [-1; ntokens]);
           len_data ← lift "len" (torch.len data);
           crit ← get_global criterion;
           loss ← call "nn.CrossEntropyLoss.__call__"
                    (criterion_call fw crit output_flat targets);
           l ← lift "Tensor.item" (item fw loss);
           mret (F64.add total_loss (F64.mul (F64.of_Z len_data) l))));
    len_source ← lift "len" (torch.len data_source);
    lift "float.__truediv__" (F64.div total_loss (F64.of_Z (len_source - 1)))).

Definition epochs : Z := 3.

(** The body of the loop over the epochs, for the epoch [ep]. *)
Definition epoch_body (ep : Z) : M unit :=
  put_global (with_epoch ep);;
  epoch_start_time ← call "time.time" (time_time fw);
  train;;
  mdl ← get_global model;
  vd ← get_global val_data;
  val_loss ← evaluate mdl vd;
  call "print" (print fw [PStr (String.concat EmptyString (replicate 89 "-"))]);;
  ep ← get_global epoch;
  now ← call "time.time" (time_time fw);
  ppl ← lift "math.exp" (math_exp fw val_loss);
  call "print" (print fw [PStr "| end of epoch"; PInt ep;
                          PFloat (SFsub F64.prec F64.emax now epoch_start_time);
                          PFloat val_loss; PFloat ppl]);;
  call "print" (print fw [PStr (String.concat EmptyString (replicate 89 "-"))]);;
  best ← get_global best_val_loss;
  (if F64.ltb val_loss best then
     mdl ← get_global model;
     put_global (with_best val_loss (Some mdl))
   else mret tt);;
  sch ← get_global scheduler;
  call "scheduler.step" (scheduler_step fw sch).

(** The cell with the loop over the epochs. *)
Definition epoch_loop : M unit :=
  put_global (with_best F64.inf None);;
  for_each (py_range 1 (epochs + 1) 1) tt (fun _ ep => epoch_body ep).

(** The cell behind it: the best model on the test data. *)
Definition test_cell : M float :=
  bm ← get_global best_model;
  td ← get_global test_data;
  match bm with
  | Some b =>
      test_loss ← evaluate b td;
      call "print" (print fw [PStr (String.concat EmptyString (replicate 89 "="))]);;
      ppl ← lift "math.exp" (math_exp fw test_loss);
      call "print" (print fw [PStr "| End of training"; PFloat test_loss; PFloat ppl]);;
      call "print" (print fw [PStr (String.concat EmptyString (replicate 89 "="))]);;
      mret test_loss
  | None => enter "evaluate" (lift "NoneType.eval" (Raise AttributeError))
  end.

(** ** The validation losses of a run of the loop *)

(** The first statements of the body of the loop, up to
    [val_loss = evaluate(model, val_data)]: what the epoch [ep] gets as
    its validation loss in the world it starts in. *)
Definition epoch_val_loss (ep : Z) : M float :=
  put_global (with_epoch ep);;
  epoch_start_time ← call "time.time" (time_time fw);
  train;;
  mdl ← get_global model;
  vd ← get_global val_data;
  evaluate mdl vd.

(** The validation losses of the run of the loop over the epochs [eps]
    from the world [w]: the first epoch gets its loss in [w], and every
    other epoch in the world that the epoch before it left behind. *)
Fixpoint run_val_losses (eps : list Z) (w : World) : list (result float) :=
  match eps with
  | [] => []
  | ep :: rest => (epoch_val_loss ep w).1 :: run_val_losses rest (epoch_body ep w).2
  end.

(** The validation losses of the run of the cell with the loop from the
    world [w]. *)
Definition epoch_loop_val_losses (w : World) : list (result float) :=
  run_val_losses (py_range 1 (epochs + 1) 1)
    (put_global (with_best F64.inf None) w).2.
End Notebook.

Arguments pe_training {fw} p.
Arguments pe_dropout {fw} p.
Arguments pe {fw} p.
Arguments training {fw} t.
Arguments model_type {fw} t.
Arguments src_mask {fw} t.
Arguments pos_encoder {fw} t.
Arguments transformer_encoder {fw} t.
Arguments encoder {fw} t.
Arguments ninp {fw} t.
Arguments decoder {fw} t.
Arguments with_src_mask {fw} mask m.
Arguments with_training {fw} mode m.
Arguments train_data {fw} g.
Arguments val_data {fw} g.
Arguments test_data {fw} g.
Arguments model {fw} g.
Arguments criterion {fw} g.
Arguments optimizer {fw} g.
Arguments scheduler {fw} g.
Arguments epoch {fw} g.
Arguments best_val_loss {fw} g.
Arguments best_model {fw} g.
Arguments with_epoch {fw} e g.
Arguments with_best {fw} v b g.
Arguments lib {fw} w.
Arguments heap {fw} w _.
Arguments next_loc {fw} w.
Arguments globals {fw} w.
Arguments trace {fw} w.
Arguments log {fw} ev w.
Arguments call {fw A} callee op _.
Arguments lift {fw A} callee r _.
Arguments enter {fw A} fn body _.
Arguments get_lib {fw A} f _.
Arguments put_lib {fw} f _.
Arguments get_global {fw A} f _.
Arguments put_global {fw} f _.
Arguments get_obj {fw} self _.
Arguments put_obj {fw} self f _.
Arguments new_obj {fw} m _.
Arguments for_each {fw X S} xs acc body _.
Arguments with_no_grad {fw A} body _.
Arguments parameters {fw} m.
Arguments PositionalEncoding_forward {fw} self x _.

(* ===================================================================== *)
(** * The autograd notebook *)
(* ===================================================================== *)

(** Tensors with their history, and reverse-mode differentiation over it,
    as far as the first cells of the notebook use them.  A gradient flows
    from a tensor along its [edge]: into [.grad] of a leaf that requires
    it, through the function that produced the tensor otherwise. *)
Module autograd.
#[local] Set Warnings "-register-all".
Inductive grad_fn : Type :=
  | AccumulateGrad (leaf : nat)
  | AddBackward0 (next : option grad_fn)
  | SubBackward0 (next : option grad_fn)
  | MulBackward0 (next_self next_other : option grad_fn)
      (saved_self saved_other : tensor float)
  | MulBackward0_scalar (next : option grad_fn) (other : float)
  | DivBackward0 (next_self next_other : option grad_fn)
      (saved_self saved_other : tensor float)
  | MeanBackward0 (next : option grad_fn) (self_sizes : list Z)
  | SumBackward0 (next : option grad_fn) (self_sizes : list Z).

Record var : Type := {
  value : tensor float;
  requires_grad : bool;
  edge : option grad_fn;
}.

(** The [.grad] attributes of the leaves. *)
Definition grads : Type := nat -> option (tensor float).

Definition map_tensor (f : float -> float) (t : tensor float) : tensor float :=
  Tensor (shape t) (f <$> data t).

(** An elementwise operation on two tensors of one shape. *)
Definition map2_tensor (f : float -> float -> float) (t u : tensor float)
  : result (tensor float) :=
  if bool_decide (shape t = shape u)
  then Ok (Tensor (shape t) (zip_with f (data t) (data u)))
  else Raise (RuntimeError "only operands of the same shape are modelled").

Definition track (inputs_require : bool) (fn : grad_fn) : option grad_fn :=
  if inputs_require then Some fn else None.

(** [torch.ones(r, c, requires_grad=...)], the leaf numbered [id]. *)
Definition ones (r c : Z) (requires : bool) (id : nat) : result var :=
  let? v := torch.ones r c in
  Ok {| value := v; requires_grad := requires;
        edge := track requires (AccumulateGrad id) |}.

(** [torch.randn(r, c)]: the next [r * c] draws of the generator. *)
Definition randn (r c : Z) (rng : nat -> float) : result var :=
  if bool_decide (0 <= r /\ 0 <= c)
  then Ok {| value := Tensor [r; c] (rng <$> seq 0 (Z.to_nat (r * c)));
             requires_grad := false; edge := None |}
  else Raise (RuntimeError "Trying to create tensor with negative dimension").

(** [t.requires_grad_(True)] on a leaf, which becomes the leaf [id]. *)
Definition requires_grad_ (t : var) (id : nat) : result var :=
  match edge t with
  | None | Some (AccumulateGrad _) =>
      Ok {| value := value t; requires_grad := true;
            edge := Some (AccumulateGrad id) |}
  | Some _ => Raise (RuntimeError "you can only change requires_grad flags of leaf variables")
  end.

(** [t + c], [t - c] and [t * c] for an integer [c]. *)
Definition add_scalar (t : var) (c : Z) : var :=
  {| value := map_tensor (fun a => F32.add a (F32.of_Z c)) (value t);
     requires_grad := requires_grad t;
     edge := track (requires_grad t) (AddBackward0 (edge t)) |}.

Definition sub_scalar (t : var) (c : Z) : var :=
  {| value := map_tensor (fun a => SFsub F32.prec F32.emax a (F32.of_Z c)) (value t);
     requires_grad := requires_grad t;
     edge := track (requires_grad t) (SubBackward0 (edge t)) |}.

Definition mul_scalar (t : var) (c : Z) : var :=
  {| value := map_tensor (fun a => F32.mul a (F32.of_Z c)) (value t);
     requires_grad := requires_grad t;
     edge := track (requires_grad t) (MulBackward0_scalar (edge t) (F32.of_Z c)) |}.

(** [t * u] and [t / u] *)
Definition mul (t u : var) : result var :=
  let? v := map2_tensor F32.mul (value t) (value u) in
  Ok {| value := v; requires_grad := requires_grad t || requires_grad u;
        edge := track (requires_grad t || requires_grad u)
                  (MulBackward0 (edge t) (edge u) (value t) (value u)) |}.

Definition div (t u : var) : result var :=
  let? v := map2_tensor F32.div (value t) (value u) in
  Ok {| value := v; requires_grad := requires_grad t || requires_grad u;
        edge := track (requires_grad t || requires_grad u)
                  (DivBackward0 (edge t) (edge u) (value t) (value u)) |}.

(** [t.sum()] and [t.mean()]: tensors of no dimension. *)
Definition total (t : tensor float) : float := foldl F32.add F32.zero (data t).

Definition sum (t : var) : var :=
  {| value := Tensor [] [total (value t)];
     requires_grad := requires_grad t;
     edge := track (requires_grad t) (SumBackward0 (edge t) (shape (value t))) |}.

Definition mean (t : var) : var :=
  {| value := Tensor [] [F32.div (total (value t))
                           (F32.of_Z (numel_of (shape (value t))))];
     requires_grad := requires_grad t;
     edge := track (requires_grad t) (MeanBackward0 (edge t) (shape (value t))) |}.

(** A gradient of no dimension spread over a shape. *)
Definition expand (g : tensor float) (sizes : list Z) : result (tensor float) :=
  match data g with
  | [v] => Ok (Tensor sizes (replicate (Z.to_nat (numel_of sizes)) v))
  | _ => Raise (RuntimeError "expand: only a single element is modelled")
  end.

(** The gradient [g] of the output sent back through [fn]; a gradient
    that arrives at a leaf is added to its [.grad]. *)
Fixpoint backprop (fn : grad_fn) (g : tensor float) (gs : grads) : result grads :=
  let flow (next : option grad_fn) (g : tensor float) (gs : grads) : result grads :=
    match next with
    | Some fn' => backprop fn' g gs
    | None => Ok gs
    end in
  match fn with
  | AccumulateGrad leaf =>
      match gs leaf with
      | None => Ok (<[leaf := Some g]> gs)
      | Some old =>
          let? acc := map2_tensor F32.add old g in
          Ok (<[leaf := Some acc]> gs)
      end
  | AddBackward0 next => flow next g gs
  | SubBackward0 next => flow next g gs
  | MulBackward0 next_self next_other saved_self saved_other =>
      let? g_self := map2_tensor F32.mul g saved_other in
      let? gs := flow next_self g_self gs in
      let? g_other := map2_tensor F32.mul g saved_self in
      flow next_other g_other gs
  | MulBackward0_scalar next other =>
      flow next (map_tensor (fun a => F32.mul a other) g) gs
  | DivBackward0 next_self next_other saved_self saved_other =>
      let? g_self := map2_tensor F32.div g saved_other in
      let? gs := flow next_self g_self gs in
      let? num := map2_tensor F32.mul (map_tensor SFopp g) saved_self in
      let? den := map2_tensor F32.mul saved_other saved_other in
      let? g_other := map2_tensor F32.div num den in
      flow next_other g_other gs
  | MeanBackward0 next self_sizes =>
      let? e := expand g self_sizes in
      flow next (map_tensor (fun a => F32.div a (F32.of_Z (numel_of self_sizes))) e) gs
  | SumBackward0 next self_sizes =>
      let? e := expand g self_sizes in
      flow next e gs
  end.

(** [t.backward()] without an argument. *)
Definition backward (t : var) (gs : grads) : result grads :=
  match edge t with
  | None => Raise (RuntimeError "element 0 of tensors does not require grad and does not have a grad_fn")
  | Some fn =>
      if numel_of (shape (value t)) =? 1
      then backprop fn (Tensor (shape (value t)) [F32.one]) gs
      else Raise (RuntimeError "grad can be implicitly created only for scalar outputs")
  end.

(** The code cells of the notebook up to [print(x.grad)], run with the
    random generator [rng]; the result is what the last of them prints,
    the value of [x.grad]. *)
Definition cells (rng : nat -> float) : result (option (tensor float)) :=
  let? x := ones 2 2 true 0 in
  let y := add_scalar x 2 in
  let? yy := mul y y in
  let z := mul_scalar yy 3 in
  let out := mean z in
  let? a := randn 2 2 rng in
  let? a := div (mul_scalar a 3) (sub_scalar a 1) in
  let? a := requires_grad_ a 1 in
  let? aa := mul a a in
  let b := sum aa in
  let? gs := backward out (fun _ => None) in
  Ok (gs 0%nat).

(** ** The cells with the vector-Jacobian product *)

(** [torch.randn(n, requires_grad=True)]: the next [n] draws of the
    generator, of which [drawn] are used up; the leaf numbered [id]. *)
Definition randn1 (n : Z) (rng : nat -> float) (drawn : nat) (id : nat) : result var :=
  if bool_decide (0 <= n)
  then Ok {| value := Tensor [n] (rng <$> seq drawn (Z.to_nat n));
             requires_grad := true; edge := Some (AccumulateGrad id) |}
  else Raise (RuntimeError "Trying to create tensor with negative dimension").

(** [torch.tensor([0.1, 1.0, 0.0001], dtype=torch.float)] *)
Definition v_literal : tensor float :=
  Tensor [3] [F32.of_float (float_literal 1 10); F32.of_float (F64.of_Z 1);
              F32.of_float (float_literal 1 10000)].

(** [t.backward(gradient)] *)
Definition backward_with (t : var) (gradient : tensor float) (gs : grads)
  : result grads :=
  match edge t with
  | None => Raise (RuntimeError "element 0 of tensors does not require grad and does not have a grad_fn")
  | Some fn =>
      if bool_decide (shape gradient = shape (value t))
      then backprop fn gradient gs
      else Raise (RuntimeError "Mismatch in shape")
  end.

(** [while y.data.norm() < 1000: y = y * 2], as far as [fuel] rounds of
    the loop go: [None] when the condition still holds behind them.
    [norm] is [Tensor.norm] of the library. *)
Fixpoint double_until (norm : tensor float -> float) (fuel : nat) (y : var)
  : option var :=
  if SFltb (norm (value y)) (F32.of_Z 1000)
  then match fuel with
       | O => None
       | S fuel => double_until norm fuel (mul_scalar y 2)
       end
  else Some y.

(** The 2-norm of a tensor, the squares added up in binary32 from left
    to right. *)
Definition norm2 (t : tensor float) : float :=
  SFsqrt F32.prec F32.emax
    (foldl (fun acc a => F32.add acc (F32.mul a a)) F32.zero (data t)).

(** The two cells from [x = torch.randn(3, requires_grad=True)] to
    [print(x.grad)], run behind the cells above: four draws of the
    generator are used up, [x] is the leaf numbered 2, a new tensor
    without a gradient, and [gs] holds the gradients of the leaves so
    far.  The result is what the second cell prints, the value of
    [x.grad]; [None] when the loop has not ended within [fuel] rounds. *)
Definition vjp_cells (norm : tensor float -> float) (rng : nat -> float) (gs : grads)
    (fuel : nat) : option (result (option (tensor float))) :=
  match randn1 3 rng 4 2 with
  | Raise e => Some (Raise e)
  | Ok x =>
      match double_until norm fuel (mul_scalar x 2) with
      | None => None
      | Some y =>
          Some (let? gs := backward_with y v_literal (<[2%nat := None]> gs) in
                Ok (gs 2%nat))
      end
  end.

(** A tensor doubled [k] times. *)
Definition doubled (k : nat) (t : tensor float) : tensor float :=
  Nat.iter k (map_tensor (fun a => F32.mul a (F32.of_Z 2))) t.

(** The history of a leaf multiplied by two [k] times. *)
Definition doubling_edge (id k : nat) : option grad_fn :=
  Nat.iter k (fun e => Some (MulBackward0_scalar e (F32.of_Z 2)))
    (Some (AccumulateGrad id)).

Definition doubled_var (id : nat) (x : tensor float) (k : nat) : var :=
  {| value := doubled k x;
     requires_grad := true;
     edge := doubling_edge id k |}.
End autograd.

(** The gradient 4.5 as an element of a float tensor. *)
Definition four_and_a_half : float := S754_finite false 9437184 (-21).

(* ===================================================================== *)
(** * A small framework to run the cells on *)
(* ===================================================================== *)

(** One integer weight stands for the parameters of all modules: an
    optimizer step moves it by one, the loss of a batch is read off a
    table at the weight, and activations are integers.  [print] appends to
    the standard output. *)
Module Toy.
Record state : Type := {
  weight : Z;
  grad_mode : bool;
  stdout : list (list pyval);
}.

Definition loss_at (w : Z) : Z :=
  match w with
  | 1 => 5
  | 2 => 7
  | 3 => 6
  | _ => 9
  end.

Definition pure {A : Type} (a : A) (l : state) : result A * state := (Ok a, l).

Definition fw : framework := {|
  token := Z;
  stoi := fun tok => tok;
  L := state;
  nn_module := string;
  Act := Z;
  vocab_len := fun _ => 1;
  nn_Dropout := fun _ => pure "Dropout";
  nn_TransformerEncoderLayer := fun _ _ _ _ => pure "TransformerEncoderLayer";
  nn_TransformerEncoder := fun _ _ => pure "TransformerEncoder";
  nn_Embedding := fun _ _ => pure "Embedding";
  nn_Linear := fun _ _ => pure "Linear";
  module_call := fun _ a => pure a;
  embedding_call := fun _ _ => pure 0;
  encoder_call := fun _ a _ => pure a;
  criterion_call := fun _ _ _ l => (Ok (loss_at (weight l)), l);
  module_train := fun _ _ => pure tt;
  uniform_ := fun _ _ _ _ => pure tt;
  zero_ := fun _ _ => pure tt;
  backward := fun _ => pure tt;
  clip_grad_norm_ := fun _ _ => pure 0;
  optimizer_zero_grad := fun _ => pure tt;
  optimizer_step := fun _ l =>
    (Ok tt, {| weight := weight l + 1; grad_mode := grad_mode l; stdout := stdout l |});
  scheduler_step := fun _ => pure tt;
  scheduler_get_lr := fun _ => pure [F64.of_Z 5];
  is_grad_enabled := grad_mode;
  set_grad_enabled := fun b l =>
    {| weight := weight l; grad_mode := b; stdout := stdout l |};
  zeros := fun _ _ => Ok 0;
  arange := fun _ _ _ _ => Ok 0;
  to_float := Ok;
  unsqueeze := fun a _ => Ok a;
  transpose := fun a _ _ => Ok a;
  mul_scalar := fun a _ => Ok a;
  mul := fun a _ => Ok a;
  add := fun a _ => Ok a;
  exp := Ok;
  sin := Ok;
  cos := Ok;
  set_columns := fun a _ _ _ => Ok a;
  rows_upto := fun a _ => Ok a;
  act_size := fun _ _ => Ok 1;
  act_view := fun a _ => Ok a;
  item := fun a => Ok (F64.of_Z a);
  math_log := Ok;
  math_exp := Ok;
  time_time := pure F64.zero;
  print := fun vs l =>
    (Ok tt, {| weight := weight l; grad_mode := grad_mode l; stdout := stdout l ++ [vs] |});
|}.

Definition blank_model : TransformerModel fw :=
  {| training := true; model_type := "none"; src_mask := None;
     pos_encoder := Build_PositionalEncoding fw true "none" 0;
     transformer_encoder := "none"; encoder := "none"; ninp := 0;
     decoder := "none" |}.

Definition corpus : Dataset Z := {| examples := [ {| text := [4; 8; 15; 16; 23] |} ] |}.

(** The world before the first cell: no model yet, the data not yet
    batched. *)
Definition blank : World fw :=
  Build_World fw
    {| weight := 0; grad_mode := true; stdout := [] |}
    (fun _ => blank_model)
    0%nat
    (Build_Globals fw (Tensor [0] []) (Tensor [0] []) (Tensor [0] []) 0%nat
       "CrossEntropyLoss" "SGD" "StepLR" 0 F64.zero None)
    [].

(** The cells that batch the data, with batch size 2 for all three
    parts, and construct the model. *)
Definition setup : M fw unit :=
  train ← batchify fw corpus 2;
  val ← batchify fw corpus 2;
  test ← batchify fw corpus 2;
  mdl ← TransformerModel_init fw 1 200 2 200 2 (float_literal 2 10);
  put_global (fun g =>
    Build_Globals fw train val test mdl (criterion g) (optimizer g)
      (scheduler g) (epoch g) (best_val_loss g) (best_model g)).

(** The world in which the training cells start. *)
Definition start : World fw := (setup blank).2.

(** The validation losses that the loop over the epochs printed. *)
Definition printed_val_losses (l : state) : list float :=
  omap (fun line =>
          match line with
          | [PStr "| end of epoch"; PInt _; PFloat _; PFloat val_loss; PFloat _] =>
              Some val_loss
          | _ => None
          end) (stdout l).
End Toy.


(* ===================================================================== *)
(** * Properties of computations *)
(* ===================================================================== *)

Section properties.
Context {fw : framework}.

Definition err {A : Type} (r : result A) : option exn :=
  match r with
  | Ok _ => None
  | Raise e => Some e
  end.

Definition with_lib (l : L fw) (w : World fw) : World fw :=
  {| lib := l; heap := heap w; next_loc := next_loc w;
     globals := globals w; trace := trace w |}.

(** A relation between the world in which a computation starts, the
    error it raises, if any, and the world it leaves behind, that holds
    of the steps every function of the notebook is made of and of their
    sequence. *)
Class Spec (R : World fw -> option exn -> World fw -> Prop) : Prop := {
  spec_refl w : R w None w;
  spec_trans w w1 w2 o : R w None w1 -> R w1 o w2 -> R w o w2;
  spec_lib w w1 o l : R w o w1 -> R w o (with_lib l w1);
  spec_enter w fn : R w None (log (Enter fn) w);
  spec_raise w callee e : R w (Some e) (log (Raised callee e) w);
}.

(** The relation allows the assignment of [self.src_mask]. *)
Class SpecMask (R : World fw -> option exn -> World fw -> Prop) (self : loc) : Prop :=
  spec_mask w mask : R w None (put_obj self (with_src_mask mask) w).2.

(** The relation allows the assignment of the training flags. *)
Class SpecTraining (R : World fw -> option exn -> World fw -> Prop) : Prop :=
  spec_training w self mode : R w None (put_obj self (with_training mode) w).2.

(** The relation allows a new object. *)
Class SpecNew (R : World fw -> option exn -> World fw -> Prop) : Prop :=
  spec_new w m : R w None (new_obj m w).2.

Definition sat (R : World fw -> option exn -> World fw -> Prop) {A : Type}
    (m : M fw A) : Prop :=
  forall w, R w (err (m w).1) (m w).2.

(** The errors that calls into the library and the runtime raised. *)
Definition raised (tr : list event) : list exn :=
  omap (fun ev => match ev with Raised _ e => Some e | Enter _ => None end) tr.

(** No error is caught, retried or replaced: a computation returns
    when none of its calls raised, and raises [e] when exactly one call
    raised, which raised [e]. *)
Definition propagated (w : World fw) (o : option exn) (w' : World fw) : Prop :=
  exists tr, trace w' = (trace w ++ tr)%list /\ raised tr = option_list o.

(** Only the field [src_mask] of the object [self] is written. *)
Definition writes_src_mask (self : loc) (w : World fw) (o : option exn)
    (w' : World fw) : Prop :=
  (forall l, l <> self -> heap w' l = heap w l) /\
  heap w' self = with_src_mask (src_mask (heap w' self)) (heap w self) /\
  globals w' = globals w /\
  next_loc w' = next_loc w.

(** No object and no variable of the top level is written. *)
Definition keeps_store (w : World fw) (o : option exn) (w' : World fw) : Prop :=
  (forall l, heap w' l = heap w l) /\ globals w' = globals w.

(** [model] keeps its object, and [best_model] is as before or that
    same object. *)
Definition tracks_model (w : World fw) (o : option exn) (w' : World fw) : Prop :=
  model (globals w') = model (globals w) /\
  (best_model (globals w') = best_model (globals w) \/
   best_model (globals w') = Some (model (globals w'))).

(** No variable of the top level is written. *)
Definition keeps_globals (w : World fw) (o : option exn) (w' : World fw) : Prop :=
  globals w' = globals w.

(** The best validation loss so far, after one more epoch with the
    validation loss [v]. *)
Definition keep_lower (best v : float) : float :=
  if F64.ltb v best then v else best.

(** A handler around a computation, which the notebook has none of. *)
Definition try_except {A : Type} (body : M fw A) (handler : exn -> M fw A) : M fw A :=
  fun w =>
    match body w with
    | (Ok a, w') => (Ok a, w')
    | (Raise e, w') => handler e w'
    end.

(** The square subsequent mask of size [n]: zero on and below the
    diagonal, minus infinity above it. *)
Definition causal (n : Z) (m : tensor float) : Prop :=
  shape m = [n; n] /\
  Z.of_nat (length (data m)) = n * n /\
  forall i j, 0 <= i < n -> 0 <= j < n ->
    entry m i j = Some (if j <=? i then S754_zero false else S754_infinity true).

(** The cached mask of a model, if there is one, is a square subsequent
    mask. *)
Definition mask_ok (m : TransformerModel fw) : Prop :=
  match src_mask m with
  | None => True
  | Some cached => exists n, 0 <= n /\ causal n cached
  end.

(** The models whose cached mask was a square subsequent mask still
    have one. *)
Definition keeps_mask_ok (w : World fw) (o : option exn) (w' : World fw) : Prop :=
  forall l, mask_ok (heap w l) -> mask_ok (heap w' l).

(** The training flags of all objects are as before. *)
Definition keeps_training (w : World fw) (o : option exn) (w' : World fw) : Prop :=
  forall l, training (heap w' l) = training (heap w l) /\
            pe_training (pos_encoder (heap w' l)) =
              pe_training (pos_encoder (heap w l)).

(** Two states of a model with the same submodules, buffer and sizes:
    they differ at most in [src_mask] and in the training flags. *)
Definition same_modules (m m' : TransformerModel fw) : Prop :=
  model_type m' = model_type m /\
  pe_dropout (pos_encoder m') = pe_dropout (pos_encoder m) /\
  pe (pos_encoder m') = pe (pos_encoder m) /\
  transformer_encoder m' = transformer_encoder m /\
  encoder m' = encoder m /\
  ninp m' = ninp m /\
  decoder m' = decoder m.

(** No variable of the top level is written, no object is created, and
    no object gets another submodule, buffer or size. *)
Definition keeps_modules (w : World fw) (o : option exn) (w' : World fw) : Prop :=
  (forall l, same_modules (heap w l) (heap w' l)) /\
  globals w' = globals w /\
  next_loc w' = next_loc w.

(** Nothing of the store is written: the objects, the next free
    location and the variables of the top level are as before. *)
Definition keeps_heap (w : World fw) (o : option exn) (w' : World fw) : Prop :=
  (forall l, heap w' l = heap w l) /\
  next_loc w' = next_loc w /\
  globals w' = globals w.

(** The functions of the notebook that a computation enters are among
    those that [P] holds of. *)
Definition only_enters (P : string -> Prop) {A : Type} (m : M fw A) : Prop :=
  forall w, exists tr,
    trace (m w).2 = (trace w ++ tr)%list /\
    forall fn, Enter fn ∈ tr -> P fn.

(** How often the function [fn] of the notebook was entered. *)
Definition is_enter (fn : string) (ev : event) : bool :=
  match ev with
  | Enter f => String.eqb f fn
  | Raised _ _ => false
  end.

Definition entered (fn : string) (tr : list event) : nat :=
  length (filter (fun ev => is_enter fn ev) tr).

(** A computation that starts with top-level variables of which [P]
    holds and returns, has kept [P] and has entered [fn] [n] times. *)
Definition enters_times (P : Globals fw -> Prop) (fn : string) (n : nat) {A : Type}
    (m : M fw A) : Prop :=
  forall w a w',
    P (globals w) -> m w = (Ok a, w') ->
    P (globals w') /\
    exists tr, trace w' = (trace w ++ tr)%list /\ entered fn tr = n.
End properties.

(** A computation that returns has entered the function [fn] of the
    notebook on the way. *)
Definition enters {fw : framework} {A : Type} (fn : string) (m : M fw A) : Prop :=
  forall (w : World fw) (a : A) (w' : World fw),
    m w = (Ok a, w') ->
    exists tr1 tr2, trace w' = (trace w ++ tr1 ++ Enter fn :: tr2)%list.
(* ===================================================================== *)
(** * Lemmas on the tensor operations *)
(* ===================================================================== *)

Lemma bind_option_list_length {A : Type} (f : nat -> option A) (n : nat) :
  (forall i, (i < n)%nat -> is_Some (f i)) ->
  length (seq 0 n ≫= (fun i => option_list (f i))) = n.
Proof.
  induction n as [|n IH]; intros Hf; [done|].
  rewrite seq_S, bind_app, length_app, IH by (intros; apply Hf; lia).
  simpl. destruct (Hf n) as [x ->]; [lia|]. simpl. lia.
Qed.

Lemma bind_option_list_lookup {A : Type} (f : nat -> option A) (n k : nat) :
  (forall i, (i < n)%nat -> is_Some (f i)) ->
  (k < n)%nat ->
  (seq 0 n ≫= (fun i => option_list (f i))) !! k = f k.
Proof.
  induction n as [|n IH]; intros Hf Hk; [lia|].
  rewrite seq_S, bind_app. simpl.
  assert (Hlen : length (seq 0 n ≫= (fun i => option_list (f i))) = n)
    by (apply bind_option_list_length; intros; apply Hf; lia).
  destruct (decide (k = n)) as [->|Hne].
  - rewrite lookup_app_r by lia. rewrite Hlen, Nat.sub_diag.
    destruct (Hf n) as [x ->]; [lia|]. done.
  - rewrite lookup_app_l by lia. apply IH; [intros; apply Hf|]; lia.
Qed.

Section tensor_lemmas.
Context {A : Type}.
Implicit Types (d : list A) (r c i j : Z).

Lemma transpose_index_bound r c k :
  0 <= k < r * c -> 0 <= r -> 0 <= c ->
  0 <= (k mod r) * c + k / r < r * c.
Proof.
  intros Hk Hr Hc.
  assert (0 < r) by nia.
  assert (0 <= k mod r < r) by (apply Z.mod_pos_bound; lia).
  assert (0 <= k / r) by (apply Z.div_pos; lia).
  assert (k / r < c) by (apply Z.div_lt_upper_bound; nia).
  nia.
Qed.

Lemma transpose_data_length r c d :
  0 <= r -> 0 <= c -> Z.of_nat (length d) = r * c ->
  Z.of_nat (length (torch.transpose_data r c d)) = r * c.
Proof.
  intros Hr Hc Hd. unfold torch.transpose_data.
  rewrite bind_option_list_length; [lia|].
  intros k Hk. apply lookup_lt_is_Some.
  pose proof (transpose_index_bound r c (Z.of_nat k)). lia.
Qed.

(** Entry [(i, j)] of the transpose is entry [(j, i)] of the matrix. *)
Lemma transpose_data_lookup r c d i j :
  Z.of_nat (length d) = r * c ->
  0 <= i < c -> 0 <= j < r ->
  torch.transpose_data r c d !! Z.to_nat (i * r + j) = d !! Z.to_nat (j * c + i).
Proof.
  intros Hd Hi Hj. unfold torch.transpose_data.
  rewrite bind_option_list_lookup.
  - rewrite Z2Nat.id by nia.
    replace ((i * r + j) mod r) with j
      by (apply (Z.mod_unique_pos _ _ i); lia).
    replace ((i * r + j) / r) with i
      by (apply (Z.div_unique_pos _ _ _ j); lia).
    done.
  - intros k Hk. apply lookup_lt_is_Some.
    pose proof (transpose_index_bound r c (Z.of_nat k)). lia.
  - nia.
Qed.
End tensor_lemmas.

(* ===================================================================== *)
(** * The square subsequent mask *)
(* ===================================================================== *)

Lemma div_mod_row (c i j : Z) :
  0 <= i -> 0 <= j < c -> (i * c + j) / c = i /\ (i * c + j) mod c = j.
Proof.
  intros Hi Hj. split.
  - symmetry. apply (Z.div_unique_pos _ _ _ j); lia.
  - symmetry. apply (Z.mod_unique_pos _ _ i); lia.
Qed.

(** [torch.triu(torch.ones(sz, sz)) == 1]: true on and above the diagonal. *)
Lemma triu_ones_eq_lookup (sz : Z) (o u : tensor float) (i j : Z) :
  torch.ones sz sz = Ok o -> torch.triu o = Ok u ->
  0 <= i < sz -> 0 <= j < sz ->
  data (torch.eq_scalar u 1) !! Z.to_nat (i * sz + j) = Some (i <=? j).
Proof.
  unfold torch.ones. case_bool_decide; [|done]. intros [= <-]. simpl.
  intros [= <-] Hi Hj. simpl.
  rewrite list_lookup_fmap, list_lookup_imap, lookup_replicate_2 by nia.
  simpl. rewrite Z2Nat.id by nia.
  destruct (div_mod_row sz i j) as [-> ->]; [lia..|].
  by destruct (i <=? j).
Qed.

(** The boolean [mask] of the first assignment: true on and below the
    diagonal. *)
Lemma mask_bool_spec (sz : Z) :
  0 <= sz ->
  exists (o u : tensor float) (mask : tensor bool),
    torch.ones sz sz = Ok o /\
    torch.triu o = Ok u /\
    torch.transpose01 (torch.eq_scalar u 1) = Ok mask /\
    shape mask = [sz; sz] /\
    Z.of_nat (length (data mask)) = sz * sz /\
    forall i j, 0 <= i < sz -> 0 <= j < sz ->
      data mask !! Z.to_nat (i * sz + j) = Some (j <=? i).
Proof.
  intros Hsz.
  destruct (torch.ones sz sz) as [o|] eqn:Ho;
    [|unfold torch.ones in Ho; case_bool_decide; [done|lia]].
  destruct (torch.triu o) as [u|] eqn:Hu;
    [|unfold torch.ones in Ho; case_bool_decide; [|done];
      injection Ho as <-; done].
  assert (Hsh : shape u = [sz; sz] /\ Z.of_nat (length (data u)) = sz * sz).
  { unfold torch.ones in Ho. case_bool_decide; [|done]. injection Ho as <-.
    injection Hu as <-. simpl. rewrite length_imap, length_replicate.
    split; [done|nia]. }
  destruct Hsh as [Hsh Hlen].
  exists o, u. unfold torch.transpose01. simpl. rewrite Hsh.
  eexists. do 3 (split; [done|]). simpl. split; [done|].
  assert (Hlen' : Z.of_nat (length ((fun a => F32.eqb a (F32.of_Z 1)) <$> data u)) = sz * sz)
    by (by rewrite length_fmap).
  split; [by apply transpose_data_length|].
  intros i j Hi Hj. rewrite transpose_data_lookup by done.
  apply (triu_ones_eq_lookup sz o u j i Ho Hu); lia.
Qed.

Lemma masked_fill_same_shape (x : tensor float) (mask : tensor bool) (v : float) :
  shape mask = shape x ->
  torch.masked_fill x mask v =
    Ok (Tensor (shape x)
          (zip_with (fun a (b : bool) => if b then F32.of_float v else a)
             (data x) (data mask))).
Proof. intros H. unfold torch.masked_fill. by rewrite bool_decide_eq_true_2. Qed.

(** ** Running the monad *)

Section monad_lemmas.
Context {fw : framework}.

Lemma bind_run {A B : Type} (m : M fw A) (k : A -> M fw B) (w : World fw) :
  (m ≫= k) w =
    match m w with
    | (Ok a, w') => k a w'
    | (Raise e, w') => (Raise e, w')
    end.
Proof. done. Qed.

Lemma bind_lift_ok {A B : Type} (callee : string) (r : result A) (a : A)
    (k : A -> M fw B) (w : World fw) :
  r = Ok a -> (lift callee r ≫= k) w = k a w.
Proof. by intros ->. Qed.

Lemma run_ok_eq {A : Type} (p : result A * World fw) (a : A) :
  p.1 = Ok a -> p = (Ok a, p.2).
Proof. destruct p as [r w]. simpl. by intros ->. Qed.

Lemma lift_ok {A : Type} (callee : string) (r : result A) (a : A) (w : World fw) :
  r = Ok a -> lift callee r w = (Ok a, w).
Proof. by intros ->. Qed.
End monad_lemmas.

(** The mask that the method returns, and the world it returns it in. *)
Lemma generate_square_subsequent_mask_run (fw : framework) (self : loc) (sz : Z)
    (w : World fw) :
  0 <= sz ->
  exists m : tensor float,
    _generate_square_subsequent_mask fw self sz w =
      (Ok m, log (Enter "TransformerModel._generate_square_subsequent_mask") w) /\
    shape m = [sz; sz] /\
    Z.of_nat (length (data m)) = sz * sz /\
    (forall i j, 0 <= i < sz -> 0 <= j < sz ->
       entry m i j = Some (if j <=? i then S754_zero false else S754_infinity true)).
Proof.
  intros Hsz. unfold _generate_square_subsequent_mask, enter.
  destruct (mask_bool_spec sz Hsz) as (o & u & mask & Ho & Hu & Hmask & Hsh & Hlen & Hent).
  rewrite (bind_lift_ok _ _ _ _ _ Ho), (bind_lift_ok _ _ _ _ _ Hu),
    (bind_lift_ok _ _ _ _ _ Hmask).
  erewrite bind_lift_ok by (by apply masked_fill_same_shape).
  erewrite lift_ok by (by apply masked_fill_same_shape).
  eexists. split; [done|]. simpl.
  assert (Hentry : forall i j, 0 <= i < sz -> 0 <= j < sz ->
    entry
      {| shape := shape mask;
         data := zip_with (fun a (b : bool) => if b then F32.of_float F64.zero else a)
           (zip_with (fun a (b : bool) => if b then F32.of_float F64.neg_inf else a)
              ((fun b : bool => if b then F32.one else F32.zero) <$> data mask)
              ((fun b : bool => (if b then 1 else 0) =? 0) <$> data mask))
           ((fun b : bool => (if b then 1 else 0) =? 1) <$> data mask) |} i j
    = Some (if j <=? i then S754_zero false else S754_infinity true)).
  { intros i j Hi Hj. unfold entry. simpl. rewrite Hsh.
    rewrite bool_decide_eq_true_2 by lia.
    rewrite !lookup_zip_with, !list_lookup_fmap, Hent by done. simpl.
    by destruct (j <=? i). }
  split; [done|]. split; [|exact Hentry].
  rewrite !length_zip_with, !length_fmap. lia.
Qed.



(** ** batchify *)

Lemma transpose_data_row {A : Type} (n : Z) (d : list A) :
  Z.of_nat (length d) = n -> torch.transpose_data 1 n d = d.
Proof.
  intros Hd. apply list_eq. intros k.
  assert (Hlen : Z.of_nat (length (torch.transpose_data 1 n d)) = 1 * n)
    by (apply transpose_data_length; lia).
  destruct (decide (k < length d)%nat) as [Hk|Hk].
  - replace k with (Z.to_nat (Z.of_nat k * 1 + 0)) at 1 by lia.
    rewrite transpose_data_lookup by lia. f_equal. lia.
  - rewrite !lookup_ge_None_2; [done|lia..].
Qed.

Lemma numericalize_one {token : Type} (stoi : token -> Z) (txt : list token) :
  numericalize stoi [txt] =
    Ok (Tensor [Z.of_nat (length txt); 1] (stoi <$> txt)).
Proof.
  unfold numericalize, tensor_of_rows. simpl.
  rewrite Nat.eqb_refl. simpl. unfold torch.contiguous.
  rewrite app_nil_r, transpose_data_row; [|done].
  by rewrite length_fmap.
Qed.

(** The view of [n / bsz * bsz] elements in [bsz] rows. *)
Lemma view_rows {A : Type} (d : list A) (q bsz : Z) :
  0 < bsz -> 0 <= q ->
  torch.view (Tensor [q * bsz; 1] d) [bsz; -1] = Ok (Tensor [bsz; q] d).
Proof.
  intros Hbsz Hq. unfold torch.view, torch.infer_size. simpl.
  rewrite bool_decide_eq_false_2; last first.
  { rewrite !Exists_cons, Exists_nil. lia. }
  rewrite !filter_cons, !filter_nil.
  destruct (decide (bsz <> -1)) as [_|]; [|lia].
  destruct (decide (-1 <> -1)) as [|_]; [done|].
  destruct (decide (bsz = -1)) as [|_]; [lia|].
  destruct (decide (-1 = -1)) as [_|]; [|done].
  simpl.
  rewrite ?Z.mul_1_r.
  rewrite Z.mod_mul by lia.
  rewrite (proj2 (Z.eqb_neq bsz 0)) by lia.
  rewrite (proj2 (Z.eqb_neq bsz (-1))) by lia.
  rewrite (proj2 (Z.ltb_lt 0 bsz)), Z.eqb_refl, orb_true_r, Z.div_mul by lia.
  done.
Qed.

Section batchify_proofs.
Context (fw : framework).

(** What [batchify] computes when the batch size is positive: the
    transpose of the [bsz]-by-[nbatch] view of the first
    [nbatch * bsz] indices. *)
Lemma batchify_unfold (ds : Dataset (token fw)) (ex : Example (token fw))
    (rest : list (Example (token fw))) (bsz : Z) (w : World fw) :
  examples ds = ex :: rest ->
  0 < bsz ->
  batchify fw ds bsz w =
    (Ok (Tensor [Z.of_nat (length (text ex)) / bsz; bsz]
           (torch.transpose_data bsz (Z.of_nat (length (text ex)) / bsz)
              (take (Z.to_nat (Z.of_nat (length (text ex)) / bsz * bsz))
                 (stoi fw <$> text ex)))),
     log (Enter "batchify") w).
Proof.
  intros Hex Hbsz. unfold batchify, enter. rewrite Hex.
  remember (Z.of_nat (length (text ex))) as n eqn:Hn.
  assert (Hq : 0 <= n / bsz) by (apply Z.div_pos; lia).
  assert (Hle : n / bsz * bsz <= n)
    by (rewrite Z.mul_comm; apply Z.mul_div_le; lia).
  rewrite (bind_lift_ok _ _ ex) by done.
  rewrite (bind_lift_ok _ _ _ _ _ (numericalize_one _ _)).
  rewrite (bind_lift_ok _ _ n) by (by rewrite Hn).
  rewrite (bind_lift_ok _ _ (n / bsz)); last first.
  { unfold py_floordiv. by rewrite (proj2 (Z.eqb_neq bsz 0)) by lia. }
  rewrite (bind_lift_ok _ _
             (Tensor [n / bsz * bsz; 1]
                (take (Z.to_nat (n / bsz * bsz)) (stoi fw <$> text ex)))); last first.
  { unfold torch.narrow0. simpl. rewrite <- Hn.
    rewrite bool_decide_eq_true_2 by lia. simpl.
    rewrite bool_decide_eq_true_2 by lia.
    by rewrite ?Z.mul_1_r, ?Z.mul_0_l, drop_0. }
  rewrite (bind_lift_ok _ _ _ _ _ (view_rows _ _ _ Hbsz Hq)).
  rewrite (bind_lift_ok _ _
             (Tensor [n / bsz; bsz]
                (torch.transpose_data bsz (n / bsz)
                   (take (Z.to_nat (n / bsz * bsz)) (stoi fw <$> text ex))))) by done.
  done.
Qed.

(** C4.  For a token sequence of length [n] and a batch size with
    [1 <= bsz <= n], [batchify] returns a tensor of [n / bsz] rows and
    [bsz] columns; the entry in row [i] of column [j] is the index of
    the token at position [j * (n / bsz) + i], so column [j] is the
    [j]-th contiguous chunk of [n / bsz] tokens; every entry comes from
    a position before the final [n mod bsz] ones, and those final
    tokens have no influence on the result. *)
Theorem batchify_spec (ds : Dataset (token fw)) (ex : Example (token fw))
    (rest : list (Example (token fw))) (bsz : Z) (w : World fw) :
  examples ds = ex :: rest ->
  1 <= bsz <= Z.of_nat (length (text ex)) ->
  let n := Z.of_nat (length (text ex)) in
  exists t : tensor Z,
    batchify fw ds bsz w = (Ok t, log (Enter "batchify") w) /\
    shape t = [n / bsz; bsz] /\
    Z.of_nat (length (data t)) = n - n mod bsz /\
    (forall i j, 0 <= i < n / bsz -> 0 <= j < bsz ->
       j * (n / bsz) + i < n - n mod bsz /\
       exists tok : token fw,
         text ex !! Z.to_nat (j * (n / bsz) + i) = Some tok /\
         entry t i j = Some (stoi fw tok)) /\
    (forall (ds' : Dataset (token fw)) (ex' : Example (token fw))
            (rest' : list (Example (token fw))) (w' : World fw),
       examples ds' = ex' :: rest' ->
       length (text ex') = length (text ex) ->
       take (Z.to_nat (n - n mod bsz)) (text ex') =
         take (Z.to_nat (n - n mod bsz)) (text ex) ->
       (batchify fw ds' bsz w').1 = Ok t).
Proof.
  intros Hex Hbsz. cbv zeta.
  rewrite (batchify_unfold ds ex rest) by (done || lia).
  remember (Z.of_nat (length (text ex))) as n eqn:Hn.
  assert (Hq : 0 <= n / bsz) by (apply Z.div_pos; lia).
  assert (Htrim : n - n mod bsz = n / bsz * bsz)
    by (rewrite Z.mod_eq by lia; lia).
  assert (Hle : n / bsz * bsz <= n)
    by (rewrite Z.mul_comm; apply Z.mul_div_le; lia).
  assert (Hlen : Z.of_nat (length (take (Z.to_nat (n / bsz * bsz)) (stoi fw <$> text ex)))
                 = bsz * (n / bsz)).
  { rewrite length_take_le; [lia|]. rewrite length_fmap. lia. }
  eexists. split; [done|].
  simpl. split; [done|]. split.
  { rewrite transpose_data_length; lia. }
  split.
  - intros i j Hi Hj.
    assert (Hpos : 0 <= j * (n / bsz) + i < n / bsz * bsz) by nia.
    split; [lia|].
    destruct (lookup_lt_is_Some_2 (text ex) (Z.to_nat (j * (n / bsz) + i)))
      as [tok Htok]; [lia|].
    exists tok. split; [done|].
    unfold entry. simpl. rewrite bool_decide_eq_true_2 by lia.
    rewrite transpose_data_lookup by lia.
    rewrite lookup_take_lt by lia.
    by rewrite list_lookup_fmap, Htok.
  - intros ds' ex' rest' w' Hex' Hsame Htake.
    rewrite (batchify_unfold ds' ex' rest') by (done || lia). simpl.
    rewrite Hsame, <- Hn, <- Htrim.
    by rewrite <- !fmap_take, Htake.
Qed.
End batchify_proofs.

(** The five tokens of the small corpus in batches of two: two rows, and
    the fifth token is left out. *)
Lemma batchify_spec_witness :
  examples Toy.corpus = [ {| text := [4; 8; 15; 16; 23] |} ] /\
  1 <= 2 <= Z.of_nat (length [4; 8; 15; 16; 23]) /\
  exists t : tensor Z,
    batchify Toy.fw Toy.corpus 2 Toy.blank = (Ok t, log (Enter "batchify") Toy.blank) /\
    shape t = [5 / 2; 2] /\
    Z.of_nat (length (data t)) = 5 - 5 mod 2.
Proof.
  split; [reflexivity|]. split; [simpl; lia|].
  destruct (batchify_spec Toy.fw Toy.corpus {| text := [4; 8; 15; 16; 23] |} [] 2
              Toy.blank eq_refl) as (t & Hrun & Hshape & Hlen & _).
  - simpl. lia.
  - exists t. split; [exact Hrun|]. split; [exact Hshape|exact Hlen].
Defined.

(* ===================================================================== *)
(** * Reasoning about the computations, step by step *)
(* ===================================================================== *)

Section sat_rules.
Context {fw : framework}.
Context (R : World fw -> option exn -> World fw -> Prop) `{!Spec R}.

Lemma sat_ret {A : Type} (a : A) : sat R (mret a : M fw A).
Proof. intros w. apply spec_refl. Qed.

Lemma sat_bind {A B : Type} (m : M fw A) (k : A -> M fw B) :
  sat R m -> (forall a, sat R (k a)) -> sat R (m ≫= k).
Proof.
  intros Hm Hk w. rewrite bind_run. specialize (Hm w).
  destruct (m w) as [[a|e] w1]; simpl in *; [|done].
  eapply spec_trans; [exact Hm|apply Hk].
Qed.

Lemma sat_call {A : Type} (callee : string) (op : L fw -> result A * L fw) :
  sat R (call callee op).
Proof.
  intros w. unfold call. destruct (op (lib w)) as [[a|e] l]; simpl.
  - apply (spec_lib w w None l), spec_refl.
  - eapply spec_trans; [apply (spec_lib w w None l), spec_refl|].
    apply spec_raise.
Qed.

Lemma sat_lift {A : Type} (callee : string) (r : result A) : sat R (lift callee r).
Proof.
  intros w. unfold lift. destruct r as [a|e]; simpl;
    [apply spec_refl|apply spec_raise].
Qed.

Lemma sat_enter {A : Type} (fn : string) (body : M fw A) :
  sat R body -> sat R (enter fn body).
Proof.
  intros Hb w. unfold enter. eapply spec_trans; [apply spec_enter|apply Hb].
Qed.

Lemma sat_get_lib {A : Type} (f : L fw -> A) : sat R (get_lib f).
Proof. intros w. apply spec_refl. Qed.

Lemma sat_put_lib (f : L fw -> L fw) : sat R (put_lib f).
Proof. intros w. apply (spec_lib w w None), spec_refl. Qed.

Lemma sat_get_global {A : Type} (f : Globals fw -> A) : sat R (get_global f).
Proof. intros w. apply spec_refl. Qed.

Lemma sat_get_obj (self : loc) : sat R (get_obj self).
Proof. intros w. apply spec_refl. Qed.

Lemma sat_put_src_mask (self : loc) `{!SpecMask R self} (mask : option (tensor float)) :
  sat R (put_obj self (with_src_mask mask)).
Proof. intros w. apply spec_mask. Qed.

Lemma sat_put_training `{!SpecTraining R} (self : loc) (mode : bool) :
  sat R (put_obj self (with_training mode)).
Proof. intros w. apply spec_training. Qed.

Lemma sat_new_obj `{!SpecNew R} (m : TransformerModel fw) : sat R (new_obj m).
Proof. intros w. apply spec_new. Qed.

Lemma sat_for_each {X S : Type} (xs : list X) (acc : S) (body : S -> X -> M fw S) :
  (forall a x, sat R (body a x)) -> sat R (for_each xs acc body).
Proof.
  intros Hb. revert acc. induction xs as [|x xs IH]; intros acc; simpl.
  - apply sat_ret.
  - apply sat_bind; [apply Hb|apply IH].
Qed.

Lemma sat_with_no_grad {A : Type} (body : M fw A) :
  sat R body -> sat R (with_no_grad body).
Proof.
  intros Hb w. unfold with_no_grad.
  pose proof (sat_bind _ _ (sat_put_lib (set_grad_enabled fw false)) (fun _ => Hb) w) as H.
  destruct ((put_lib (set_grad_enabled fw false);; body) w) as [r w1].
  simpl in *. by apply (spec_lib w w1).
Qed.
End sat_rules.

(** One step of a proof that a function of the notebook satisfies a
    relation: the rule of the outermost construct, or a rule at hand for
    the function that is called. *)
Ltac sat_rule :=
  lazymatch goal with
  | |- sat _ (mret _) => apply sat_ret
  | |- sat _ (_ ≫= _) => apply sat_bind
  | |- sat _ (call _ _) => apply sat_call
  | |- sat _ (lift _ _) => apply sat_lift
  | |- sat _ (enter _ _) => apply sat_enter
  | |- sat _ (get_lib _) => apply sat_get_lib
  | |- sat _ (put_lib _) => apply sat_put_lib
  | |- sat _ (get_global _) => apply sat_get_global
  | |- sat _ (get_obj _) => apply sat_get_obj
  | |- sat _ (put_obj _ (with_src_mask _)) => apply sat_put_src_mask
  | |- sat _ (put_obj _ (with_training _)) => apply sat_put_training
  | |- sat _ (new_obj _) => apply sat_new_obj
  | |- sat _ (for_each _ _ _) => apply sat_for_each
  | |- sat _ (with_no_grad _) => apply sat_with_no_grad
  | |- sat _ (match ?x with _ => _ end) => destruct x
  | |- sat _ (match ?x with _ => _ end _) => destruct x; cbv beta
  | |- sat _ _ => solve [eauto]
  end.

Ltac sat_side :=
  lazymatch goal with
  | |- Spec _ => typeclasses eauto
  | |- SpecMask _ _ => typeclasses eauto
  | |- SpecTraining _ => typeclasses eauto
  | |- SpecNew _ => typeclasses eauto
  | |- _ => intros
  end.

Ltac sat_steps := repeat (sat_rule; sat_side).

Section sat_functions.
Context {fw : framework}.
Context (R : World fw -> option exn -> World fw -> Prop) `{!Spec R}.

Lemma sat_batchify (data : Dataset (token fw)) (bsz : Z) : sat R (batchify fw data bsz).
Proof. unfold batchify. sat_steps. Qed.

Lemma sat_get_batch (source : tensor Z) (i : Z) : sat R (get_batch fw source i).
Proof. unfold get_batch. sat_steps. Qed.

Lemma sat_generate_square_subsequent_mask (self : loc) (sz : Z) :
  sat R (_generate_square_subsequent_mask fw self sz).
Proof. unfold _generate_square_subsequent_mask. sat_steps. Qed.

Lemma sat_PositionalEncoding_init (d_model : Z) (dropout : float) (max_len : Z) :
  sat R (PositionalEncoding_init fw d_model dropout max_len).
Proof. unfold PositionalEncoding_init. sat_steps. Qed.

Lemma sat_PositionalEncoding_forward (self : PositionalEncoding fw) (x : Act fw) :
  sat R (PositionalEncoding_forward self x).
Proof. unfold PositionalEncoding_forward. sat_steps. Qed.

Lemma sat_init_weights (self : loc) : sat R (TransformerModel_init_weights fw self).
Proof. unfold TransformerModel_init_weights. sat_steps. Qed.

Lemma sat_TransformerModel_init `{!SpecNew R}
    (ntoken ninp nhead nhid nlayers : Z) (dropout : float) :
  sat R (TransformerModel_init fw ntoken ninp nhead nhid nlayers dropout).
Proof.
  unfold TransformerModel_init.
  pose proof sat_PositionalEncoding_init. pose proof sat_init_weights.
  sat_steps.
Qed.

Lemma sat_forward (self : loc) `{!SpecMask R self} (src : tensor Z) :
  sat R (TransformerModel_forward fw self src).
Proof.
  unfold TransformerModel_forward.
  pose proof sat_generate_square_subsequent_mask.
  pose proof sat_PositionalEncoding_forward.
  sat_steps.
Qed.

Lemma sat_Module_train `{!SpecTraining R} (self : loc) (mode : bool) :
  sat R (Module_train fw self mode).
Proof. unfold Module_train. sat_steps. Qed.

Lemma sat_train `{!SpecTraining R} `{!forall self, SpecMask R self} : sat R (train fw).
Proof.
  unfold train.
  pose proof sat_Module_train. pose proof sat_get_batch.
  pose proof (fun self => sat_forward self).
  sat_steps.
Qed.

Lemma sat_evaluate `{!SpecTraining R} `{!forall self, SpecMask R self}
    (eval_model : loc) (data_source : tensor Z) :
  sat R (evaluate fw eval_model data_source).
Proof.
  unfold evaluate.
  pose proof sat_Module_train. pose proof sat_get_batch.
  pose proof (fun self => sat_forward self).
  sat_steps.
Qed.
End sat_functions.

(* ===================================================================== *)
(** * The relations that the functions satisfy *)
(* ===================================================================== *)

Section relations.
Context {fw : framework}.

Lemma raised_app (tr1 tr2 : list event) :
  raised (tr1 ++ tr2) = (raised tr1 ++ raised tr2)%list.
Proof. apply omap_app. Qed.

#[global] Instance propagated_spec : Spec (@propagated fw).
Proof.
  split.
  - intros w. exists []. by rewrite app_nil_r.
  - intros w w1 w2 o (tr1 & H1 & Hr1) (tr2 & H2 & Hr2).
    exists (tr1 ++ tr2)%list. rewrite H2, H1, <- app_assoc. split; [done|].
    by rewrite raised_app, Hr1, Hr2.
  - intros w w1 o l (tr & H & Hr). by exists tr.
  - intros w fn. by exists [Enter fn].
  - intros w callee e. by exists [Raised callee e].
Qed.

#[global] Instance propagated_mask (self : loc) : SpecMask (@propagated fw) self.
Proof. intros w mask. exists []. by rewrite app_nil_r. Qed.

#[global] Instance propagated_training : SpecTraining (@propagated fw).
Proof. intros w self mode. exists []. by rewrite app_nil_r. Qed.

#[global] Instance propagated_new : SpecNew (@propagated fw).
Proof. intros w m. exists []. by rewrite app_nil_r. Qed.

Lemma with_src_mask_id (m : TransformerModel fw) : m = with_src_mask (src_mask m) m.
Proof. by destruct m. Qed.

Lemma with_src_mask_twice (a b : option (tensor float)) (m : TransformerModel fw) :
  with_src_mask a (with_src_mask b m) = with_src_mask a m.
Proof. done. Qed.

#[global] Instance writes_src_mask_spec (self : loc) : Spec (@writes_src_mask fw self).
Proof.
  split.
  - intros w. split_and!; try done. apply with_src_mask_id.
  - intros w w1 w2 o (H1 & H1' & H1g & H1n) (H2 & H2' & H2g & H2n).
    split_and!; [|..|congruence|congruence].
    + intros l Hl. by rewrite H2, H1.
    + by rewrite H2', H1', with_src_mask_twice at 1.
  - by intros w w1 o l H.
  - intros w fn. split_and!; try done. apply with_src_mask_id.
  - intros w callee e. split_and!; try done. apply with_src_mask_id.
Qed.

#[global] Instance writes_src_mask_mask (self : loc) :
  SpecMask (@writes_src_mask fw self) self.
Proof.
  intros w mask. unfold writes_src_mask, put_obj. cbn. split_and!; try done.
  - intros l Hl. by rewrite fn_lookup_alter_ne.
  - by rewrite fn_lookup_alter.
Qed.

#[global] Instance keeps_store_spec : Spec (@keeps_store fw).
Proof.
  split; try done.
  intros w w1 w2 o [H1 H1g] [H2 H2g]. split; [|congruence].
  intros l. by rewrite H2, H1.
Qed.

#[global] Instance tracks_model_spec : Spec (@tracks_model fw).
Proof.
  split; try (by intros; split; [|left]).
  - intros w w1 w2 o [H1 H1b] [H2 H2b]. split; [congruence|].
    destruct H2b as [H2b|H2b]; [|by right].
    rewrite H2b. destruct H1b as [H1b|H1b]; [by left|right]. congruence.
  - by intros w w1 o l H.
Qed.

#[global] Instance tracks_model_mask (self : loc) : SpecMask (@tracks_model fw) self.
Proof. intros w mask. by split; [|left]. Qed.

#[global] Instance tracks_model_training : SpecTraining (@tracks_model fw).
Proof. intros w self mode. by split; [|left]. Qed.
#[global] Instance keeps_globals_spec : Spec (@keeps_globals fw).
Proof.
  split; try done.
  intros w w1 w2 o H1 H2. unfold keeps_globals in *. congruence.
Qed.

#[global] Instance keeps_globals_mask (self : loc) : SpecMask (@keeps_globals fw) self.
Proof. by intros w mask. Qed.

#[global] Instance keeps_globals_training : SpecTraining (@keeps_globals fw).
Proof. by intros w self mode. Qed.
End relations.

(* ===================================================================== *)
(** * Errors *)
(* ===================================================================== *)

(** C6.  No function or method of the notebook catches, retries or
    replaces an error: whatever the framework does, each of them returns
    when none of the calls it made into the library or the runtime raised,
    and raises [e] when exactly one of them raised, which raised [e]. *)
Theorem errors_propagate (fw : framework) :
  (forall data bsz, sat propagated (batchify fw data bsz)) /\
  (forall source i, sat propagated (get_batch fw source i)) /\
  sat propagated (train fw) /\
  (forall eval_model data_source,
     sat propagated (evaluate fw eval_model data_source)) /\
  (forall d_model dropout max_len,
     sat propagated (PositionalEncoding_init fw d_model dropout max_len)) /\
  (forall (self : PositionalEncoding fw) x,
     sat propagated (PositionalEncoding_forward self x)) /\
  (forall ntoken ninp nhead nhid nlayers dropout,
     sat propagated (TransformerModel_init fw ntoken ninp nhead nhid nlayers dropout)) /\
  (forall self sz, sat propagated (_generate_square_subsequent_mask fw self sz)) /\
  (forall self, sat propagated (TransformerModel_init_weights fw self)) /\
  (forall self src, sat propagated (TransformerModel_forward fw self src)).
Proof.
  split_and!; intros.
  - apply sat_batchify, _.
  - apply sat_get_batch, _.
  - apply sat_train; apply _.
  - apply sat_evaluate; apply _.
  - apply sat_PositionalEncoding_init, _.
  - apply sat_PositionalEncoding_forward, _.
  - apply sat_TransformerModel_init; apply _.
  - apply sat_generate_square_subsequent_mask, _.
  - apply sat_init_weights, _.
  - apply sat_forward; apply _.
Qed.

(** An error does come out: with a batch size of zero the floor division
    raises, and [batchify] raises the same error. *)
Example batchify_zero_division :
  let r := batchify Toy.fw Toy.corpus 0 Toy.blank in
  r.1 = Raise ZeroDivisionError /\
  trace r.2 = [Enter "batchify"; Raised "int.__floordiv__" ZeroDivisionError].
Proof. done. Qed.

(** A handler would break the property. *)
Example handler_does_not_propagate :
  ~ sat propagated
      (try_except (lift "f" (Raise ValueError) : M Toy.fw unit) (fun _ => mret tt)).
Proof.
  intros H. destruct (H Toy.blank) as (tr & Htr & Hr).
  simpl in *. by subst tr.
Qed.

(* ===================================================================== *)
(** * What forward writes *)
(* ===================================================================== *)

Section forward_frame.
Context {fw : framework}.

(** A computation that keeps the store leaves every object as it is. *)
Lemma keeps_store_heap {A : Type} (m : M fw A) (w : World fw) (l : loc) :
  sat keeps_store m -> heap (m w).2 l = heap w l.
Proof. intros H. apply (H w). Qed.

(** With a cached mask of the size of the input, [forward] writes
    nothing. *)
Lemma forward_cached (self : loc) (src : tensor Z) (w : World fw)
    (cached : tensor float) (n : Z) :
  src_mask (heap w self) = Some cached ->
  torch.size cached 0 = Ok n ->
  torch.size src 0 = Ok n ->
  forall l, heap (TransformerModel_forward fw self src w).2 l = heap w l.
Proof.
  intros Hc Hn Hs l. unfold TransformerModel_forward, enter.
  rewrite bind_run. cbn [get_obj]. rewrite bind_run.
  change (heap (log (Enter "TransformerModel.forward") w) self) with (heap w self).
  rewrite Hc.
  rewrite (bind_lift_ok _ _ _ _ _ Hn), (bind_lift_ok _ _ _ _ _ Hs).
  rewrite Z.eqb_refl. cbn [negb mret M_ret].
  rewrite bind_run. cbn [mret M_ret].
  rewrite keeps_store_heap; [done|].
  pose proof (sat_PositionalEncoding_forward (@keeps_store fw)).
  sat_steps.
Qed.

(** Without a cached mask of the size of the input, [forward] assigns
    the mask of that size. *)
Lemma forward_stale (self : loc) (src : tensor Z) (w : World fw) (n : Z) :
  src_mask (heap w self) = None \/
    (exists cached k, src_mask (heap w self) = Some cached /\
                      torch.size cached 0 = Ok k /\ k <> n) ->
  torch.size src 0 = Ok n ->
  0 <= n ->
  exists m : tensor float,
    src_mask (heap (TransformerModel_forward fw self src w).2 self) = Some m /\
    shape m = [n; n] /\
    forall i j, 0 <= i < n -> 0 <= j < n ->
      entry m i j = Some (if j <=? i then S754_zero false else S754_infinity true).
Proof.
  intros Hstale Hs Hn. unfold TransformerModel_forward, enter.
  set (w0 := log (Enter "TransformerModel.forward") w).
  destruct (generate_square_subsequent_mask_run fw self n w0 Hn)
    as (m & Hrun & Hsh & _ & Hent).
  exists m. split; [|done].
  rewrite bind_run. cbn [get_obj]. rewrite bind_run.
  change (heap w0 self) with (heap w self).
  assert (Hprefix :
    match src_mask (heap w self) with
    | Some cached =>
        a ← lift "Tensor.size" (torch.size cached 0);
        b ← lift "Tensor.size" (torch.size src 0);
        mret (negb (a =? b))
    | None => mret true
    end w0 = (Ok true, w0)).
  { destruct Hstale as [->|(cached & k & -> & Hk & Hne)]; [done|].
    rewrite (bind_lift_ok _ _ _ _ _ Hk), (bind_lift_ok _ _ _ _ _ Hs).
    by rewrite (proj2 (Z.eqb_neq k n)). }
  rewrite Hprefix. rewrite bind_run.
  rewrite (bind_lift_ok _ _ _ _ _ Hs). rewrite bind_run, Hrun.
  cbn [put_obj].
  rewrite keeps_store_heap.
  - cbn. by rewrite fn_lookup_alter.
  - pose proof (sat_PositionalEncoding_forward (@keeps_store fw)).
    sat_steps.
Qed.
End forward_frame.

(** The claim that [forward] leaves every field of the model as it is
    fails on the first call: the model of the small framework has no mask
    before it and one behind it. *)
Lemma forward_assigns_src_mask :
  ~ (forall (fw : framework) (self : loc) (src : tensor Z) (w : World fw),
       heap (TransformerModel_forward fw self src w).2 self = heap w self).
Proof.
  intros H.
  specialize (H Toy.fw 0%nat (Tensor [2; 2] [4; 15; 8; 16]) Toy.start).
  apply (f_equal src_mask) in H. vm_compute in H. discriminate.
Qed.

(** C1, amended.  [forward] writes at most the field [src_mask] of the
    model it is called on, also when it raises: the other fields, the
    other objects and the variables of the top level are as before.  It
    leaves [src_mask] as it is when the cached mask has the size of the
    input, and assigns the square subsequent mask of that size when there
    is no cached mask or one of another size. *)
Theorem forward_writes_only_src_mask (fw : framework) (self : loc) (src : tensor Z)
    (w : World fw) :
  let w' := (TransformerModel_forward fw self src w).2 in
  (forall l, l <> self -> heap w' l = heap w l) /\
  heap w' self = with_src_mask (src_mask (heap w' self)) (heap w self) /\
  globals w' = globals w /\
  (forall cached n,
     src_mask (heap w self) = Some cached ->
     torch.size cached 0 = Ok n ->
     torch.size src 0 = Ok n ->
     heap w' self = heap w self) /\
  (forall n,
     src_mask (heap w self) = None \/
       (exists cached k, src_mask (heap w self) = Some cached /\
                         torch.size cached 0 = Ok k /\ k <> n) ->
     torch.size src 0 = Ok n ->
     0 <= n ->
     exists m : tensor float,
       src_mask (heap w' self) = Some m /\
       shape m = [n; n] /\
       forall i j, 0 <= i < n -> 0 <= j < n ->
         entry m i j = Some (if j <=? i then S754_zero false else S754_infinity true)).
Proof.
  cbv zeta.
  destruct (sat_forward (writes_src_mask self) self src w) as (Hl & Hself & Hg & _).
  split_and!; try done.
  - intros cached n Hc Hn Hs. by apply (forward_cached self src w cached n).
  - intros n Hstale Hs Hn. by apply forward_stale.
Qed.

(** The first call on the model of the small framework, with an input of
    two rows: the mask of size two is assigned. *)
Lemma forward_writes_only_src_mask_witness :
  exists m : tensor float,
    src_mask (heap (TransformerModel_forward Toy.fw 0%nat
                      (Tensor [2; 2] [4; 15; 8; 16]) Toy.start).2 0%nat) = Some m /\
    shape m = [2; 2] /\
    forall i j, 0 <= i < 2 -> 0 <= j < 2 ->
      entry m i j = Some (if j <=? i then S754_zero false else S754_infinity true).
Proof.
  apply (forward_writes_only_src_mask Toy.fw 0%nat (Tensor [2; 2] [4; 15; 8; 16])
           Toy.start).
  - left. reflexivity.
  - reflexivity.
  - lia.
Defined.

(* ===================================================================== *)
(** * Which functions of the notebook call which *)
(* ===================================================================== *)

Section composition.
Context {fw : framework}.

Lemma bind_ok_inv {A B : Type} (m : M fw A) (k : A -> M fw B) (w : World fw)
    (b : B) (w' : World fw) :
  (m ≫= k) w = (Ok b, w') ->
  exists a w1, m w = (Ok a, w1) /\ k a w1 = (Ok b, w').
Proof.
  rewrite bind_run. destruct (m w) as [[a|e] w1]; [|done].
  intros H. by exists a, w1.
Qed.

Lemma trace_grows {A : Type} (m : M fw A) (w : World fw) :
  sat propagated m -> exists tr, trace (m w).2 = (trace w ++ tr)%list.
Proof. intros H. destruct (H w) as (tr & Htr & _). by exists tr. Qed.

Lemma enters_here {A : Type} (fn : string) (body : M fw A) :
  sat propagated body -> enters fn (enter fn body).
Proof.
  intros Hb w a w' Hrun. unfold enter in Hrun.
  destruct (trace_grows body (log (Enter fn) w) Hb) as [tr Htr].
  rewrite Hrun in Htr. simpl in Htr.
  exists [], tr. by rewrite Htr, <- app_assoc.
Qed.

Lemma enters_enter {A : Type} (fn fn' : string) (body : M fw A) :
  enters fn body -> enters fn (enter fn' body).
Proof.
  intros Hb w a w' Hrun. unfold enter in Hrun.
  destruct (Hb _ _ _ Hrun) as (tr1 & tr2 & Htr).
  exists (Enter fn' :: tr1), tr2. simpl in Htr. by rewrite Htr, <- app_assoc.
Qed.

Lemma enters_bind_l {A B : Type} (fn : string) (m : M fw A) (k : A -> M fw B) :
  enters fn m -> (forall a, sat propagated (k a)) -> enters fn (m ≫= k).
Proof.
  intros Hm Hk w b w' Hrun.
  destruct (bind_ok_inv _ _ _ _ _ Hrun) as (a & w1 & Hm1 & Hk1).
  destruct (Hm _ _ _ Hm1) as (tr1 & tr2 & Htr).
  destruct (trace_grows (k a) w1 (Hk a)) as [tr Htr'].
  rewrite Hk1 in Htr'. simpl in Htr'.
  exists tr1, (tr2 ++ tr)%list. rewrite Htr', Htr, <- !app_assoc. done.
Qed.

Lemma enters_bind_r {A B : Type} (fn : string) (m : M fw A) (k : A -> M fw B) :
  sat propagated m -> (forall a, enters fn (k a)) -> enters fn (m ≫= k).
Proof.
  intros Hm Hk w b w' Hrun.
  destruct (bind_ok_inv _ _ _ _ _ Hrun) as (a & w1 & Hm1 & Hk1).
  destruct (Hk a _ _ _ Hk1) as (tr1 & tr2 & Htr).
  destruct (trace_grows m w Hm) as [tr Htr'].
  rewrite Hm1 in Htr'. simpl in Htr'.
  exists (tr ++ tr1)%list, tr2. rewrite Htr, Htr', <- !app_assoc. done.
Qed.

Lemma forward_enters_PositionalEncoding (self : loc) (src : tensor Z) :
  enters "PositionalEncoding.forward" (TransformerModel_forward fw self src).
Proof.
  pose proof (sat_generate_square_subsequent_mask (@propagated fw)).
  pose proof (sat_PositionalEncoding_forward (@propagated fw)).
  unfold TransformerModel_forward. apply enters_enter.
  do 8 (apply enters_bind_r; [sat_steps|intros ?]).
  apply enters_bind_l; [|intros; sat_steps].
  unfold PositionalEncoding_forward. apply enters_here. sat_steps.
Qed.

Lemma init_enters_PositionalEncoding (ntoken ninp nhead nhid nlayers : Z)
    (dropout : float) :
  enters "PositionalEncoding.__init__"
    (TransformerModel_init fw ntoken ninp nhead nhid nlayers dropout).
Proof.
  pose proof (sat_init_weights (@propagated fw)).
  unfold TransformerModel_init. apply enters_enter.
  apply enters_bind_l; [|intros; sat_steps].
  unfold PositionalEncoding_init. apply enters_here. sat_steps.
Qed.

(** The object that [TransformerModel.__init__] returns holds in
    [pos_encoder] what [PositionalEncoding.__init__] returned to it. *)
Lemma init_contains_PositionalEncoding (ntoken ninp nhead nhid nlayers : Z)
    (dropout : float) (w : World fw) (self : loc) (w' : World fw) :
  TransformerModel_init fw ntoken ninp nhead nhid nlayers dropout w = (Ok self, w') ->
  exists (pos : PositionalEncoding fw) (w1 : World fw),
    PositionalEncoding_init fw ninp dropout 5000
      (log (Enter "TransformerModel.__init__") w) = (Ok pos, w1) /\
    pos_encoder (heap w' self) = pos.
Proof.
  unfold TransformerModel_init, enter. intros Hrun.
  apply bind_ok_inv in Hrun as (pos & w1 & Hpos & Hrun).
  exists pos, w1. split; [done|].
  apply bind_ok_inv in Hrun as (layers & w2 & _ & Hrun).
  apply bind_ok_inv in Hrun as (tenc & w3 & _ & Hrun).
  apply bind_ok_inv in Hrun as (emb & w4 & _ & Hrun).
  apply bind_ok_inv in Hrun as (dec & w5 & _ & Hrun).
  apply bind_ok_inv in Hrun as (self' & w6 & Hnew & Hrun).
  apply bind_ok_inv in Hrun as ([] & w7 & Hweights & Hrun).
  injection Hrun as <- <-. injection Hnew as <- <-.
  match type of Hweights with
  | ?m ?w0 = _ =>
      pose proof (keeps_store_heap m w0 (next_loc w5) (sat_init_weights _ _)) as Hkeep
  end.
  rewrite Hweights in Hkeep. cbn in Hkeep. rewrite Hkeep.
  by rewrite fn_lookup_insert.
Qed.
End composition.

(** The claim that no function of the notebook calls another one fails on
    the first call of [forward] in the small framework: the call enters
    the mask method and [PositionalEncoding.forward]. *)
Lemma forward_calls_PositionalEncoding :
  ~ (forall (fw : framework) (self : loc) (src : tensor Z) (w : World fw)
            (tr : list event),
       trace (TransformerModel_forward fw self src w).2 = (trace w ++ tr)%list ->
       ~ In (Enter "PositionalEncoding.forward") tr).
Proof.
  intros H.
  apply (H Toy.fw 0%nat (Tensor [2; 2] [4; 15; 8; 16]) Toy.start
           [Enter "TransformerModel.forward";
            Enter "TransformerModel._generate_square_subsequent_mask";
            Enter "PositionalEncoding.forward"]).
  - vm_compute. reflexivity.
  - simpl. tauto.
Qed.

(** C7, amended.  The functions of the notebook are composed of each
    other: a [TransformerModel] that its constructor returns holds in
    [pos_encoder] the [PositionalEncoding] that the constructor had
    [PositionalEncoding.__init__] build for it, and every call of
    [TransformerModel.forward] that returns has called
    [PositionalEncoding.forward]. *)
Theorem components_compose (fw : framework) :
  (forall ntoken ninp nhead nhid nlayers dropout (w : World fw) self w',
     TransformerModel_init fw ntoken ninp nhead nhid nlayers dropout w = (Ok self, w') ->
     (exists (pos : PositionalEncoding fw) (w1 : World fw),
        PositionalEncoding_init fw ninp dropout 5000
          (log (Enter "TransformerModel.__init__") w) = (Ok pos, w1) /\
        pos_encoder (heap w' self) = pos) /\
     exists tr1 tr2,
       trace w' = (trace w ++ tr1 ++ Enter "PositionalEncoding.__init__" :: tr2)%list) /\
  (forall self src (w : World fw) output w',
     TransformerModel_forward fw self src w = (Ok output, w') ->
     exists tr1 tr2,
       trace w' = (trace w ++ tr1 ++ Enter "PositionalEncoding.forward" :: tr2)%list).
Proof.
  split.
  - intros ntoken ninp nhead nhid nlayers dropout w self w' Hrun. split.
    + by apply (init_contains_PositionalEncoding ntoken ninp nhead nhid nlayers dropout).
    + by apply (init_enters_PositionalEncoding ntoken ninp nhead nhid nlayers dropout w self).
  - intros self src w output w' Hrun.
    by apply (forward_enters_PositionalEncoding self src w output).
Qed.

(** The construction of the model of the small framework and its first
    call. *)
Lemma components_compose_witness :
  ((exists (pos : PositionalEncoding Toy.fw) (w1 : World Toy.fw),
      PositionalEncoding_init Toy.fw 200 (float_literal 2 10) 5000
        (log (Enter "TransformerModel.__init__") Toy.blank) = (Ok pos, w1) /\
      pos_encoder (heap (TransformerModel_init Toy.fw 1 200 2 200 2
                           (float_literal 2 10) Toy.blank).2 0%nat) = pos) /\
   exists tr1 tr2,
     trace (TransformerModel_init Toy.fw 1 200 2 200 2 (float_literal 2 10) Toy.blank).2 =
       (trace Toy.blank ++ tr1 ++ Enter "PositionalEncoding.__init__" :: tr2)%list) /\
  exists tr1 tr2,
    trace (TransformerModel_forward Toy.fw 0%nat (Tensor [2; 2] [4; 15; 8; 16])
             Toy.start).2 =
      (trace Toy.start ++ tr1 ++ Enter "PositionalEncoding.forward" :: tr2)%list.
Proof.
  split.
  - apply (proj1 (components_compose Toy.fw) 1 200 2 200 2 (float_literal 2 10)
             Toy.blank 0%nat
             (TransformerModel_init Toy.fw 1 200 2 200 2 (float_literal 2 10)
                Toy.blank).2).
    apply run_ok_eq. vm_compute. reflexivity.
  - apply (proj2 (components_compose Toy.fw) 0%nat (Tensor [2; 2] [4; 15; 8; 16])
             Toy.start 0
             (TransformerModel_forward Toy.fw 0%nat (Tensor [2; 2] [4; 15; 8; 16])
                Toy.start).2).
    apply run_ok_eq. vm_compute. reflexivity.
Defined.

(* ===================================================================== *)
(** * The loop over the epochs *)
(* ===================================================================== *)

Section epoch_loop_proofs.
Context {fw : framework}.

Lemma sat_put_epoch (ep : Z) : sat (@tracks_model fw) (put_global (with_epoch ep)).
Proof. intros w. by split; [|left]. Qed.

Lemma sat_keep_best (val_loss : float) :
  sat (@tracks_model fw)
    (mdl ← get_global model; put_global (with_best val_loss (Some mdl))).
Proof. intros w. by split; [|right]. Qed.

Lemma sat_epoch_body_tracks (ep : Z) : sat (@tracks_model fw) (epoch_body fw ep).
Proof.
  unfold epoch_body.
  pose proof (@sat_train fw tracks_model _ _ _).
  pose proof (@sat_evaluate fw tracks_model _ _ _).
  repeat first [apply sat_put_epoch | apply sat_keep_best | sat_rule; sat_side].
Qed.

(** X17.  [best_model] never holds a copy: behind the loop it is
    [None] or the very object that [model] names, which training has
    written to since, also when the loop raises. *)
Lemma best_model_is_model (w : World fw) :
  let w' := (epoch_loop fw w).2 in
  model (globals w') = model (globals w) /\
  (best_model (globals w') = None \/
   best_model (globals w') = Some (model (globals w'))).
Proof.
  cbv zeta. unfold epoch_loop. rewrite bind_run. cbn [put_global].
  match goal with
  | |- context [for_each ?xs ?acc ?body ?w1] =>
      assert (Hloop : sat tracks_model (for_each xs acc body));
      [|destruct (Hloop w1) as [Hm Hb]]
  end.
  - apply sat_for_each; [apply _|]. intros _ ep. apply sat_epoch_body_tracks.
  - cbn in Hm, Hb. split; [done|]. destruct Hb as [Hb|Hb]; [by left|by right].
Qed.
(** ** The best validation loss *)

Lemma run_keeps_globals {A : Type} (m : M fw A) (w : World fw) (r : result A)
    (w' : World fw) :
  sat keeps_globals m -> m w = (r, w') -> globals w' = globals w.
Proof. intros H Hrun. specialize (H w). by rewrite Hrun in H. Qed.

(** An epoch that returns has got a validation loss [v], the one that
    [epoch_val_loss] gives for the world the epoch started in; it keeps the
    lower of [v] and the best loss so far, and [best_model] becomes the
    object [model] when [v] is the lower one. *)
Lemma epoch_body_val_loss (ep : Z) (w w' : World fw) :
  epoch_body fw ep w = (Ok tt, w') ->
  exists v : float,
    (epoch_val_loss fw ep w).1 = Ok v /\
    best_val_loss (globals w') = keep_lower (best_val_loss (globals w)) v /\
    best_model (globals w') =
      (if F64.ltb v (best_val_loss (globals w)) then Some (model (globals w))
       else best_model (globals w)) /\
    model (globals w') = model (globals w).
Proof.
  unfold epoch_body. intros Hrun.
  apply bind_ok_inv in Hrun as ([] & w1 & H1 & Hrun). injection H1 as <-.
  apply bind_ok_inv in Hrun as (t0 & w2 & H2 & Hrun).
  pose proof H2 as G2. apply run_keeps_globals in G2; [|sat_steps].
  apply bind_ok_inv in Hrun as ([] & w3 & H3 & Hrun).
  pose proof H3 as G3. apply run_keeps_globals in G3; [|apply sat_train; apply _].
  apply bind_ok_inv in Hrun as (mdl & w4 & H4 & Hrun). injection H4 as <- <-.
  apply bind_ok_inv in Hrun as (vd & w5 & H5 & Hrun). injection H5 as <- <-.
  apply bind_ok_inv in Hrun as (v & w6 & Heval & Hrun).
  pose proof (run_keeps_globals _ _ _ _ (sat_evaluate keeps_globals _ _) Heval) as H6.
  apply bind_ok_inv in Hrun as ([] & w7 & H7 & Hrun).
  apply run_keeps_globals in H7; [|sat_steps].
  apply bind_ok_inv in Hrun as (ep' & w8 & H8 & Hrun). injection H8 as <- <-.
  apply bind_ok_inv in Hrun as (now & w9 & H9 & Hrun).
  apply run_keeps_globals in H9; [|sat_steps].
  apply bind_ok_inv in Hrun as (ppl & w10 & H10 & Hrun).
  apply run_keeps_globals in H10; [|sat_steps].
  apply bind_ok_inv in Hrun as ([] & w11 & H11 & Hrun).
  apply run_keeps_globals in H11; [|sat_steps].
  apply bind_ok_inv in Hrun as ([] & w12 & H12 & Hrun).
  apply run_keeps_globals in H12; [|sat_steps].
  apply bind_ok_inv in Hrun as (best & w13 & H13 & Hrun). injection H13 as <- <-.
  apply bind_ok_inv in Hrun as ([] & w14 & Hbest & Hrun).
  apply bind_ok_inv in Hrun as (sch & w15 & H15 & Hrun). injection H15 as <- <-.
  apply run_keeps_globals in Hrun; [|sat_steps].
  assert (Hg3 : globals w3 = with_epoch ep (globals w)) by (by rewrite G3, G2).
  assert (Hg12 : globals w12 = with_epoch ep (globals w)) by congruence.
  exists v. split.
  { unfold epoch_val_loss. rewrite bind_run. cbn [put_global].
    rewrite bind_run, H2, bind_run, H3.
    rewrite bind_run. cbn [get_global]. rewrite bind_run. cbn [get_global].
    by rewrite Heval. }
  rewrite Hrun. unfold keep_lower. rewrite Hg12 in Hbest. cbn in Hbest.
  destruct (F64.ltb v (best_val_loss (globals w))) eqn:Hlt.
  - injection Hbest as <-. by rewrite Hg12.
  - injection Hbest as <-. by rewrite Hg12.
Qed.

Lemma ltb_cases (b0 : float) (losses : list float) :
  Forall (fun v => F64.ltb v b0 = false) losses \/
  Exists (fun v => F64.ltb v b0 = true) losses.
Proof.
  induction losses as [|v losses [IH|IH]].
  - left. constructor.
  - destruct (F64.ltb v b0) eqn:Hv.
    + right. by left.
    + left. by constructor.
  - right. by right.
Qed.

(** A loop over epochs that returns: every epoch of the run has got
    its validation loss, [best_val_loss] is these losses folded into the
    best loss at the start, and [best_model] is as before when none of
    them was below that best loss, and the object [model] otherwise. *)
Lemma epochs_val_losses (eps : list Z) (w w' : World fw) :
  for_each eps tt (fun _ ep => epoch_body fw ep) w = (Ok tt, w') ->
  exists vs : list float,
    run_val_losses fw eps w = Ok <$> vs /\
    best_val_loss (globals w') = foldl keep_lower (best_val_loss (globals w)) vs /\
    model (globals w') = model (globals w) /\
    (Forall (fun v => F64.ltb v (best_val_loss (globals w)) = false) vs ->
     best_model (globals w') = best_model (globals w)) /\
    (Exists (fun v => F64.ltb v (best_val_loss (globals w)) = true) vs ->
     best_model (globals w') = Some (model (globals w))).
Proof.
  revert w. induction eps as [|ep eps IH]; intros w Hrun.
  - injection Hrun as <-. exists []. split_and!; try done.
    intros Hex. inversion Hex.
  - cbn [for_each] in Hrun.
    apply bind_ok_inv in Hrun as ([] & w1 & Hbody & Hrun).
    pose proof (epoch_body_val_loss _ _ _ Hbody) as (v & Hv & Hbest & Hbm & Hm).
    apply IH in Hrun as (vs & Hvs & Hfold & Hm' & Hkeep & Hset).
    exists (v :: vs). split_and!.
    + cbn [run_val_losses]. rewrite Hv, Hbody. cbn [snd]. by rewrite Hvs.
    + simpl. by rewrite Hfold, Hbest.
    + congruence.
    + intros Hf. inversion Hf as [|? ? Hv0 Hrest]; subst.
      rewrite Hv0 in Hbm. rewrite Hkeep, Hbm; [done|].
      rewrite Hbest. unfold keep_lower. by rewrite Hv0.
    + intros Hex. rewrite Hm in Hset.
      destruct (F64.ltb v (best_val_loss (globals w))) eqn:Hv0.
      * destruct (ltb_cases (best_val_loss (globals w1)) vs) as [Hno|Hyes].
        -- by rewrite Hkeep, Hbm.
        -- by apply Hset.
      * apply Hset. rewrite Hbest. unfold keep_lower. rewrite Hv0.
        inversion Hex as [? ? Hex'|? ? Hex']; subst; [congruence|done].
Qed.

Lemma run_val_losses_length (eps : list Z) (w : World fw) :
  length (run_val_losses fw eps w) = length eps.
Proof.
  revert w. induction eps as [|ep eps IH]; intros w; [done|].
  simpl. by rewrite IH.
Qed.

(** The loop of the notebook, when it returns: the three epochs of
    the run have got their validation losses. *)
Lemma epoch_loop_val_losses_ok (w w' : World fw) :
  epoch_loop fw w = (Ok tt, w') ->
  exists vs : list float,
    epoch_loop_val_losses fw w = Ok <$> vs /\
    length vs = 3%nat /\
    best_val_loss (globals w') = foldl keep_lower F64.inf vs /\
    (Forall (fun v => F64.ltb v F64.inf = false) vs ->
     best_model (globals w') = None) /\
    (Exists (fun v => F64.ltb v F64.inf = true) vs ->
     best_model (globals w') = Some (model (globals w))).
Proof.
  unfold epoch_loop, epoch_loop_val_losses. intros Hrun.
  apply bind_ok_inv in Hrun as ([] & w1 & H1 & Hrun).
  rewrite H1. cbn [snd]. injection H1 as <-.
  apply epochs_val_losses in Hrun as (vs & Hvs & Hfold & _ & Hkeep & Hset).
  exists vs. split_and!; try done.
  pose proof (run_val_losses_length (py_range 1 (epochs + 1) 1)
                (put_global (with_best F64.inf None) w).2) as Hlen.
  cbn [put_global snd] in Hlen. rewrite Hvs, length_fmap in Hlen. exact Hlen.
Qed.
End epoch_loop_proofs.

(** ** The fold keeps the minimum *)

Ltac compare_cases :=
  repeat match goal with
  | H : context [match ?c with Eq => _ | Lt => _ | Gt => _ end] |- _ =>
      lazymatch c with
      | Z.compare ?a ?b => destruct (Z.compare_spec a b)
      | Pos.compare ?a ?b => destruct (Pos.compare_spec a b)
      | CompOpp (Pos.compare ?a ?b) => destruct (Pos.compare_spec a b); simpl in H
      end
  | |- context [match ?c with Eq => _ | Lt => _ | Gt => _ end] =>
      lazymatch c with
      | Z.compare ?a ?b => destruct (Z.compare_spec a b)
      | Pos.compare ?a ?b => destruct (Pos.compare_spec a b)
      | CompOpp (Pos.compare ?a ?b) => destruct (Pos.compare_spec a b); simpl
      end
  end.

Lemma ltb_irrefl (x : float) : F64.ltb x x = false.
Proof.
  unfold F64.ltb, SFltb, SFcompare. destruct x as [s|s| |s m e]; try destruct s; try done.
  all: rewrite Z.compare_refl; change (PosDef.Pos.compare_cont Eq m m) with (Pos.compare m m);
    by rewrite Pos.compare_refl.
Qed.

Lemma ltb_trans (x y z : float) :
  F64.ltb x y = true -> F64.ltb y z = true -> F64.ltb x z = true.
Proof.
  unfold F64.ltb, SFltb, SFcompare.
  destruct x as [sx|sx| |sx mx ex], y as [sy|sy| |sy my ey], z as [sz|sz| |sz mz ez];
    try destruct sx; try destruct sy; try destruct sz; try done.
  all: change PosDef.Pos.compare_cont with Pos.compare_cont;
       change (Pos.compare_cont Eq) with Pos.compare.
  all: intros H1 H2; compare_cases; subst; try done; try lia.
Qed.

(** The fold is the start value or a loss below it. *)
Lemma keep_lower_fold_member (b0 : float) (losses : list float) :
  foldl keep_lower b0 losses = b0 \/
  (foldl keep_lower b0 losses ∈ losses /\
   F64.ltb (foldl keep_lower b0 losses) b0 = true).
Proof.
  revert b0. induction losses as [|v losses IH]; intros b0; [by left|].
  simpl. change (keep_lower b0 v) with (if F64.ltb v b0 then v else b0).
  destruct (F64.ltb v b0) eqn:Hv.
  - right. destruct (IH v) as [->|[Hin Hlt]].
    + split; [by left|done].
    + split; [by right|]. by apply (ltb_trans _ v).
  - destruct (IH b0) as [->|[Hin Hlt]]; [by left|].
    right. split; [by right|done].
Qed.

(** No loss is below the fold. *)
Lemma keep_lower_fold_bound (b0 : float) (losses : list float) (v : float) :
  v ∈ losses -> F64.ltb v (foldl keep_lower b0 losses) = false.
Proof.
  revert b0. induction losses as [|u losses IH]; intros b0 Hin.
  - by apply elem_of_nil in Hin.
  - apply elem_of_cons in Hin as [->|Hin]; [|by apply IH].
    simpl. change (keep_lower b0 u) with (if F64.ltb u b0 then u else b0).
    destruct (F64.ltb u (foldl keep_lower (if F64.ltb u b0 then u else b0) losses))
      eqn:Hlt; [|done].
    exfalso. destruct (F64.ltb u b0) eqn:Hu.
    + destruct (keep_lower_fold_member u losses) as [Heq|[_ Hlow]].
      * rewrite Heq, ltb_irrefl in Hlt. done.
      * pose proof (ltb_trans _ _ _ Hlt Hlow) as Hbad.
        rewrite ltb_irrefl in Hbad. done.
    + destruct (keep_lower_fold_member b0 losses) as [Heq|[_ Hlow]].
      * rewrite Heq in Hlt. congruence.
      * pose proof (ltb_trans _ _ _ Hlt Hlow). congruence.
Qed.

(** X16.  Behind a loop that returns, [best_val_loss] is the minimum of
    the validation losses of the run: the three epochs of the run, each
    in the world that the epoch before it left behind, got the losses
    [vs] from [evaluate(model, val_data)]; none of these is below
    [best_val_loss], and it is one of them, or infinity when none was
    below infinity. *)
Lemma best_val_loss_is_minimum (fw : framework) (w w' : World fw) :
  epoch_loop fw w = (Ok tt, w') ->
  exists vs : list float,
    epoch_loop_val_losses fw w = Ok <$> vs /\
    length vs = 3%nat /\
    (forall v, v ∈ vs -> F64.ltb v (best_val_loss (globals w')) = false) /\
    (best_val_loss (globals w') = F64.inf \/ best_val_loss (globals w') ∈ vs).
Proof.
  intros Hrun.
  apply epoch_loop_val_losses_ok in Hrun as (vs & Hvs & Hlen & Hfold & _).
  exists vs. rewrite Hfold. split_and!; try done.
  - intros v. apply keep_lower_fold_bound.
  - destruct (keep_lower_fold_member F64.inf vs) as [->|[Hin _]]; [by left|by right].
Qed.

(** The run of the loop on the small framework: the losses of its three
    epochs are 5, 7 and 6. *)
Lemma best_val_loss_is_minimum_witness :
  let w' := (epoch_loop Toy.fw Toy.start).2 in
  epoch_loop_val_losses Toy.fw Toy.start =
    [Ok (F64.of_Z 5); Ok (F64.of_Z 7); Ok (F64.of_Z 6)] /\
  exists vs : list float,
    epoch_loop_val_losses Toy.fw Toy.start = Ok <$> vs /\
    length vs = 3%nat /\
    (forall v, v ∈ vs -> F64.ltb v (best_val_loss (globals w')) = false) /\
    (best_val_loss (globals w') = F64.inf \/ best_val_loss (globals w') ∈ vs).
Proof.
  split; [vm_compute; reflexivity|].
  apply (best_val_loss_is_minimum Toy.fw Toy.start).
  apply run_ok_eq. vm_compute. reflexivity.
Defined.

(** C2 at a run in which the validation loss goes up after the first
    epoch.  The loop returns, the validation losses of the three epochs
    were 5, 7 and 6, and [best_val_loss] is their minimum 5; [best_model]
    is the object [model], and evaluating it on the validation data gives
    6, the loss of the last epoch, not [best_val_loss]. *)
Theorem best_model_is_the_last_model :
  let r := epoch_loop Toy.fw Toy.start in
  let g := globals r.2 in
  r.1 = Ok tt /\
  Toy.printed_val_losses (lib r.2) = [F64.of_Z 5; F64.of_Z 7; F64.of_Z 6] /\
  best_val_loss g = F64.of_Z 5 /\
  best_model g = Some (model g) /\
  (evaluate Toy.fw (model g) (val_data g) r.2).1 = Ok (F64.of_Z 6) /\
  F64.ltb (best_val_loss g) (F64.of_Z 6) = true.
Proof. vm_compute. repeat split. Qed.

(* ===================================================================== *)
(** * The gradient of the autograd notebook *)
(* ===================================================================== *)

Lemma four_and_a_half_eq : four_and_a_half = F32.div (F32.of_Z 9) (F32.of_Z 2).
Proof. reflexivity. Qed.

Lemma cells_gradient (rng : nat -> float) :
  autograd.cells rng =
    Ok (Some (Tensor [2; 2]
                [four_and_a_half; four_and_a_half; four_and_a_half; four_and_a_half])).
Proof. vm_compute. reflexivity. Qed.

(** The claim that two runs of the cells may print different gradients
    fails: there are no two such runs, whatever the random generator
    draws. *)
Lemma gradient_does_not_vary :
  ~ (exists rng1 rng2 : nat -> float, autograd.cells rng1 <> autograd.cells rng2).
Proof.
  intros (rng1 & rng2 & H). apply H. by rewrite !cells_gradient.
Qed.

(** C3, amended.  The gradient that the autograd cells print is fixed by
    the code: in every run, whatever [torch.randn] draws in the cell
    between, [x.grad] is the 2-by-2 tensor of 4.5, so that any two runs
    print the same gradient. *)
Theorem gradient_is_determined (rng1 rng2 : nat -> float) :
  autograd.cells rng1 =
    Ok (Some (Tensor [2; 2]
                [four_and_a_half; four_and_a_half; four_and_a_half; four_and_a_half])) /\
  autograd.cells rng1 = autograd.cells rng2.
Proof. by rewrite !cells_gradient. Qed.

(* ===================================================================== *)
(** * The batches that train and evaluate read *)
(* ===================================================================== *)

(** [get_batch] reads its source with [view(-1)], which torch grants
    to a tensor laid out in row-major order; the sources of the notebook
    are the tensors that [batchify] returns, which [contiguous()] has laid
    out that way, and the statements about the rows of a batch are about
    them. *)

Section get_batch_proofs.
Context (fw : framework).

(** [source[a:b]] for a matrix and bounds within its rows. *)
Lemma slice0_rows (N c : Z) (d : list Z) (start stop a b : Z) :
  torch.clamp_index N start = a ->
  Z.max a (torch.clamp_index N stop) = b ->
  torch.slice0 (Tensor [N; c] d) start stop =
    Ok (Tensor [b - a; c]
          (take (Z.to_nat ((b - a) * c)) (drop (Z.to_nat (a * c)) d))).
Proof.
  intros <- <-. unfold torch.slice0. simpl. by rewrite !Z.mul_1_r.
Qed.

Lemma view_flat (s c : Z) (d : list Z) :
  0 <= s -> 0 <= c ->
  torch.view (Tensor [s; c] d) [-1] = Ok (Tensor [s * c] d).
Proof.
  intros Hs Hc. unfold torch.view, torch.infer_size. simpl.
  by rewrite Z.mul_1_r, Z.mod_1_r, Z.div_1_r, orb_true_r.
Qed.

(** What [get_batch] returns for a matrix of [N] rows and a start
    [i >= 0]: the [seq_len] rows from [i] on, and the rows from [i + 1]
    on in one dimension; [seq_len] is zero from [i = N - 1] on. *)
Lemma get_batch_run (N c : Z) (d : list Z) (i : Z) (w : World fw) :
  0 <= N -> 0 <= c -> 0 <= i ->
  let seq_len := Z.max 0 (Z.min bptt (N - 1 - i)) in
  get_batch fw (Tensor [N; c] d) i w =
    (Ok (Tensor [seq_len; c]
           (take (Z.to_nat (seq_len * c)) (drop (Z.to_nat (i * c)) d)),
         Tensor [seq_len * c]
           (take (Z.to_nat (seq_len * c)) (drop (Z.to_nat ((i + 1) * c)) d))),
     log (Enter "get_batch") w).
Proof.
  intros HN Hc Hi. cbv zeta. unfold get_batch, enter, bptt.
  rewrite (bind_lift_ok _ _ N) by done.
  destruct (decide (i < N - 1)) as [Hin|Hout].
  - set (s := Z.min 35 (N - 1 - i)).
    assert (Hs : 1 <= s /\ i + s <= N - 1) by lia.
    replace (Z.max 0 s) with s by lia.
    rewrite (bind_lift_ok _ _ _ _ _ (slice0_rows N c d i (i + s) i (i + s)
               ltac:(unfold torch.clamp_index; destruct (_ <? 0) eqn:?; lia)
               ltac:(unfold torch.clamp_index; destruct (_ <? 0) eqn:?; lia))).
    rewrite (bind_lift_ok _ _ _ _ _ (slice0_rows N c d (i + 1) (i + 1 + s) (i + 1) (i + 1 + s)
               ltac:(unfold torch.clamp_index; destruct (_ <? 0) eqn:?; lia)
               ltac:(unfold torch.clamp_index; destruct (_ <? 0) eqn:?; lia))).
    replace (i + s - i) with s by lia.
    replace (i + 1 + s - (i + 1)) with s by lia.
    rewrite (bind_lift_ok _ _ _ _ _ (view_flat s c _ ltac:(lia) Hc)).
    done.
  - replace (Z.max 0 (Z.min 35 (N - 1 - i))) with 0 by lia.
    replace (Z.min 35 (N - 1 - i)) with (N - 1 - i) by lia.
    set (a := Z.min N i).
    rewrite (bind_lift_ok _ _ _ _ _ (slice0_rows N c d i (i + (N - 1 - i)) a a
               ltac:(unfold torch.clamp_index; destruct (_ <? 0) eqn:?; lia)
               ltac:(unfold torch.clamp_index; destruct (_ <? 0) eqn:?; lia))).
    rewrite (bind_lift_ok _ _ _ _ _ (slice0_rows N c d (i + 1) (i + 1 + (N - 1 - i)) N N
               ltac:(unfold torch.clamp_index; destruct (_ <? 0) eqn:?; lia)
               ltac:(unfold torch.clamp_index; destruct (_ <? 0) eqn:?; lia))).
    rewrite !Z.sub_diag.
    rewrite (bind_lift_ok _ _ _ _ _ (view_flat 0 c _ ltac:(lia) Hc)).
    done.
Qed.

(** X1.  For a source that [batchify] has returned, of [N = n // bsz]
    rows and [bsz] columns, and a start [i] with [0 <= i < N - 1],
    [get_batch] returns [seq_len = min(bptt, N - 1 - i)] rows of input and
    [seq_len * bsz] targets, and the target at position [k * bsz + j] is
    the entry of the source one row below the input entry [(k, j)]: the
    token that follows it in its column. *)
Theorem get_batch_targets_follow (ds : Dataset (token fw)) (ex : Example (token fw))
    (rest : list (Example (token fw))) (bsz i : Z) (w0 w : World fw) :
  examples ds = ex :: rest ->
  1 <= bsz ->
  let N := Z.of_nat (length (text ex)) / bsz in
  0 <= i < N - 1 ->
  let seq_len := Z.min bptt (N - 1 - i) in
  exists source inp target : tensor Z,
    batchify fw ds bsz w0 = (Ok source, log (Enter "batchify") w0) /\
    shape source = [N; bsz] /\
    get_batch fw source i w = (Ok (inp, target), log (Enter "get_batch") w) /\
    shape inp = [seq_len; bsz] /\
    shape target = [seq_len * bsz] /\
    Z.of_nat (length (data target)) = seq_len * bsz /\
    forall k j, 0 <= k < seq_len -> 0 <= j < bsz ->
      exists tok next : Z,
        entry source (i + k) j = Some tok /\
        entry source (i + k + 1) j = Some next /\
        entry inp k j = Some tok /\
        data target !! Z.to_nat (k * bsz + j) = Some next.
Proof.
  intros Hex Hbsz. cbv zeta.
  remember (Z.of_nat (length (text ex))) as n eqn:Hn.
  intros Hi.
  assert (Hq : 0 <= n / bsz) by (apply Z.div_pos; lia).
  assert (Hle : n / bsz * bsz <= n)
    by (rewrite Z.mul_comm; apply Z.mul_div_le; lia).
  set (d0 := take (Z.to_nat (n / bsz * bsz)) (stoi fw <$> text ex)).
  assert (Hlen0 : Z.of_nat (length d0) = bsz * (n / bsz)).
  { unfold d0. rewrite length_take_le; [lia|]. rewrite length_fmap. lia. }
  set (d := torch.transpose_data bsz (n / bsz) d0).
  assert (Hlen : Z.of_nat (length d) = bsz * (n / bsz))
    by (apply transpose_data_length; lia).
  pose proof (get_batch_run (n / bsz) bsz d i w ltac:(lia) ltac:(lia) ltac:(lia))
    as Hbatch.
  cbv zeta in Hbatch. unfold bptt in Hbatch |- *.
  set (s := Z.min 35 (n / bsz - 1 - i)) in *.
  assert (Hs : 1 <= s /\ i + s <= n / bsz - 1) by lia.
  replace (Z.max 0 s) with s in Hbatch by lia.
  eexists _, _, _. split.
  { rewrite (batchify_unfold fw ds ex rest) by (done || lia). by rewrite <- Hn. }
  split; [done|]. split; [exact Hbatch|].
  cbn [shape data]. split; [done|]. split; [done|]. split.
  { rewrite length_take_le; [lia|]. rewrite length_drop. nia. }
  intros k j Hk Hj.
  destruct (lookup_lt_is_Some_2 d (Z.to_nat ((i + k) * bsz + j))) as [tok Htok]; [nia|].
  destruct (lookup_lt_is_Some_2 d (Z.to_nat ((i + k + 1) * bsz + j)))
    as [next Hnext]; [nia|].
  exists tok, next. unfold entry. cbn [shape data].
  rewrite !bool_decide_eq_true_2 by lia.
  split; [done|]. split; [done|].
  rewrite !lookup_take_lt, !lookup_drop by nia.
  split.
  - rewrite <- Htok. f_equal. nia.
  - rewrite <- Hnext. f_equal. nia.
Qed.

(** X2.  From the last row on there is nothing to predict:
    for [i >= N - 1], [get_batch] raises nothing and returns an input of
    no rows and no targets. *)
Theorem get_batch_past_end (N c : Z) (d : list Z) (i : Z) (w : World fw) :
  0 <= N -> 0 <= c -> 0 <= i -> N - 1 <= i ->
  get_batch fw (Tensor [N; c] d) i w =
    (Ok (Tensor [0; c] [], Tensor [0] []), log (Enter "get_batch") w).
Proof.
  intros HN Hc Hi Hout. rewrite get_batch_run by lia. unfold bptt.
  by replace (Z.max 0 (Z.min 35 (N - 1 - i))) with 0 by lia.
Qed.

(** The rows of the chunks of [bptt] rows, one chunk behind the other,
    are the rows before row [M]. *)
Lemma concat_chunks (l : list Z) (M c : Z) (q : nat) :
  0 <= M -> 0 <= c ->
  concat ((fun k : nat =>
             take (Z.to_nat (Z.max 0 (Z.min bptt (M - (0 + Z.of_nat k * bptt))) * c))
               (drop (Z.to_nat ((0 + Z.of_nat k * bptt) * c)) l)) <$> seq 0 q) =
    take (Z.to_nat (Z.min (Z.of_nat q * bptt) M * c)) l.
Proof.
  intros HM Hc. unfold bptt. induction q as [|q IH].
  { by replace (Z.min (Z.of_nat 0 * 35) M) with 0 by lia. }
  rewrite seq_S, fmap_app, concat_app, IH.
  cbn [fmap list_fmap concat Nat.add]. rewrite app_nil_r, Z.add_0_l.
  destruct (decide (Z.of_nat q * 35 < M)) as [Hlt|Hge].
  - replace (Z.min (Z.of_nat q * 35) M) with (Z.of_nat q * 35) by lia.
    rewrite take_take_drop. f_equal. nia.
  - replace (Z.max 0 (Z.min 35 (M - Z.of_nat q * 35))) with 0 by lia.
    simpl. rewrite app_nil_r. f_equal. nia.
Qed.

Lemma sum_chunks (M : Z) (q : nat) :
  0 <= M ->
  foldr Z.add 0
    ((fun k : nat => Z.max 0 (Z.min bptt (M - (0 + Z.of_nat k * bptt)))) <$> seq 0 q) =
    Z.min (Z.of_nat q * bptt) M.
Proof.
  intros HM. unfold bptt. induction q as [|q IH]; [simpl; lia|].
  rewrite seq_S, fmap_app, foldr_app. simpl.
  rewrite Z.add_0_r.
  assert (Hshift : forall (xs : list Z) a, foldr Z.add a xs = a + foldr Z.add 0 xs).
  { induction xs as [|x xs IHxs]; intros a; simpl; [lia|]. rewrite IHxs. lia. }
  rewrite Hshift, IH. lia.
Qed.

(** X3.  The batches that [train] and [evaluate] ask for, at the starts
    [range(0, N - 1, bptt)], cut a source that [batchify] has returned
    into consecutive pieces: one behind the other, their inputs are the
    rows [0] to [N - 2] of the source and their targets the rows [1] to
    [N - 1], each once, and their lengths add up to [N - 1], the number
    that [evaluate] divides by. *)
Theorem batches_cover_source (ds : Dataset (token fw)) (ex : Example (token fw))
    (rest : list (Example (token fw))) (bsz : Z) (w0 : World fw) :
  examples ds = ex :: rest ->
  1 <= bsz <= Z.of_nat (length (text ex)) ->
  let N := Z.of_nat (length (text ex)) / bsz in
  exists (source : tensor Z) (batches : list (tensor Z * tensor Z)),
    batchify fw ds bsz w0 = (Ok source, log (Enter "batchify") w0) /\
    shape source = [N; bsz] /\
    Forall2 (fun i b => forall w : World fw,
               get_batch fw source i w = (Ok b, log (Enter "get_batch") w))
      (py_range 0 (N - 1) bptt) batches /\
    concat ((fun b => data b.1) <$> batches) =
      take (Z.to_nat ((N - 1) * bsz)) (data source) /\
    concat ((fun b => data b.2) <$> batches) =
      take (Z.to_nat ((N - 1) * bsz)) (drop (Z.to_nat bsz) (data source)) /\
    foldr Z.add 0 ((fun b => default 0 (head (shape b.1))) <$> batches) = N - 1.
Proof.
  intros Hex Hbsz. cbv zeta.
  remember (Z.of_nat (length (text ex))) as n eqn:Hn.
  assert (HN : 1 <= n / bsz).
  { apply Z.div_le_lower_bound; lia. }
  set (N := n / bsz) in *.
  set (d := torch.transpose_data bsz N
              (take (Z.to_nat (N * bsz)) (stoi fw <$> text ex))).
  set (batch_at := fun i : Z =>
    let seq_len := Z.max 0 (Z.min bptt (N - 1 - i)) in
    (Tensor [seq_len; bsz]
       (take (Z.to_nat (seq_len * bsz)) (drop (Z.to_nat (i * bsz)) d)),
     Tensor [seq_len * bsz]
       (take (Z.to_nat (seq_len * bsz)) (drop (Z.to_nat ((i + 1) * bsz)) d)))).
  exists (Tensor [N; bsz] d), (batch_at <$> py_range 0 (N - 1) bptt).
  assert (Hq : Z.min (Z.of_nat (Z.to_nat ((N - 1 - 0 + bptt - 1) / bptt)) * bptt) (N - 1)
               = N - 1).
  { unfold bptt.
    pose proof (Z.div_mod (N - 1 - 0 + 35 - 1) 35 ltac:(lia)).
    pose proof (Z.mod_pos_bound (N - 1 - 0 + 35 - 1) 35 ltac:(lia)).
    assert (0 <= (N - 1 - 0 + 35 - 1) / 35) by (apply Z.div_pos; lia).
    lia. }
  split_and!.
  - rewrite (batchify_unfold fw ds ex rest) by (done || lia). by rewrite <- Hn.
  - done.
  - apply Forall2_fmap_r, Forall_Forall2_diag, Forall_forall.
    intros i Hin w. unfold py_range in Hin.
    apply list_elem_of_In, list_elem_of_fmap in Hin as (k & -> & _).
    apply get_batch_run; unfold bptt; lia.
  - unfold py_range. rewrite <- !list_fmap_compose.
    etrans; [|etrans; [apply (concat_chunks d (N - 1) bsz); lia|by rewrite Hq]].
    f_equal.
  - unfold py_range. rewrite <- !list_fmap_compose.
    etrans; [|etrans; [apply (concat_chunks (drop (Z.to_nat bsz) d) (N - 1) bsz); lia
                      |by rewrite Hq]].
    f_equal. apply list_fmap_ext. intros _ k _. simpl.
    rewrite drop_drop. do 2 f_equal. unfold bptt. nia.
  - unfold py_range. rewrite <- !list_fmap_compose.
    etrans; [|etrans; [apply (sum_chunks (N - 1)); lia|by rewrite Hq]].
    f_equal.
Qed.
End get_batch_proofs.

(** The five tokens of the small corpus in one column of five rows, read
    from the first row on: four rows of input, and the targets are the
    rows below them. *)
Lemma get_batch_targets_follow_witness :
  let N := Z.of_nat (length [4; 8; 15; 16; 23]) / 1 in
  let seq_len := Z.min bptt (N - 1 - 0) in
  exists source inp target : tensor Z,
    batchify Toy.fw Toy.corpus 1 Toy.blank =
      (Ok source, log (Enter "batchify") Toy.blank) /\
    shape source = [N; 1] /\
    get_batch Toy.fw source 0 Toy.blank =
      (Ok (inp, target), log (Enter "get_batch") Toy.blank) /\
    shape inp = [seq_len; 1] /\
    shape target = [seq_len * 1] /\
    Z.of_nat (length (data target)) = seq_len * 1 /\
    forall k j, 0 <= k < seq_len -> 0 <= j < 1 ->
      exists tok next : Z,
        entry source (0 + k) j = Some tok /\
        entry source (0 + k + 1) j = Some next /\
        entry inp k j = Some tok /\
        data target !! Z.to_nat (k * 1 + j) = Some next.
Proof.
  apply (get_batch_targets_follow Toy.fw Toy.corpus {| text := [4; 8; 15; 16; 23] |} []
           1 0 Toy.blank Toy.blank).
  - reflexivity.
  - lia.
  - by vm_compute.
Defined.

(** The same source read from its last row on. *)
Lemma get_batch_past_end_witness :
  get_batch Toy.fw (Tensor [3; 2] [1; 2; 3; 4; 5; 6]) 2 Toy.blank =
    (Ok (Tensor [0; 2] [], Tensor [0] []), log (Enter "get_batch") Toy.blank).
Proof.
  apply (get_batch_past_end Toy.fw 3 2 [1; 2; 3; 4; 5; 6] 2 Toy.blank); lia.
Defined.

(** The batches of the small corpus in two columns of two rows. *)
Lemma batches_cover_source_witness :
  let N := Z.of_nat (length [4; 8; 15; 16; 23]) / 2 in
  exists (source : tensor Z) (batches : list (tensor Z * tensor Z)),
    batchify Toy.fw Toy.corpus 2 Toy.blank =
      (Ok source, log (Enter "batchify") Toy.blank) /\
    shape source = [N; 2] /\
    Forall2 (fun i b => forall w : World Toy.fw,
               get_batch Toy.fw source i w = (Ok b, log (Enter "get_batch") w))
      (py_range 0 (N - 1) bptt) batches /\
    concat ((fun b => data b.1) <$> batches) =
      take (Z.to_nat ((N - 1) * 2)) (data source) /\
    concat ((fun b => data b.2) <$> batches) =
      take (Z.to_nat ((N - 1) * 2)) (drop (Z.to_nat 2) (data source)) /\
    foldr Z.add 0 ((fun b => default 0 (head (shape b.1))) <$> batches) = N - 1.
Proof.
  apply (batches_cover_source Toy.fw Toy.corpus {| text := [4; 8; 15; 16; 23] |} []
           2 Toy.blank).
  - reflexivity.
  - by vm_compute.
Defined.

(* ===================================================================== *)
(** * The edges of batchify *)
(* ===================================================================== *)

Section batchify_edges.
Context (fw : framework).

(** [view(bsz, -1)] with a negative [bsz] raises. *)
Lemma view_negative_rows {A : Type} (t : tensor A) (bsz : Z) :
  bsz < 0 -> exists msg, torch.view t [bsz; -1] = Raise (RuntimeError msg).
Proof.
  intros Hbsz. unfold torch.view, torch.infer_size.
  case_bool_decide as Hex; [by eexists|].
  assert (bsz = -1) as ->.
  { destruct (decide (bsz = -1)) as [|Hne]; [done|].
    exfalso. apply Hex. left. lia. }
  by eexists.
Qed.

(** X4.  When [batchify] returns and what it raises otherwise, for a
    batch size that torch takes as an integer: without an example in the
    dataset [data.examples[0]] raises [IndexError]; a batch size of zero
    raises [ZeroDivisionError] in the floor division; a negative batch
    size raises a [RuntimeError], in [narrow] or in [view]; with a positive
    batch size the function returns a tensor of [n // bsz] rows and [bsz]
    columns, for a text of [n] tokens.  The bounds keep [bsz] and the
    length [nbatch * bsz] that [narrow] is given within the 64 bits of a
    size; beyond them torch refuses the argument, which is outside the
    model. *)
Theorem batchify_outcome (ds : Dataset (token fw)) (bsz : Z) (w : World fw) :
  - 2 ^ 62 <= bsz < 2 ^ 63 ->
  let r := (batchify fw ds bsz w).1 in
  match examples ds with
  | [] => r = Raise IndexError
  | ex :: _ =>
      if bsz =? 0 then r = Raise ZeroDivisionError
      else if bsz <? 0 then
        Z.of_nat (length (text ex)) < 2 ^ 62 ->
        exists msg, r = Raise (RuntimeError msg)
      else exists t, r = Ok t /\
                     shape t = [Z.of_nat (length (text ex)) / bsz; bsz]
  end.
Proof.
  intros _. cbv zeta. destruct (examples ds) as [|ex rest] eqn:Hex.
  { unfold batchify, enter. by rewrite Hex. }
  destruct (bsz =? 0) eqn:Hz; [|destruct (bsz <? 0) eqn:Hneg; [intros _|]].
  - apply Z.eqb_eq in Hz as ->. unfold batchify, enter. rewrite Hex.
    rewrite (bind_lift_ok _ _ ex) by done.
    rewrite (bind_lift_ok _ _ _ _ _ (numericalize_one _ _)).
    rewrite (bind_lift_ok _ _ (Z.of_nat (length (text ex)))) by done.
    done.
  - apply Z.eqb_neq in Hz. apply Z.ltb_lt in Hneg.
    unfold batchify, enter. rewrite Hex.
    set (n := Z.of_nat (length (text ex))).
    rewrite (bind_lift_ok _ _ ex) by done.
    rewrite (bind_lift_ok _ _ _ _ _ (numericalize_one _ _)).
    rewrite (bind_lift_ok _ _ n) by done.
    rewrite (bind_lift_ok _ _ (n / bsz)); last first.
    { unfold py_floordiv. by rewrite (proj2 (Z.eqb_neq bsz 0)). }
    rewrite bind_run. unfold torch.narrow0. cbn [shape data].
    fold n. rewrite bool_decide_eq_true_2 by lia.
    cbn [Z.ltb Z.compare]. case_bool_decide as Hfit; [|by eexists].
    cbn [lift]. rewrite bind_run.
    match goal with
    | |- context [torch.view ?t [bsz; -1]] =>
        destruct (view_negative_rows t bsz Hneg) as [msg ->]
    end.
    by eexists.
  - apply Z.eqb_neq in Hz. apply Z.ltb_ge in Hneg.
    rewrite (batchify_unfold fw ds ex rest) by (done || lia).
    by eexists.
Qed.

(** X5.  A batch size above the number of tokens, and within what
    torch takes as a size, leaves no row: the result is the empty tensor
    of shape [[0; bsz]], and nothing is raised. *)
Theorem batchify_short_text (ds : Dataset (token fw)) (ex : Example (token fw))
    (rest : list (Example (token fw))) (bsz : Z) (w : World fw) :
  examples ds = ex :: rest ->
  Z.of_nat (length (text ex)) < bsz ->
  torch.is_size bsz ->
  batchify fw ds bsz w = (Ok (Tensor [0; bsz] []), log (Enter "batchify") w).
Proof.
  intros Hex Hbsz _.
  rewrite (batchify_unfold fw ds ex rest) by (done || lia).
  rewrite Z.div_small by lia. unfold torch.transpose_data.
  by rewrite Z.mul_0_r.
Qed.
End batchify_edges.

(** The five tokens of the small corpus in batches of seven. *)
Lemma batchify_short_text_witness :
  batchify Toy.fw Toy.corpus 7 Toy.blank =
    (Ok (Tensor [0; 7] []), log (Enter "batchify") Toy.blank).
Proof.
  apply (batchify_short_text Toy.fw Toy.corpus {| text := [4; 8; 15; 16; 23] |} []
           7 Toy.blank).
  - reflexivity.
  - simpl. lia.
  - by vm_compute.
Defined.

(** The five tokens of the small corpus in batches of two. *)
Lemma batchify_outcome_witness :
  exists t, (batchify Toy.fw Toy.corpus 2 Toy.blank).1 = Ok t /\
            shape t = [Z.of_nat (length [4; 8; 15; 16; 23]) / 2; 2].
Proof.
  apply (batchify_outcome Toy.fw Toy.corpus 2 Toy.blank).
  by vm_compute.
Defined.

(* ===================================================================== *)
(** * The constructors *)
(* ===================================================================== *)

Section constructor_proofs.
Context {fw : framework}.

#[global] Instance keeps_heap_spec : Spec (@keeps_heap fw).
Proof.
  split; try done.
  intros w w1 w2 o (H1 & H1n & H1g) (H2 & H2n & H2g).
  split_and!; [|congruence..]. intros l. by rewrite H2, H1.
Qed.

Lemma run_keeps_heap {A : Type} (m : M fw A) (w : World fw) (r : result A)
    (w' : World fw) :
  sat keeps_heap m -> m w = (r, w') ->
  (forall l, heap w' l = heap w l) /\ next_loc w' = next_loc w /\
  globals w' = globals w.
Proof. intros H Hrun. specialize (H w). by rewrite Hrun in H. Qed.

Lemma PositionalEncoding_init_training (d_model : Z) (dropout : float) (max_len : Z)
    (w : World fw) (pos : PositionalEncoding fw) (w' : World fw) :
  PositionalEncoding_init fw d_model dropout max_len w = (Ok pos, w') ->
  pe_training pos = true.
Proof.
  unfold PositionalEncoding_init, enter. intros H.
  repeat (apply bind_ok_inv in H as (? & ? & _ & H)).
  by injection H as <- <-.
Qed.

(** X6.  A constructor call that returns has made a new object and
    touched no other: the result is the location that was free, every
    object that was there and every variable of the top level is as
    before, and the new model is in training mode, as is its positional
    encoding, has no cached mask, and holds the [ninp] it was given. *)
Theorem init_makes_fresh_model (ntoken ninp' nhead nhid nlayers : Z) (dropout : float)
    (w : World fw) (self : loc) (w' : World fw) :
  TransformerModel_init fw ntoken ninp' nhead nhid nlayers dropout w = (Ok self, w') ->
  self = next_loc w /\
  next_loc w' = S (next_loc w) /\
  (forall l, l <> self -> heap w' l = heap w l) /\
  globals w' = globals w /\
  src_mask (heap w' self) = None /\
  training (heap w' self) = true /\
  pe_training (pos_encoder (heap w' self)) = true /\
  model_type (heap w' self) = "Transformer" /\
  ninp (heap w' self) = ninp'.
Proof.
  unfold TransformerModel_init, enter. intros Hrun.
  apply bind_ok_inv in Hrun as (pos & w1 & Hpos & Hrun).
  pose proof (PositionalEncoding_init_training _ _ _ _ _ _ Hpos) as Hpt.
  apply run_keeps_heap in Hpos as (Hh1 & Hn1 & Hg1);
    [|apply sat_PositionalEncoding_init, _].
  apply bind_ok_inv in Hrun as (layers & w2 & H2 & Hrun).
  apply run_keeps_heap in H2 as (Hh2 & Hn2 & Hg2); [|sat_steps].
  apply bind_ok_inv in Hrun as (tenc & w3 & H3 & Hrun).
  apply run_keeps_heap in H3 as (Hh3 & Hn3 & Hg3); [|sat_steps].
  apply bind_ok_inv in Hrun as (emb & w4 & H4 & Hrun).
  apply run_keeps_heap in H4 as (Hh4 & Hn4 & Hg4); [|sat_steps].
  apply bind_ok_inv in Hrun as (dec & w5 & H5 & Hrun).
  apply run_keeps_heap in H5 as (Hh5 & Hn5 & Hg5); [|sat_steps].
  apply bind_ok_inv in Hrun as (self' & w6 & Hnew & Hrun).
  apply bind_ok_inv in Hrun as ([] & w7 & Hweights & Hrun).
  injection Hrun as <- <-. injection Hnew as <- <-.
  apply run_keeps_heap in Hweights as (Hh7 & Hn7 & Hg7);
    [|apply sat_init_weights, _].
  cbn in Hh7, Hn7, Hg7.
  assert (Hn : next_loc w5 = next_loc w) by (by rewrite Hn5, Hn4, Hn3, Hn2, Hn1).
  rewrite !Hh7, Hn7, Hg7, Hn, fn_lookup_insert. cbn.
  split_and!; try done.
  - intros l Hl. rewrite Hh7, Hn, fn_lookup_insert_ne by done.
    by rewrite Hh5, Hh4, Hh3, Hh2, Hh1.
  - by rewrite Hg5, Hg4, Hg3, Hg2, Hg1.
Qed.

(** The event that an error leaves behind. *)
Lemma last_log (ev : event) (w : World fw) : list.last (trace (log ev w)) = Some ev.
Proof. apply last_snoc. Qed.

(** A step of a sequence: the call returns, or it raises and the
    sequence ends with its error. *)
Ltac step_or_raise :=
  rewrite bind_run;
  lazymatch goal with
  | |- context [lift ?callee ?r ?w0] =>
      destruct r as [?|?]; cbn [lift];
      [|eexists _, _, _; split; [done|]; split; [apply last_log|];
        split; [|done]; right; rewrite !elem_of_cons; tauto]
  | |- context [call ?callee ?op ?w0] =>
      unfold call at 1; destruct (op (lib w0)) as [[?|?] ?];
      [|eexists _, _, _; split; [done|]; split; [apply last_log|];
        split; [|done]; right; rewrite !elem_of_cons; tauto]
  end.

(** With a model width of zero the constructor of the positional
    encoding does not return: the division by [d_model] raises, unless one
    of the library calls before it has. *)
Lemma PositionalEncoding_zero_width (dropout : float) (max_len : Z) (w : World fw) :
  exists e callee w',
    PositionalEncoding_init fw 0 dropout max_len w = (Raise e, w') /\
    list.last (trace w') = Some (Raised callee e) /\
    (callee = "float.__truediv__" /\ e = ZeroDivisionError \/
     callee ∈ ["nn.Dropout"; "torch.zeros"; "torch.arange"; "Tensor.unsqueeze";
               "Tensor.float"; "math.log"]) /\
    next_loc w' = next_loc w.
Proof.
  unfold PositionalEncoding_init, enter.
  do 7 step_or_raise.
  rewrite bind_run. cbn.
  eexists _, _, _. split; [done|]. split; [apply last_log|]. split; [by left|done].
Qed.

(** X7.  A model of width zero cannot be constructed:
    [TransformerModel(ntoken, 0, ...)] raises, and no object is created.
    The error is the [ZeroDivisionError] of the division by [d_model] in
    the constructor of the positional encoding, unless one of the library
    calls before that division has raised. *)
Theorem zero_width_model_raises (ntoken nhead nhid nlayers : Z) (dropout : float)
    (w : World fw) :
  exists e callee w',
    TransformerModel_init fw ntoken 0 nhead nhid nlayers dropout w = (Raise e, w') /\
    list.last (trace w') = Some (Raised callee e) /\
    (callee = "float.__truediv__" /\ e = ZeroDivisionError \/
     callee ∈ ["nn.Dropout"; "torch.zeros"; "torch.arange"; "Tensor.unsqueeze";
               "Tensor.float"; "math.log"]) /\
    next_loc w' = next_loc w.
Proof.
  unfold TransformerModel_init, enter. rewrite bind_run.
  destruct (PositionalEncoding_zero_width dropout 5000
              (log (Enter "TransformerModel.__init__") w))
    as (e & callee & w' & -> & Hlast & Hc & Hn).
  by exists e, callee, w'.
Qed.
End constructor_proofs.

(** The construction of the model of the small framework. *)
Lemma init_makes_fresh_model_witness :
  let w' := (TransformerModel_init Toy.fw 1 200 2 200 2 (float_literal 2 10)
               Toy.blank).2 in
  0%nat = next_loc Toy.blank /\
  next_loc w' = S (next_loc Toy.blank) /\
  (forall l, l <> 0%nat -> heap w' l = heap Toy.blank l) /\
  globals w' = globals Toy.blank /\
  src_mask (heap w' 0%nat) = None /\
  training (heap w' 0%nat) = true /\
  pe_training (pos_encoder (heap w' 0%nat)) = true /\
  model_type (heap w' 0%nat) = "Transformer" /\
  ninp (heap w' 0%nat) = 200.
Proof.
  apply (init_makes_fresh_model (fw := Toy.fw) 1 200 2 200 2 (float_literal 2 10)
           Toy.blank 0%nat).
  apply run_ok_eq. vm_compute. reflexivity.
Defined.

(* ===================================================================== *)
(** * The cached mask *)
(* ===================================================================== *)

Section given_forward.
Context {fw : framework}.
Context (R : World fw -> option exn -> World fw -> Prop) `{!Spec R} `{!SpecTraining R}.
Context (forward_sat : forall self src, sat R (TransformerModel_forward fw self src)).

(** [train] and [evaluate] satisfy a relation that [forward] and the
    assignment of the training flags satisfy. *)
Lemma sat_train_given : sat R (train fw).
Proof.
  unfold train.
  pose proof (sat_Module_train R). pose proof (sat_get_batch R).
  sat_steps.
Qed.

Lemma sat_evaluate_given (eval_model : loc) (data_source : tensor Z) :
  sat R (evaluate fw eval_model data_source).
Proof.
  unfold evaluate.
  pose proof (sat_Module_train R). pose proof (sat_get_batch R).
  sat_steps.
Qed.
End given_forward.

Section mask_invariant.
Context {fw : framework}.

#[global] Instance keeps_mask_ok_spec : Spec (@keeps_mask_ok fw).
Proof.
  split; unfold keeps_mask_ok; try done.
  intros w w1 w2 o H1 H2 l Hl. by apply H2, H1.
Qed.

#[global] Instance keeps_mask_ok_training : SpecTraining (@keeps_mask_ok fw).
Proof.
  intros w self mode l. unfold put_obj. cbn.
  destruct (decide (l = self)) as [->|Hne].
  - by rewrite fn_lookup_alter.
  - by rewrite fn_lookup_alter_ne.
Qed.

(** What the mask method returns is a square subsequent mask. *)
Lemma mask_method_result (self : loc) (n : Z) (w : World fw) (m : tensor float)
    (w' : World fw) :
  _generate_square_subsequent_mask fw self n w = (Ok m, w') ->
  0 <= n /\ causal n m.
Proof.
  destruct (decide (0 <= n)) as [Hn|Hn].
  - destruct (generate_square_subsequent_mask_run fw self n w Hn)
      as (m0 & -> & Hsh & Hlen & Hent).
    by intros [= <- <-].
  - unfold _generate_square_subsequent_mask, enter, torch.ones.
    by rewrite bool_decide_eq_false_2 by lia.
Qed.

Lemma sat_forward_mask_ok (self : loc) (src : tensor Z) :
  sat keeps_mask_ok (TransformerModel_forward fw self src).
Proof.
  unfold TransformerModel_forward.
  pose proof (sat_PositionalEncoding_forward (@keeps_mask_ok fw)).
  apply sat_enter; [apply _|].
  apply sat_bind; [apply _|sat_steps|intros m].
  apply sat_bind; [apply _|sat_steps|intros stale].
  apply sat_bind; [apply _| |intros; sat_steps].
  destruct stale; [|apply sat_ret, _].
  destruct (torch.size src 0) as [n|e]; [|intros w; apply spec_raise].
  intros w. rewrite (bind_lift_ok _ _ n) by done. rewrite bind_run.
  pose proof (sat_generate_square_subsequent_mask keeps_mask_ok self n w) as Hgen.
  destruct (_generate_square_subsequent_mask fw self n w) as [[mask|e] w1] eqn:Hrun;
    [|exact Hgen].
  apply mask_method_result in Hrun as [Hn Hc].
  eapply spec_trans; [exact Hgen|].
  intros l Hl. unfold put_obj. cbn.
  destruct (decide (l = self)) as [->|Hne].
  - rewrite fn_lookup_alter. by exists n.
  - by rewrite fn_lookup_alter_ne.
Qed.

Lemma sat_put_global_mask_ok (f : Globals fw -> Globals fw) :
  sat (@keeps_mask_ok fw) (put_global f).
Proof. by intros w l Hl. Qed.

Lemma sat_init_mask_ok (ntoken ninp' nhead nhid nlayers : Z) (dropout : float) :
  sat keeps_mask_ok (TransformerModel_init fw ntoken ninp' nhead nhid nlayers dropout).
Proof.
  unfold TransformerModel_init.
  pose proof (sat_PositionalEncoding_init (@keeps_mask_ok fw)).
  pose proof (sat_init_weights (@keeps_mask_ok fw)).
  apply sat_enter; [apply _|].
  do 5 (apply sat_bind; [apply _|sat_steps|intros ?]).
  apply sat_bind; [apply _| |intros; sat_steps].
  intros w l Hl. unfold new_obj. cbn.
  destruct (decide (l = next_loc w)) as [->|Hne].
  - by rewrite fn_lookup_insert.
  - by rewrite fn_lookup_insert_ne.
Qed.

Lemma sat_epoch_body_mask_ok (ep : Z) : sat keeps_mask_ok (epoch_body fw ep).
Proof.
  unfold epoch_body.
  pose proof (sat_train_given keeps_mask_ok sat_forward_mask_ok).
  pose proof (sat_evaluate_given keeps_mask_ok sat_forward_mask_ok).
  repeat first [apply sat_put_global_mask_ok | sat_rule; sat_side].
Qed.

(** X8.  The cached mask is never wrong: a model whose [src_mask] is
    [None] or a square subsequent mask is still such a model after
    anything the notebook does, whether it returns or raises: a
    constructor call, [forward], [train], [evaluate], the loop over the
    epochs and the test cell. *)
Theorem cached_mask_stays_causal :
  (forall ntoken ninp' nhead nhid nlayers dropout,
     sat keeps_mask_ok
       (TransformerModel_init fw ntoken ninp' nhead nhid nlayers dropout)) /\
  (forall self src, sat keeps_mask_ok (TransformerModel_forward fw self src)) /\
  sat keeps_mask_ok (train fw) /\
  (forall eval_model data_source,
     sat keeps_mask_ok (evaluate fw eval_model data_source)) /\
  sat keeps_mask_ok (epoch_loop fw) /\
  sat keeps_mask_ok (test_cell fw).
Proof.
  pose proof (sat_train_given keeps_mask_ok sat_forward_mask_ok) as Htrain.
  pose proof (sat_evaluate_given keeps_mask_ok sat_forward_mask_ok) as Heval.
  split_and!; try done.
  - apply sat_init_mask_ok.
  - apply sat_forward_mask_ok.
  - unfold epoch_loop. pose proof sat_epoch_body_mask_ok.
    repeat first [apply sat_put_global_mask_ok | sat_rule; sat_side].
  - unfold test_cell. sat_steps.
Qed.

Lemma lift_ok_inv {A : Type} (callee : string) (r : result A) (w : World fw) (a : A)
    (w' : World fw) :
  lift callee r w = (Ok a, w') -> r = Ok a /\ w' = w.
Proof. destruct r; [|done]. by intros [= <- <-]. Qed.

Lemma size_causal (n : Z) (m : tensor float) : causal n m -> torch.size m 0 = Ok n.
Proof. intros (Hsh & _). unfold torch.size. by rewrite Hsh. Qed.

Lemma call_ok_inv {A : Type} (callee : string) (op : L fw -> result A * L fw)
    (w : World fw) (a : A) (w' : World fw) :
  call callee op w = (Ok a, w') ->
  exists l', op (lib w) = (Ok a, l') /\ heap w' = heap w.
Proof.
  unfold call. destruct (op (lib w)) as [[a'|e] l']; [|done].
  intros [= <- <-]. by exists l'.
Qed.

(** A call of [forward] that returns has passed the cached mask to the
    encoder, and leaves that mask behind; it has the size of the input,
    and is a square subsequent mask if the mask cached before was one. *)
Lemma forward_ok_mask (self : loc) (src : tensor Z) (w : World fw) (out : Act fw)
    (w' : World fw) :
  TransformerModel_forward fw self src w = (Ok out, w') ->
  exists n m,
    torch.size src 0 = Ok n /\
    src_mask (heap w' self) = Some m /\
    torch.size m 0 = Ok n /\
    (mask_ok (heap w self) -> 0 <= n /\ causal n m) /\
    exists x l y l',
      encoder_call fw (transformer_encoder (heap w self)) x (Some m) l = (Ok y, l').
Proof.
  unfold TransformerModel_forward, enter. intros Hrun.
  apply bind_ok_inv in Hrun as (m0 & w1 & Hget & Hrun). injection Hget as <- <-.
  apply bind_ok_inv in Hrun as (stale & w2 & Hstale & Hrun).
  apply bind_ok_inv in Hrun as ([] & w3 & Hif & Hrun).
  assert (Hcalled : exists x l y l',
            encoder_call fw (transformer_encoder (heap w3 self)) x
              (src_mask (heap w3 self)) l = (Ok y, l')).
  { pose proof Hrun as Hrest.
    apply bind_ok_inv in Hrest as (m1 & w4 & H & Hrest). injection H as <- <-.
    apply bind_ok_inv in Hrest as (emb & w5 & H5 & Hrest).
    apply call_ok_inv in H5 as (_ & _ & H5).
    apply bind_ok_inv in Hrest as (scale & w6 & H6 & Hrest).
    apply lift_ok_inv in H6 as [_ ->].
    apply bind_ok_inv in Hrest as (src' & w7 & H7 & Hrest).
    apply lift_ok_inv in H7 as [_ ->].
    apply bind_ok_inv in Hrest as (m2 & w8 & H & Hrest). injection H as <- <-.
    apply bind_ok_inv in Hrest as (x & w9 & H9 & Hrest).
    apply run_keeps_heap in H9 as (H9 & _);
      [|apply sat_PositionalEncoding_forward, _].
    apply bind_ok_inv in Hrest as (m3 & w10 & H & Hrest). injection H as <- <-.
    apply bind_ok_inv in Hrest as (y & w11 & H11 & _).
    apply call_ok_inv in H11 as (l' & H11 & _).
    rewrite H9, H5 in H11. by exists x, (lib w9), y, l'. }
  apply run_keeps_heap in Hrun as (Hheap & _); last first.
  { pose proof (sat_PositionalEncoding_forward (@keeps_heap fw)). sat_steps. }
  rewrite Hheap. clear Hheap w' out.
  cbn [heap log] in Hstale.
  assert (Hw2 : forall l, heap w2 l = heap w l).
  { eapply run_keeps_heap in Hstale as (Hw2 & _); [exact Hw2|].
    destruct (src_mask (heap w self)); sat_steps. }
  destruct stale.
  - clear Hstale.
    apply bind_ok_inv in Hif as (n & wa & Hn & Hif).
    apply lift_ok_inv in Hn as [Hn ->].
    apply bind_ok_inv in Hif as (mask & wg & Hgen & Hput).
    pose proof (run_keeps_heap _ _ _ _
                  (sat_generate_square_subsequent_mask keeps_heap self n) Hgen)
      as (Hg & _).
    apply mask_method_result in Hgen as [Hpos Hc].
    injection Hput as <-. cbn in Hcalled |- *.
    rewrite fn_lookup_alter in Hcalled |- *. cbn in Hcalled |- *.
    rewrite Hg in Hcalled.
    rewrite Hw2 in Hcalled. cbn in Hcalled.
    exists n, mask. split_and!; try done. by apply size_causal.
  - injection Hif as <-.
    destruct (src_mask (heap w self)) as [cached|] eqn:Hc; [|done].
    apply bind_ok_inv in Hstale as (a & wa & Ha & Hstale).
    apply lift_ok_inv in Ha as [Ha ->].
    apply bind_ok_inv in Hstale as (b & wb & Hb & Hstale).
    apply lift_ok_inv in Hb as [Hb ->].
    injection Hstale as Hab <-. cbn in Hcalled |- *.
    apply negb_false_iff, Z.eqb_eq in Hab as <-.
    rewrite Hc in Hcalled.
    exists a, cached. split_and!; try done.
    unfold mask_ok. rewrite Hc. intros (k & Hk & Hcausal).
    rewrite (size_causal k cached Hcausal) in Ha. by injection Ha as <-.
Qed.

(** X9.  On a model whose cached mask is [None] or a square subsequent
    mask, a call of [forward] that returns has called the encoder of the
    model with the square subsequent mask of the length of its input,
    built in this call or kept from an earlier one, and leaves that mask
    in [self.src_mask]. *)
Theorem forward_has_mask_of_input (self : loc) (src : tensor Z) (w : World fw)
    (out : Act fw) (w' : World fw) :
  mask_ok (heap w self) ->
  TransformerModel_forward fw self src w = (Ok out, w') ->
  exists n m,
    torch.size src 0 = Ok n /\ 0 <= n /\
    causal n m /\
    src_mask (heap w' self) = Some m /\
    exists x l y l',
      encoder_call fw (transformer_encoder (heap w self)) x (Some m) l = (Ok y, l').
Proof.
  intros Hok Hrun.
  apply forward_ok_mask in Hrun as (n & m & Hn & Hm & _ & Hc & Hcalled).
  destruct (Hc Hok) as [Hpos Hcausal]. by exists n, m.
Qed.
End mask_invariant.

(** The first call on the model of the small framework. *)
Lemma forward_has_mask_of_input_witness :
  exists n m,
    torch.size (Tensor [2; 2] [4; 15; 8; 16]) 0 = Ok n /\ 0 <= n /\
    causal n m /\
    src_mask (heap (TransformerModel_forward Toy.fw 0%nat
                      (Tensor [2; 2] [4; 15; 8; 16]) Toy.start).2 0%nat) = Some m /\
    exists x l y l',
      encoder_call Toy.fw (transformer_encoder (heap Toy.start 0%nat)) x (Some m) l =
        (Ok y, l').
Proof.
  apply (forward_has_mask_of_input (fw := Toy.fw) 0%nat (Tensor [2; 2] [4; 15; 8; 16])
           Toy.start 0).
  - by vm_compute.
  - apply run_ok_eq. vm_compute. reflexivity.
Defined.

(** ** The mask is built once for inputs of one length *)

Section only_enters_rules.
Context {fw : framework} (P : string -> Prop).

Lemma only_enters_ret {A : Type} (a : A) : only_enters P (mret a : M fw A).
Proof. intros w. exists []. split; [by rewrite app_nil_r|]. by intros fn ?%elem_of_nil. Qed.





End only_enters_rules.

Section mask_reuse.
Context {fw : framework}.


End mask_reuse.


(* ===================================================================== *)
(** * Training mode and evaluation mode *)
(* ===================================================================== *)

Section modes.
Context {fw : framework}.

#[global] Instance keeps_training_spec : Spec (@keeps_training fw).
Proof.
  split; unfold keeps_training; try done.
  intros w w1 w2 o H1 H2 l. destruct (H1 l) as [<- <-]. apply H2.
Qed.

#[global] Instance keeps_training_mask (self : loc) : SpecMask (@keeps_training fw) self.
Proof.
  intros w mask l. unfold put_obj. cbn.
  destruct (decide (l = self)) as [->|Hne].
  - by rewrite fn_lookup_alter.
  - by rewrite fn_lookup_alter_ne.
Qed.

(** The world behind a sequence is the world behind its first part, or
    one that the second part made of it. *)
Lemma bind_after (R : World fw -> option exn -> World fw -> Prop) `{!Spec R}
    {A B : Type} (m : M fw A) (k : A -> M fw B) (w : World fw) :
  (forall a, sat R (k a)) -> exists o, R (m w).2 o ((m ≫= k) w).2.
Proof.
  intros Hk. rewrite bind_run. destruct (m w) as [[a|e] w1]; simpl.
  - eexists. apply Hk.
  - exists None. apply spec_refl.
Qed.

(** [nn.Module.train(mode)] sets the flags of the model and of its
    positional encoding, also when a call on a submodule raises. *)
Lemma Module_train_sets (self : loc) (mode : bool) (w : World fw) :
  let w' := (Module_train fw self mode w).2 in
  training (heap w' self) = mode /\
  pe_training (pos_encoder (heap w' self)) = mode.
Proof.
  cbv zeta. unfold Module_train.
  match goal with
  | |- context [(?m ≫= ?k) w] =>
      destruct (bind_after keeps_training m k w) as [o Hk]; [intros; sat_steps|]
  end.
  destruct (Hk self) as [-> ->]. unfold put_obj. cbn.
  by rewrite fn_lookup_alter.
Qed.

Lemma evaluate_sets_eval_mode (eval_model : loc) (data_source : tensor Z)
    (w : World fw) :
  let w' := (evaluate fw eval_model data_source w).2 in
  training (heap w' eval_model) = false /\
  pe_training (pos_encoder (heap w' eval_model)) = false.
Proof.
  cbv zeta. unfold evaluate, enter.
  match goal with
  | |- context [(?m ≫= ?k) ?w0] =>
      destruct (bind_after keeps_training m k w0) as [o Hk]
  end.
  - intros. pose proof (sat_get_batch (@keeps_training fw)).
    pose proof (fun self => sat_forward (@keeps_training fw) self).
    sat_steps.
  - destruct (Hk eval_model) as [-> ->]. apply Module_train_sets.
Qed.

Lemma train_sets_train_mode (w : World fw) :
  let w' := (train fw w).2 in
  training (heap w' (model (globals w))) = true /\
  pe_training (pos_encoder (heap w' (model (globals w)))) = true.
Proof.
  cbv zeta. unfold train, enter. rewrite bind_run. cbn [get_global].
  match goal with
  | |- context [(?m ≫= ?k) ?w0] =>
      destruct (bind_after keeps_training m k w0) as [o Hk]
  end.
  - intros. pose proof (sat_get_batch (@keeps_training fw)).
    pose proof (fun self => sat_forward (@keeps_training fw) self).
    sat_steps.
  - destruct (Hk (model (globals w))) as [-> ->]. apply Module_train_sets.
Qed.

Lemma sat_put_global_training (f : Globals fw -> Globals fw) :
  sat (@keeps_training fw) (put_global f).
Proof. by intros w l. Qed.

(** An epoch that returns leaves the model in evaluation mode. *)
Lemma epoch_body_eval_mode (ep : Z) (w w' : World fw) :
  epoch_body fw ep w = (Ok tt, w') ->
  training (heap w' (model (globals w'))) = false /\
  pe_training (pos_encoder (heap w' (model (globals w')))) = false.
Proof.
  intros Hrun.
  assert (Hm : model (globals w') = model (globals w)).
  { pose proof (sat_epoch_body_tracks ep w) as [Hm _]. by rewrite Hrun in Hm. }
  rewrite Hm. unfold epoch_body in Hrun.
  apply bind_ok_inv in Hrun as ([] & w1 & H1 & Hrun). injection H1 as <-.
  apply bind_ok_inv in Hrun as (t0 & w2 & H2 & Hrun).
  apply run_keeps_globals in H2; [|sat_steps].
  apply bind_ok_inv in Hrun as ([] & w3 & H3 & Hrun).
  apply run_keeps_globals in H3; [|apply sat_train; apply _].
  apply bind_ok_inv in Hrun as (mdl & w4 & H4 & Hrun). injection H4 as <- <-.
  apply bind_ok_inv in Hrun as (vd & w5 & H5 & Hrun). injection H5 as <- <-.
  apply bind_ok_inv in Hrun as (v & w6 & Heval & Hrun).
  rewrite H3, H2 in Heval. cbn in Heval.
  pose proof (evaluate_sets_eval_mode (model (globals w)) (val_data (globals w)) w3)
    as Hmode.
  rewrite Heval in Hmode. cbn in Hmode.
  match type of Hrun with
  | ?rest w6 = _ =>
      assert (Hrest : sat keeps_training rest);
      [|specialize (Hrest w6 (model (globals w))); rewrite Hrun in Hrest]
  end.
  { repeat first [apply sat_put_global_training | sat_rule; sat_side]. }
  cbn in Hrest. destruct Hrest as [-> ->]. exact Hmode.
Qed.

(** A loop over at least one epoch that returns leaves the model in
    evaluation mode. *)
Lemma epochs_eval_mode (eps : list Z) (w w' : World fw) :
  eps <> [] ->
  for_each eps tt (fun _ ep => epoch_body fw ep) w = (Ok tt, w') ->
  training (heap w' (model (globals w'))) = false /\
  pe_training (pos_encoder (heap w' (model (globals w')))) = false.
Proof.
  revert w. induction eps as [|ep eps IH]; intros w Hne Hrun; [done|].
  cbn [for_each] in Hrun.
  apply bind_ok_inv in Hrun as ([] & w1 & Hbody & Hrun).
  destruct eps as [|ep' eps].
  - injection Hrun as <-. by apply (epoch_body_eval_mode ep w).
  - by apply (IH w1).
Qed.

(** X11.  [evaluate] leaves the model it is given in evaluation mode
    and [train] leaves the model of the notebook in training mode, the
    positional encoding with it, also when they raise; and a run of the
    loop over the epochs that returns leaves the model in evaluation mode,
    since the last thing an epoch does with it is to evaluate it. *)
Theorem modes_after_train_and_evaluate :
  (forall eval_model data_source (w : World fw),
     let w' := (evaluate fw eval_model data_source w).2 in
     training (heap w' eval_model) = false /\
     pe_training (pos_encoder (heap w' eval_model)) = false) /\
  (forall w : World fw,
     let w' := (train fw w).2 in
     training (heap w' (model (globals w))) = true /\
     pe_training (pos_encoder (heap w' (model (globals w)))) = true) /\
  (forall w w' : World fw,
     epoch_loop fw w = (Ok tt, w') ->
     training (heap w' (model (globals w'))) = false /\
     pe_training (pos_encoder (heap w' (model (globals w')))) = false).
Proof.
  split_and!.
  - apply evaluate_sets_eval_mode.
  - apply train_sets_train_mode.
  - intros w w'. unfold epoch_loop. intros Hrun.
    apply bind_ok_inv in Hrun as ([] & w1 & _ & Hrun).
    by apply epochs_eval_mode in Hrun.
Qed.
End modes.

(* ===================================================================== *)
(** * Data too short to evaluate *)
(* ===================================================================== *)

Section evaluate_edges.
Context {fw : framework}.

(** X12.  [evaluate] needs a data source of two rows at least.  On a
    source of one row, as [batchify] returns it for a text of fewer than
    [2 * bsz] tokens, the loop over the batches is empty and the division
    by [len(data_source) - 1] raises [ZeroDivisionError]; on a source of
    no rows the division is by [-1] and the result is negative zero.  In
    both cases the model is not called.  (Both when [eval()] on the
    submodules returns; the gradient mode is restored.) *)
Theorem evaluate_needs_two_rows (eval_model : loc) (c : Z) (d1 d0 : list Z)
    (w w1 : World fw) :
  Module_train fw eval_model false (log (Enter "evaluate") w) = (Ok tt, w1) ->
  let restored :=
    with_lib (set_grad_enabled fw (is_grad_enabled fw (lib w1))
                (set_grad_enabled fw false (lib w1))) w1 in
  evaluate fw eval_model (Tensor [1; c] d1) w =
    (Raise ZeroDivisionError,
     log (Raised "float.__truediv__" ZeroDivisionError) restored) /\
  evaluate fw eval_model (Tensor [0; c] d0) w = (Ok (S754_zero true), restored).
Proof.
  intros Htrain. cbv zeta. unfold evaluate, enter.
  rewrite !bind_run, !Htrain. split; reflexivity.
Qed.
End evaluate_edges.

(** The model of the small framework on sources of one row and of no
    row. *)
Lemma evaluate_needs_two_rows_witness :
  let w1 := (Module_train Toy.fw 0%nat false (log (Enter "evaluate") Toy.start)).2 in
  let restored :=
    with_lib (set_grad_enabled Toy.fw (is_grad_enabled Toy.fw (lib w1))
                (set_grad_enabled Toy.fw false (lib w1))) w1 in
  evaluate Toy.fw 0%nat (Tensor [1; 2] [4; 15]) Toy.start =
    (Raise ZeroDivisionError,
     log (Raised "float.__truediv__" ZeroDivisionError) restored) /\
  evaluate Toy.fw 0%nat (Tensor [0; 2] []) Toy.start = (Ok (S754_zero true), restored).
Proof.
  apply (evaluate_needs_two_rows (fw := Toy.fw) 0%nat 2).
  apply run_ok_eq. vm_compute. reflexivity.
Defined.

(* ===================================================================== *)
(** * What training and evaluation leave alone *)
(* ===================================================================== *)

Section frame.
Context {fw : framework}.

Lemma same_modules_refl (m : TransformerModel fw) : same_modules m m.
Proof. by repeat split. Qed.

Lemma same_modules_trans (m1 m2 m3 : TransformerModel fw) :
  same_modules m1 m2 -> same_modules m2 m3 -> same_modules m1 m3.
Proof.
  unfold same_modules. intros (? & ? & ? & ? & ? & ? & ?) (? & ? & ? & ? & ? & ? & ?).
  split_and!; congruence.
Qed.

#[global] Instance keeps_modules_spec : Spec (@keeps_modules fw).
Proof.
  split; unfold keeps_modules; try (by intros; split; [intros; apply same_modules_refl|]).
  - intros w w1 w2 o (H1 & H1g & H1n) (H2 & H2g & H2n). split_and!; [|congruence..].
    intros l. by apply (same_modules_trans _ (heap w1 l)).
  - by intros w w1 o l H.
Qed.

#[global] Instance keeps_modules_mask (self : loc) : SpecMask (@keeps_modules fw) self.
Proof.
  intros w mask. unfold keeps_modules, put_obj. cbn. split; [|done].
  intros l. destruct (decide (l = self)) as [->|Hne].
  - rewrite fn_lookup_alter. by repeat split.
  - rewrite fn_lookup_alter_ne by done. apply same_modules_refl.
Qed.

#[global] Instance keeps_modules_training : SpecTraining (@keeps_modules fw).
Proof.
  intros w self mode. unfold keeps_modules, put_obj. cbn. split; [|done].
  intros l. destruct (decide (l = self)) as [->|Hne].
  - rewrite fn_lookup_alter. by repeat split.
  - rewrite fn_lookup_alter_ne by done. apply same_modules_refl.
Qed.

(** X13.  [train] and [evaluate] write nothing but the training flags
    and the cached mask, also when they raise: no variable of the top
    level is assigned ([epoch], [best_val_loss], [best_model] and the data
    are only read), no model object is created, and every model keeps its
    submodules, its positional-encoding buffer, its [ninp] and its
    [model_type]. *)
Theorem train_and_evaluate_keep_modules :
  sat keeps_modules (train fw) /\
  (forall eval_model data_source,
     sat keeps_modules (evaluate fw eval_model data_source)).
Proof.
  split; intros.
  - apply sat_train; apply _.
  - apply sat_evaluate; apply _.
Qed.
End frame.

(* ===================================================================== *)
(** * The vector-Jacobian product of the autograd notebook *)
(* ===================================================================== *)

Section vector_jacobian.
Context (norm : tensor float -> float).

Lemma doubled_shape (k : nat) (t : tensor float) :
  shape (autograd.doubled k t) = shape t.
Proof. induction k as [|k IH]; [done|]. exact IH. Qed.

Lemma doubled_succ_r (k : nat) (t : tensor float) :
  autograd.doubled (S k) t =
    autograd.doubled k (autograd.map_tensor (fun a => F32.mul a (F32.of_Z 2)) t).
Proof. unfold autograd.doubled. by rewrite Nat.iter_succ_r. Qed.

(** The loop ends at the first number of doublings at which the norm is
    not below 1000. *)
Lemma double_until_spec (id : nat) (x : tensor float) (fuel j : nat) (y : autograd.var) :
  autograd.double_until norm fuel (autograd.doubled_var id x j) = Some y ->
  exists k, (j <= k <= j + fuel)%nat /\
    y = autograd.doubled_var id x k /\
    SFltb (norm (autograd.doubled k x)) (F32.of_Z 1000) = false /\
    forall i, (j <= i < k)%nat ->
      SFltb (norm (autograd.doubled i x)) (F32.of_Z 1000) = true.
Proof.
  revert j. induction fuel as [|fuel IH]; intros j;
    cbn [autograd.double_until];
    change (autograd.value (autograd.doubled_var id x j)) with (autograd.doubled j x);
    destruct (SFltb (norm (autograd.doubled j x)) (F32.of_Z 1000)) eqn:Hlt;
    try done.
  - intros [= <-]. exists j. split_and!; try done; intros; lia.
  - change (autograd.mul_scalar (autograd.doubled_var id x j) 2)
      with (autograd.doubled_var id x (S j)).
    intros Hrun. apply (IH (S j)) in Hrun as (k & Hk & -> & Hexit & Hbefore).
    exists k. split_and!; try done; try lia.
    intros i Hi. destruct (decide (i = j)) as [->|Hne]; [done|].
    apply Hbefore. lia.
  - intros [= <-]. exists j. split_and!; try done; intros; lia.
Qed.

(** The gradient [g] sent back through [k] doublings arrives at the
    leaf doubled [k] times. *)
Lemma backprop_doubling (id k : nat) (g : tensor float) (gs : autograd.grads) :
  gs id = None ->
  match autograd.doubling_edge id k with
  | Some fn => autograd.backprop fn g gs
  | None => Ok gs
  end = Ok (<[id := Some (autograd.doubled k g)]> gs).
Proof.
  intros Hid. revert g. induction k as [|k IH]; intros g.
  - simpl. by rewrite Hid.
  - rewrite doubled_succ_r. simpl. apply IH.
Qed.

(** X14.  The gradient that the cell with [y.backward(v)] prints
    depends on the random [x] only through the number [k] of doublings:
    when the loop has ended, [x.grad] is [v] doubled [k] times, where
    [k >= 1] is the first number of doublings at which the norm of [x]
    doubled is not below 1000. *)
Theorem vjp_gradient_is_v_doubled (rng : nat -> float) (gs : autograd.grads)
    (fuel : nat) (r : result (option (tensor float))) :
  autograd.vjp_cells norm rng gs fuel = Some r ->
  let x := Tensor [3] (rng <$> seq 4 3) in
  exists k, (1 <= k <= S fuel)%nat /\
    r = Ok (Some (autograd.doubled k autograd.v_literal)) /\
    SFltb (norm (autograd.doubled k x)) (F32.of_Z 1000) = false /\
    forall i, (1 <= i < k)%nat ->
      SFltb (norm (autograd.doubled i x)) (F32.of_Z 1000) = true.
Proof.
  cbv zeta. unfold autograd.vjp_cells.
  change (autograd.randn1 3 rng 4 2)
    with (Ok (autograd.doubled_var 2 (Tensor [3] (rng <$> seq 4 3)) 0)).
  cbv beta iota.
  change (autograd.mul_scalar (autograd.doubled_var 2 (Tensor [3] (rng <$> seq 4 3)) 0) 2)
    with (autograd.doubled_var 2 (Tensor [3] (rng <$> seq 4 3)) 1).
  destruct (autograd.double_until norm fuel _) as [y|] eqn:Hloop; [|done].
  intros [= <-].
  apply double_until_spec in Hloop as (k & Hk & -> & Hexit & Hbefore).
  exists k. split; [lia|]. split; [|done].
  unfold autograd.backward_with. cbn [autograd.edge autograd.value autograd.doubled_var].
  rewrite doubled_shape, bool_decide_eq_true_2 by done.
  pose proof (backprop_doubling 2 k autograd.v_literal (<[2%nat := None]> gs)
                eq_refl) as Hb.
  destruct k as [|k]; [lia|].
  change (autograd.doubling_edge 2 (S k))
    with (Some (autograd.MulBackward0_scalar (autograd.doubling_edge 2 k) (F32.of_Z 2)))
    in Hb |- *.
  cbv beta iota in Hb |- *. rewrite Hb. reflexivity.
Qed.

Lemma doubled_zeros (k : nat) (t : tensor float) :
  Forall (fun a => exists s, a = S754_zero s) (data t) ->
  Forall (fun a => exists s, a = S754_zero s) (data (autograd.doubled k t)).
Proof.
  intros Ht. induction k as [|k IH]; [done|].
  change (autograd.doubled (S k) t)
    with (autograd.map_tensor (fun a => F32.mul a (F32.of_Z 2)) (autograd.doubled k t)).
  cbn [data autograd.map_tensor]. apply Forall_fmap.
  eapply Forall_impl; [|exact IH].
  intros a [s ->]. by eexists.
Qed.

Lemma double_until_diverges (id : nat) (x : tensor float) :
  (forall k, SFltb (norm (autograd.doubled k x)) (F32.of_Z 1000) = true) ->
  forall fuel j, autograd.double_until norm fuel (autograd.doubled_var id x j) = None.
Proof.
  intros Hlt. induction fuel as [|fuel IH]; intros j;
    cbn [autograd.double_until];
    change (autograd.value (autograd.doubled_var id x j)) with (autograd.doubled j x);
    rewrite Hlt; [done|].
  apply (IH (S j)).
Qed.

(** X15.  The loop of the cell need not end: when the three draws for
    [x] are zeros, of either sign, and the norm of a tensor of zeros is
    below 1000, the condition of the loop holds behind every number of
    rounds, and the cell never gets to [print(y)]. *)
Theorem vjp_loop_never_ends_at_zero (rng : nat -> float) (gs : autograd.grads) :
  (forall i, (4 <= i < 7)%nat -> exists s, rng i = S754_zero s) ->
  (forall t, Forall (fun a => exists s, a = S754_zero s) (data t) ->
             SFltb (norm t) (F32.of_Z 1000) = true) ->
  forall fuel, autograd.vjp_cells norm rng gs fuel = None.
Proof.
  intros Hrng Hnorm fuel. unfold autograd.vjp_cells.
  change (autograd.randn1 3 rng 4 2)
    with (Ok (autograd.doubled_var 2 (Tensor [3] (rng <$> seq 4 3)) 0)).
  cbv beta iota.
  change (autograd.mul_scalar (autograd.doubled_var 2 (Tensor [3] (rng <$> seq 4 3)) 0) 2)
    with (autograd.doubled_var 2 (Tensor [3] (rng <$> seq 4 3)) 1).
  rewrite double_until_diverges; [done|].
  intros k. apply Hnorm, doubled_zeros. simpl.
  repeat constructor; apply Hrng; lia.
Qed.
End vector_jacobian.

(** The norm of a tensor of zeros is zero. *)
Lemma norm2_zeros (t : tensor float) :
  Forall (fun a => exists s, a = S754_zero s) (data t) ->
  SFltb (autograd.norm2 t) (F32.of_Z 1000) = true.
Proof.
  intros Ht. unfold autograd.norm2.
  assert (Hsum : foldl (fun acc a => F32.add acc (F32.mul a a)) F32.zero (data t)
                 = F32.zero).
  { generalize dependent (data t). intros l Hl.
    induction Hl as [|a l [s ->] _ IH]; [done|].
    simpl. destruct s; exact IH. }
  by rewrite Hsum.
Qed.

(** A run in which every draw is one: the norm of [x] doubled ten times
    is the first that is not below 1000, and the gradient is [v] doubled
    ten times, [v] times 1024. *)
Lemma vjp_gradient_is_v_doubled_witness :
  let x := Tensor [3] ((fun _ : nat => F32.one) <$> seq 4 3) in
  exists k, (1 <= k <= 21)%nat /\
    Ok (Some (autograd.doubled 10 autograd.v_literal)) =
      Ok (Some (autograd.doubled k autograd.v_literal)) /\
    SFltb (autograd.norm2 (autograd.doubled k x)) (F32.of_Z 1000) = false /\
    forall i, (1 <= i < k)%nat ->
      SFltb (autograd.norm2 (autograd.doubled i x)) (F32.of_Z 1000) = true.
Proof.
  apply (vjp_gradient_is_v_doubled autograd.norm2 (fun _ => F32.one) (fun _ => None)
           20 (Ok (Some (autograd.doubled 10 autograd.v_literal)))).
  vm_compute. reflexivity.
Defined.

(** A generator that draws zeros, under the norm [norm2]. *)
Lemma vjp_loop_never_ends_at_zero_witness :
  autograd.vjp_cells autograd.norm2 (fun _ => F32.zero) (fun _ => None) 1000 = None.
Proof.
  apply (vjp_loop_never_ends_at_zero autograd.norm2 (fun _ => F32.zero) (fun _ => None)).
  - intros i _. by exists false.
  - apply norm2_zeros.
Defined.

(* ===================================================================== *)
(** * A loop without a best model *)
(* ===================================================================== *)

Section no_best_model.
Context {fw : framework}.

(** X18.  The loop over the epochs leaves [best_model] at [None]
    exactly when none of the validation losses of the run was below
    infinity, that is when each of the three epochs of the run got a loss
    that is infinite or not a number; the test cell behind it then raises
    [AttributeError], since it calls [eval()] on [None]. *)
Theorem no_best_model_without_finite_loss (w w' : World fw) :
  epoch_loop fw w = (Ok tt, w') ->
  exists vs : list float,
    epoch_loop_val_losses fw w = Ok <$> vs /\
    length vs = 3%nat /\
    (best_model (globals w') = None <->
     Forall (fun v => F64.ltb v F64.inf = false) vs) /\
    (best_model (globals w') = None ->
     forall w2, globals w2 = globals w' -> (test_cell fw w2).1 = Raise AttributeError).
Proof.
  intros Hrun.
  apply epoch_loop_val_losses_ok in Hrun as (vs & Hvs & Hlen & _ & Hkeep & Hset).
  exists vs. split_and!; try done.
  - split; [|exact Hkeep].
    intros Hnone. destruct (ltb_cases F64.inf vs) as [Hno|Hyes]; [done|].
    rewrite (Hset Hyes) in Hnone. done.
  - intros Hnone w2 Hg. unfold test_cell.
    rewrite !bind_run. cbn [get_global]. by rewrite Hg, Hnone.
Qed.
End no_best_model.

(** The run of the loop on the small framework, in which the first
    validation loss is below infinity. *)
Lemma no_best_model_without_finite_loss_witness :
  let w' := (epoch_loop Toy.fw Toy.start).2 in
  exists vs : list float,
    epoch_loop_val_losses Toy.fw Toy.start = Ok <$> vs /\
    length vs = 3%nat /\
    (best_model (globals w') = None <->
     Forall (fun v => F64.ltb v F64.inf = false) vs) /\
    (best_model (globals w') = None ->
     forall w2, globals w2 = globals w' ->
       (test_cell Toy.fw w2).1 = Raise AttributeError).
Proof.
  apply (no_best_model_without_finite_loss (fw := Toy.fw) Toy.start).
  apply run_ok_eq. vm_compute. reflexivity.
Defined.

(* ===================================================================== *)
(** * From the text to the targets *)
(* ===================================================================== *)

Section pipeline.
Context (fw : framework).

(** X19.  The data cells fit together: in a batch that [get_batch]
    cuts out of what [batchify] made of a text, every target is the index
    of the token that follows the token of its input entry in the text.
    With [nbatch = n // bsz] rows, entry [(k, j)] of the input of the
    batch at [i] is the token at position [j * nbatch + i + k], and the
    target at [k * bsz + j] is the token at the position behind it. *)
Theorem targets_are_next_tokens (ds : Dataset (token fw)) (ex : Example (token fw))
    (rest : list (Example (token fw))) (bsz i : Z) (w0 w : World fw) :
  examples ds = ex :: rest ->
  1 <= bsz ->
  let nbatch := Z.of_nat (length (text ex)) / bsz in
  0 <= i < nbatch - 1 ->
  exists source inp target : tensor Z,
    batchify fw ds bsz w0 = (Ok source, log (Enter "batchify") w0) /\
    get_batch fw source i w = (Ok (inp, target), log (Enter "get_batch") w) /\
    forall k j, 0 <= k < Z.min bptt (nbatch - 1 - i) -> 0 <= j < bsz ->
      exists tok next : token fw,
        text ex !! Z.to_nat (j * nbatch + i + k) = Some tok /\
        text ex !! Z.to_nat (j * nbatch + i + k + 1) = Some next /\
        entry inp k j = Some (stoi fw tok) /\
        data target !! Z.to_nat (k * bsz + j) = Some (stoi fw next).
Proof.
  intros Hex Hbsz. cbv zeta.
  remember (Z.of_nat (length (text ex))) as n eqn:Hn.
  intros Hi.
  assert (Hq : 0 <= n / bsz) by (apply Z.div_pos; lia).
  assert (Hle : n / bsz * bsz <= n)
    by (rewrite Z.mul_comm; apply Z.mul_div_le; lia).
  set (d0 := take (Z.to_nat (n / bsz * bsz)) (stoi fw <$> text ex)).
  assert (Hlen0 : Z.of_nat (length d0) = bsz * (n / bsz)).
  { unfold d0. rewrite length_take_le; [lia|]. rewrite length_fmap. lia. }
  assert (Hlen : Z.of_nat (length (torch.transpose_data bsz (n / bsz) d0))
                 = bsz * (n / bsz)) by (apply transpose_data_length; lia).
  pose proof (get_batch_run fw (n / bsz) bsz (torch.transpose_data bsz (n / bsz) d0)
                i w ltac:(lia) ltac:(lia) ltac:(lia)) as Hbatch.
  cbv zeta in Hbatch. unfold bptt in Hbatch |- *.
  set (s := Z.min 35 (n / bsz - 1 - i)) in *.
  assert (Hs : 1 <= s /\ i + s <= n / bsz - 1) by lia.
  replace (Z.max 0 s) with s in Hbatch by lia.
  eexists _, _, _. split.
  { rewrite (batchify_unfold fw ds ex rest) by (done || lia). by rewrite <- Hn. }
  split; [exact Hbatch|].
  intros k j Hk Hj.
  destruct (lookup_lt_is_Some_2 (text ex) (Z.to_nat (j * (n / bsz) + i + k)))
    as [tok Htok]; [nia|].
  destruct (lookup_lt_is_Some_2 (text ex) (Z.to_nat (j * (n / bsz) + i + k + 1)))
    as [next Hnext]; [nia|].
  exists tok, next. split; [done|]. split; [done|].
  unfold entry. cbn [shape data]. rewrite bool_decide_eq_true_2 by lia.
  rewrite !lookup_take_lt, !lookup_drop by nia.
  split.
  - replace (Z.to_nat (i * bsz) + Z.to_nat (k * bsz + j))%nat
      with (Z.to_nat ((i + k) * bsz + j)) by nia.
    rewrite transpose_data_lookup by lia.
    unfold d0. rewrite lookup_take_lt by nia.
    rewrite list_lookup_fmap.
    replace (j * (n / bsz) + (i + k)) with (j * (n / bsz) + i + k) by lia.
    by rewrite Htok.
  - replace (Z.to_nat ((i + 1) * bsz) + Z.to_nat (k * bsz + j))%nat
      with (Z.to_nat ((i + k + 1) * bsz + j)) by nia.
    rewrite transpose_data_lookup by lia.
    unfold d0. rewrite lookup_take_lt by nia.
    rewrite list_lookup_fmap.
    replace (j * (n / bsz) + (i + k + 1)) with (j * (n / bsz) + i + k + 1) by lia.
    by rewrite Hnext.
Qed.
End pipeline.

(** The five tokens of the small corpus in one column of five rows, read
    from the first row on. *)
Lemma targets_are_next_tokens_witness :
  let nbatch := Z.of_nat (length [4; 8; 15; 16; 23]) / 1 in
  exists source inp target : tensor Z,
    batchify Toy.fw Toy.corpus 1 Toy.blank =
      (Ok source, log (Enter "batchify") Toy.blank) /\
    get_batch Toy.fw source 0 Toy.blank =
      (Ok (inp, target), log (Enter "get_batch") Toy.blank) /\
    forall k j, 0 <= k < Z.min bptt (nbatch - 1 - 0) -> 0 <= j < 1 ->
      exists tok next : Z,
        [4; 8; 15; 16; 23] !! Z.to_nat (j * nbatch + 0 + k) = Some tok /\
        [4; 8; 15; 16; 23] !! Z.to_nat (j * nbatch + 0 + k + 1) = Some next /\
        entry inp k j = Some tok /\
        data target !! Z.to_nat (k * 1 + j) = Some next.
Proof.
  apply (targets_are_next_tokens Toy.fw Toy.corpus {| text := [4; 8; 15; 16; 23] |} []
           1 0 Toy.blank Toy.blank).
  - reflexivity.
  - lia.
  - by vm_compute.
Defined.

(* ===================================================================== *)
(** * One call of the model for each batch *)
(* ===================================================================== *)

Section enters_times_rules.
Context {fw : framework} (P : Globals fw -> Prop) (fn : string).

Lemma entered_app (tr1 tr2 : list event) :
  entered fn (tr1 ++ tr2) = (entered fn tr1 + entered fn tr2)%nat.
Proof. unfold entered. by rewrite list.filter_app, length_app. Qed.

Lemma enters_times_eq {A : Type} (n n' : nat) (m : M fw A) :
  n = n' -> enters_times P fn n m -> enters_times P fn n' m.
Proof. by intros ->. Qed.

Lemma enters_times_ret {A : Type} (a : A) : enters_times P fn 0 (mret a : M fw A).
Proof.
  intros w a' w' HP [= <- <-]. split; [done|]. exists []. by rewrite app_nil_r.
Qed.

Lemma enters_times_bind {A B : Type} (n1 n2 : nat) (m : M fw A) (k : A -> M fw B) :
  enters_times P fn n1 m -> (forall a, enters_times P fn n2 (k a)) ->
  enters_times P fn (n1 + n2) (m ≫= k).
Proof.
  intros Hm Hk w b w' HP Hrun.
  apply bind_ok_inv in Hrun as (a & w1 & Hm1 & Hk1).
  destruct (Hm _ _ _ HP Hm1) as (HP1 & tr1 & Htr1 & Hn1).
  destruct (Hk a _ _ _ HP1 Hk1) as (HP2 & tr2 & Htr2 & Hn2).
  split; [done|]. exists (tr1 ++ tr2)%list.
  by rewrite Htr2, Htr1, <- app_assoc, entered_app, Hn1, Hn2.
Qed.

Lemma enters_times_lift {A : Type} (callee : string) (r : result A) :
  enters_times P fn 0 (lift callee r : M fw A).
Proof.
  intros w a w' HP Hrun. apply lift_ok_inv in Hrun as [_ ->].
  split; [done|]. exists []. by rewrite app_nil_r.
Qed.

(** The value of a call that only computes is at hand in what follows
    it. *)
Lemma enters_times_bind_lift {A B : Type} (n : nat) (callee : string) (r : result A)
    (k : A -> M fw B) :
  (forall a, r = Ok a -> enters_times P fn n (k a)) ->
  enters_times P fn n (lift callee r ≫= k).
Proof.
  intros Hk w b w' HP Hrun.
  apply bind_ok_inv in Hrun as (a & w1 & Hm1 & Hk1).
  apply lift_ok_inv in Hm1 as [Hr ->]. exact (Hk a Hr w b w' HP Hk1).
Qed.

Lemma enters_times_call {A : Type} (callee : string) (op : L fw -> result A * L fw) :
  enters_times P fn 0 (call callee op).
Proof.
  intros w a w' HP Hrun. unfold call in Hrun.
  destruct (op (lib w)) as [[a'|e] l]; [|done]. injection Hrun as <- <-.
  split; [done|]. exists []. by rewrite app_nil_r.
Qed.

Lemma enters_times_get_lib {A : Type} (f : L fw -> A) : enters_times P fn 0 (get_lib f).
Proof.
  intros w a w' HP [= <- <-]. split; [done|]. exists []. by rewrite app_nil_r.
Qed.

Lemma enters_times_get_global {A : Type} (f : Globals fw -> A) :
  enters_times P fn 0 (get_global f).
Proof.
  intros w a w' HP [= <- <-]. split; [done|]. exists []. by rewrite app_nil_r.
Qed.

(** The value of a variable of the top level is at hand in what
    follows the read. *)
Lemma enters_times_bind_get_global {A B : Type} (n : nat) (f : Globals fw -> A)
    (k : A -> M fw B) :
  (forall g, P g -> enters_times P fn n (k (f g))) ->
  enters_times P fn n (get_global f ≫= k).
Proof.
  intros Hk w b w' HP Hrun.
  apply bind_ok_inv in Hrun as (a & w1 & Hm1 & Hk1).
  injection Hm1 as <- <-. exact (Hk (globals w) HP w b w' HP Hk1).
Qed.

Lemma enters_times_get_obj (self : loc) : enters_times P fn 0 (get_obj (fw := fw) self).
Proof.
  intros w a w' HP [= <- <-]. split; [done|]. exists []. by rewrite app_nil_r.
Qed.

Lemma enters_times_put_obj (self : loc) (f : TransformerModel fw -> TransformerModel fw) :
  enters_times P fn 0 (put_obj self f).
Proof.
  intros w a w' HP [= <- <-]. split; [done|]. exists []. by rewrite app_nil_r.
Qed.

Lemma enters_times_enter_other {A : Type} (fn' : string) (n : nat) (body : M fw A) :
  String.eqb fn' fn = false ->
  enters_times P fn n body -> enters_times P fn n (enter fn' body).
Proof.
  intros Hne Hb w a w' HP Hrun. unfold enter in Hrun.
  destruct (Hb (log (Enter fn') w) a w' HP Hrun) as (HP' & tr & Htr & Hn).
  split; [done|]. exists (Enter fn' :: tr). split.
  - rewrite Htr. simpl. by rewrite <- app_assoc.
  - unfold entered in *. rewrite list.filter_cons. simpl. by rewrite Hne.
Qed.

Lemma enters_times_enter_here {A : Type} (n : nat) (body : M fw A) :
  enters_times P fn n body -> enters_times P fn (S n) (enter fn body).
Proof.
  intros Hb w a w' HP Hrun. unfold enter in Hrun.
  destruct (Hb (log (Enter fn) w) a w' HP Hrun) as (HP' & tr & Htr & Hn).
  split; [done|]. exists (Enter fn :: tr). split.
  - rewrite Htr. simpl. by rewrite <- app_assoc.
  - unfold entered in *. rewrite list.filter_cons. simpl.
    rewrite String.eqb_refl. simpl. by rewrite Hn.
Qed.

Lemma enters_times_for_each {X S : Type} (n : nat) (xs : list X) (acc : S)
    (body : S -> X -> M fw S) :
  (forall a x, enters_times P fn n (body a x)) ->
  enters_times P fn (length xs * n) (for_each xs acc body).
Proof.
  intros Hb. revert acc. induction xs as [|x xs IH]; intros acc; simpl.
  - apply enters_times_ret.
  - apply enters_times_bind; [apply Hb|apply IH].
Qed.

Lemma enters_times_with_no_grad {A : Type} (n : nat) (body : M fw A) :
  enters_times P fn n body -> enters_times P fn n (with_no_grad body).
Proof.
  intros Hb w a w' HP Hrun. unfold with_no_grad in Hrun.
  rewrite bind_run in Hrun. cbn [put_lib] in Hrun.
  match type of Hrun with
  | context [body ?w0] => destruct (body w0) as [r w1] eqn:Hbody
  end.
  injection Hrun as -> <-.
  match type of Hbody with
  | body ?w0 = _ => destruct (Hb w0 _ _ HP Hbody) as (HP' & tr & Htr & Hn)
  end.
  split; [done|]. by exists tr.
Qed.
End enters_times_rules.

(** One step of a count of calls: the rule of the outermost construct,
    with the count of a branch left to be compared at the end. *)
Ltac times_rule :=
  lazymatch goal with
  | |- enters_times _ _ _ (mret _) => apply enters_times_ret
  | |- enters_times _ _ _ (_ ≫= _) => eapply enters_times_bind; [|intros ?]
  | |- enters_times _ _ _ (lift _ _) => apply enters_times_lift
  | |- enters_times _ _ _ (call _ _) => apply enters_times_call
  | |- enters_times _ _ _ (get_lib _) => apply enters_times_get_lib
  | |- enters_times _ _ _ (get_global _) => apply enters_times_get_global
  | |- enters_times _ _ _ (get_obj _) => apply enters_times_get_obj
  | |- enters_times _ _ _ (put_obj _ _) => apply enters_times_put_obj
  | |- enters_times _ _ _ (enter _ _) =>
      first [ apply enters_times_enter_other; [reflexivity|]
            | apply enters_times_enter_here ]
  | |- enters_times _ _ _ (for_each _ _ _) => apply enters_times_for_each; intros ? ?
  | |- enters_times _ _ _ (with_no_grad _) => apply enters_times_with_no_grad
  | |- enters_times _ _ _ (match ?x with _ => _ end) =>
      destruct x; (eapply enters_times_eq; cycle 1)
  | |- enters_times _ _ _ (match ?x with _ => _ end _) =>
      destruct x; cbv beta; (eapply enters_times_eq; cycle 1)
  | |- enters_times _ _ _ _ => solve [eauto]
  end.

Ltac times_steps := repeat times_rule.

Section enters_times_functions.
Context {fw : framework} (P : Globals fw -> Prop).

Lemma get_batch_no_forward (source : tensor Z) (i : Z) :
  enters_times P "TransformerModel.forward" 0 (get_batch fw source i).
Proof.
  unfold get_batch. eapply enters_times_eq; cycle 1; [times_steps|reflexivity].
Qed.

Lemma Module_train_no_forward (self : loc) (mode : bool) :
  enters_times P "TransformerModel.forward" 0 (Module_train fw self mode).
Proof.
  unfold Module_train. eapply enters_times_eq; cycle 1; [times_steps|reflexivity].
Qed.

(** A call of [forward] enters [forward] once: neither the mask method
    nor the positional encoding calls back. *)
Lemma forward_enters_once (self : loc) (src : tensor Z) :
  enters_times P "TransformerModel.forward" 1 (TransformerModel_forward fw self src).
Proof.
  unfold TransformerModel_forward, _generate_square_subsequent_mask,
    PositionalEncoding_forward.
  eapply enters_times_eq; cycle 1; [times_steps|].
  all: reflexivity.
Qed.

Lemma evaluate_forward_count (eval_model : loc) (data_source : tensor Z) (N : Z) :
  torch.size data_source 0 = Ok N ->
  enters_times P "TransformerModel.forward" (length (py_range 0 (N - 1) bptt))
    (evaluate fw eval_model data_source).
Proof.
  intros HN. unfold evaluate.
  pose proof Module_train_no_forward. pose proof get_batch_no_forward.
  pose proof forward_enters_once.
  eapply enters_times_eq; cycle 1.
  - apply enters_times_enter_other; [reflexivity|].
    eapply enters_times_bind; [eauto|intros []].
    eapply enters_times_bind; [times_steps|intros ntokens].
    eapply enters_times_bind; [|intros total; times_steps].
    apply enters_times_with_no_grad.
    apply enters_times_bind_lift. intros n Hn.
    rewrite HN in Hn. injection Hn as <-.
    times_steps; reflexivity.
  - simpl. lia.
Qed.
End enters_times_functions.

Section train_count.
Context {fw : framework}.

Lemma train_forward_count (td : tensor Z) (N : Z) :
  torch.size td 0 = Ok N ->
  enters_times (fun g : Globals fw => train_data g = td) "TransformerModel.forward"
    (length (py_range 0 (N - 1) bptt)) (train fw).
Proof.
  intros HN. unfold train.
  pose proof (Module_train_no_forward (fun g : Globals fw => train_data g = td)).
  pose proof (get_batch_no_forward (fun g : Globals fw => train_data g = td)).
  pose proof (forward_enters_once (fun g : Globals fw => train_data g = td)).
  eapply enters_times_eq; cycle 1.
  - apply enters_times_enter_other; [reflexivity|].
    eapply enters_times_bind; [times_steps|intros mdl].
    eapply enters_times_bind; [eauto|intros []].
    eapply enters_times_bind; [times_steps|intros start_time].
    eapply enters_times_bind; [times_steps|intros ntokens].
    apply enters_times_bind_get_global. intros g ->.
    apply enters_times_bind_lift. intros n Hn.
    rewrite HN in Hn. injection Hn as <-.
    eapply enters_times_bind; [|intros; times_steps].
    times_steps; reflexivity.
  - simpl. rewrite length_zip_with, length_fmap, length_seq. lia.
Qed.

(** X20.  [evaluate] and [train] call the model once for each batch:
    a call that returns has entered [forward] as many times as there are
    starts in [range(0, N - 1, bptt)], for a data source of [N] rows. *)
Theorem one_forward_per_batch :
  (forall eval_model data_source N (w : World fw) v w',
     torch.size data_source 0 = Ok N ->
     evaluate fw eval_model data_source w = (Ok v, w') ->
     exists tr,
       trace w' = (trace w ++ tr)%list /\
       entered "TransformerModel.forward" tr = length (py_range 0 (N - 1) bptt)) /\
  (forall N (w w' : World fw),
     torch.size (train_data (globals w)) 0 = Ok N ->
     train fw w = (Ok tt, w') ->
     exists tr,
       trace w' = (trace w ++ tr)%list /\
       entered "TransformerModel.forward" tr = length (py_range 0 (N - 1) bptt)).
Proof.
  split.
  - intros eval_model data_source N w v w' HN Hrun.
    by apply (evaluate_forward_count (fun _ => True) eval_model data_source N HN
                w v w' I).
  - intros N w w' HN Hrun.
    by apply (train_forward_count (train_data (globals w)) N HN w tt w' eq_refl).
Qed.
End train_count.
